(** * Sentinel article-enrichment pipeline: a shallow embedding

    The development follows the Python sources of the repository:

    - [Py]     : the fragment of Python's [str], [dict] and JSON values the
                 pipeline relies on;
    - [Utils]  : [dashboard/utils.py] (language detector, gazetteer,
                 priority classifier);
    - [Ner]    : [nlp-models/ner_service.py] (entity merger);
    - [Models] : [dashboard/models.py] (the article record);
    - [Views]  : [dashboard/views.py] (the pipeline orchestrator);
    - [Spec]   : the notions and the concrete inputs the statements use.

    Definitions come first, the theorems about them afterwards.  The
    confidence scores, on which the entity merger computes, are binary64
    floats; the numbers the code only stores, compares with integers or
    passes on (coordinates, the factor 1.5, JSON numbers) are exact
    rationals. *)

From Stdlib Require Import String Ascii List ZArith NArith QArith Bool Lia.
From Stdlib Require Import Sorted Permutation.
From Stdlib Require SpecFloat.
Import ListNotations.

Set Warnings "-register-all".

(* ===================================================================== *)
(** ** Python values *)
(* ===================================================================== *)

Module Py.

(** A Python [str] is a sequence of Unicode code points. *)
Definition str := list N.

(** ASCII literals of the sources. *)
Definition u (s : string) : str := map N_of_ascii (list_ascii_of_string s).

Definition str_eqb (a b : str) : bool :=
  if list_eq_dec N.eq_dec a b then true else false.

(** [str.isspace] on one code point: the Unicode white-space class that
    [str.strip()] and [str.split()] use when called without argument. *)
Definition isspace (c : N) : bool :=
  ((9 <=? c) && (c <=? 13) || (28 <=? c) && (c <=? 32)
   || (c =? 133) || (c =? 160) || (c =? 5760)
   || (8192 <=? c) && (c <=? 8202)
   || (c =? 8232) || (c =? 8233) || (c =? 8239) || (c =? 8287)
   || (c =? 12288))%N.

(** The simple lower-case mappings of Unicode 14.0, the tables of
    CPython 3.11: an entry [(first, last, step, target)] sends the code
    points [first], [first + step], ... up to [last] to [target],
    [target + step], ... *)
Definition lower_table : list (N * N * N * N) :=
  [
    (65, 90, 1, 97); (192, 214, 1, 224); (216, 222, 1, 248);
    (256, 302, 2, 257); (306, 310, 2, 307); (313, 327, 2, 314);
    (330, 374, 2, 331); (376, 376, 1, 255); (377, 381, 2, 378);
    (385, 385, 1, 595); (386, 388, 2, 387); (390, 390, 1, 596);
    (391, 391, 1, 392); (393, 394, 1, 598); (395, 395, 1, 396);
    (398, 398, 1, 477); (399, 399, 1, 601); (400, 400, 1, 603);
    (401, 401, 1, 402); (403, 403, 1, 608); (404, 404, 1, 611);
    (406, 406, 1, 617); (407, 407, 1, 616); (408, 408, 1, 409);
    (412, 412, 1, 623); (413, 413, 1, 626); (415, 415, 1, 629);
    (416, 420, 2, 417); (422, 422, 1, 640); (423, 423, 1, 424);
    (425, 425, 1, 643); (428, 428, 1, 429); (430, 430, 1, 648);
    (431, 431, 1, 432); (433, 434, 1, 650); (435, 437, 2, 436);
    (439, 439, 1, 658); (440, 440, 1, 441); (444, 444, 1, 445);
    (452, 452, 1, 454); (453, 453, 1, 454); (455, 455, 1, 457);
    (456, 456, 1, 457); (458, 458, 1, 460); (459, 475, 2, 460);
    (478, 494, 2, 479); (497, 497, 1, 499); (498, 500, 2, 499);
    (502, 502, 1, 405); (503, 503, 1, 447); (504, 542, 2, 505);
    (544, 544, 1, 414); (546, 562, 2, 547); (570, 570, 1, 11365);
    (571, 571, 1, 572); (573, 573, 1, 410); (574, 574, 1, 11366);
    (577, 577, 1, 578); (579, 579, 1, 384); (580, 580, 1, 649);
    (581, 581, 1, 652); (582, 590, 2, 583); (880, 882, 2, 881);
    (886, 886, 1, 887); (895, 895, 1, 1011); (902, 902, 1, 940);
    (904, 906, 1, 941); (908, 908, 1, 972); (910, 911, 1, 973);
    (913, 929, 1, 945); (931, 939, 1, 963); (975, 975, 1, 983);
    (984, 1006, 2, 985); (1012, 1012, 1, 952); (1015, 1015, 1, 1016);
    (1017, 1017, 1, 1010); (1018, 1018, 1, 1019); (1021, 1023, 1, 891);
    (1024, 1039, 1, 1104); (1040, 1071, 1, 1072); (1120, 1152, 2, 1121);
    (1162, 1214, 2, 1163); (1216, 1216, 1, 1231); (1217, 1229, 2, 1218);
    (1232, 1326, 2, 1233); (1329, 1366, 1, 1377); (4256, 4293, 1, 11520);
    (4295, 4295, 1, 11559); (4301, 4301, 1, 11565); (5024, 5103, 1, 43888);
    (5104, 5109, 1, 5112); (7312, 7354, 1, 4304); (7357, 7359, 1, 4349);
    (7680, 7828, 2, 7681); (7838, 7838, 1, 223); (7840, 7934, 2, 7841);
    (7944, 7951, 1, 7936); (7960, 7965, 1, 7952); (7976, 7983, 1, 7968);
    (7992, 7999, 1, 7984); (8008, 8013, 1, 8000); (8025, 8031, 2, 8017);
    (8040, 8047, 1, 8032); (8072, 8079, 1, 8064); (8088, 8095, 1, 8080);
    (8104, 8111, 1, 8096); (8120, 8121, 1, 8112); (8122, 8123, 1, 8048);
    (8124, 8124, 1, 8115); (8136, 8139, 1, 8050); (8140, 8140, 1, 8131);
    (8152, 8153, 1, 8144); (8154, 8155, 1, 8054); (8168, 8169, 1, 8160);
    (8170, 8171, 1, 8058); (8172, 8172, 1, 8165); (8184, 8185, 1, 8056);
    (8186, 8187, 1, 8060); (8188, 8188, 1, 8179); (8486, 8486, 1, 969);
    (8490, 8490, 1, 107); (8491, 8491, 1, 229); (8498, 8498, 1, 8526);
    (8544, 8559, 1, 8560); (8579, 8579, 1, 8580); (9398, 9423, 1, 9424);
    (11264, 11311, 1, 11312); (11360, 11360, 1, 11361);
    (11362, 11362, 1, 619); (11363, 11363, 1, 7549); (11364, 11364, 1, 637);
    (11367, 11371, 2, 11368); (11373, 11373, 1, 593); (11374, 11374, 1, 625);
    (11375, 11375, 1, 592); (11376, 11376, 1, 594); (11378, 11378, 1, 11379);
    (11381, 11381, 1, 11382); (11390, 11391, 1, 575);
    (11392, 11490, 2, 11393); (11499, 11501, 2, 11500);
    (11506, 11506, 1, 11507); (42560, 42604, 2, 42561);
    (42624, 42650, 2, 42625); (42786, 42798, 2, 42787);
    (42802, 42862, 2, 42803); (42873, 42875, 2, 42874);
    (42877, 42877, 1, 7545); (42878, 42886, 2, 42879);
    (42891, 42891, 1, 42892); (42893, 42893, 1, 613);
    (42896, 42898, 2, 42897); (42902, 42920, 2, 42903);
    (42922, 42922, 1, 614); (42923, 42923, 1, 604); (42924, 42924, 1, 609);
    (42925, 42925, 1, 620); (42926, 42926, 1, 618); (42928, 42928, 1, 670);
    (42929, 42929, 1, 647); (42930, 42930, 1, 669); (42931, 42931, 1, 43859);
    (42932, 42946, 2, 42933); (42948, 42948, 1, 42900);
    (42949, 42949, 1, 642); (42950, 42950, 1, 7566);
    (42951, 42953, 2, 42952); (42960, 42960, 1, 42961);
    (42966, 42968, 2, 42967); (42997, 42997, 1, 42998);
    (65313, 65338, 1, 65345); (66560, 66599, 1, 66600);
    (66736, 66771, 1, 66776); (66928, 66938, 1, 66967);
    (66940, 66954, 1, 66979); (66956, 66962, 1, 66995);
    (66964, 66965, 1, 67003); (68736, 68786, 1, 68800);
    (71840, 71871, 1, 71872); (93760, 93791, 1, 93792);
    (125184, 125217, 1, 125218)
  ]%N.

Definition in_entry (c : N) (entry : N * N * N * N) : bool :=
  let '(first, last, step, _) := entry in
  ((first <=? c) && (c <=? last) && ((c - first) mod step =? 0))%N.

(** The lower case of one code point, when it is one code point. *)
Definition lower_cp (c : N) : N :=
  match find (in_entry c) lower_table with
  | Some (first, _, _, target) => (target + (c - first))%N
  | None => c
  end.

(** [_PyUnicode_ToLowerFull]: U+0130 alone has a longer lower case, 'i'
    followed by U+0307. *)
Definition lower_full (c : N) : str :=
  if (c =? 304)%N then [105; 775]%N else [lower_cp c].

(** The code points with the property Cased, as ranges. *)
Definition cased_ranges : list (N * N) :=
  [
    (65, 90); (97, 122); (170, 170); (181, 181); (186, 186); (192, 214);
    (216, 246); (248, 442); (444, 447); (452, 659); (661, 696); (704, 705);
    (736, 740); (837, 837); (880, 883); (886, 887); (890, 893); (895, 895);
    (902, 902); (904, 906); (908, 908); (910, 929); (931, 1013);
    (1015, 1153); (1162, 1327); (1329, 1366); (1376, 1416); (4256, 4293);
    (4295, 4295); (4301, 4301); (4304, 4346); (4349, 4351); (5024, 5109);
    (5112, 5117); (7296, 7304); (7312, 7354); (7357, 7359); (7424, 7615);
    (7680, 7957); (7960, 7965); (7968, 8005); (8008, 8013); (8016, 8023);
    (8025, 8025); (8027, 8027); (8029, 8029); (8031, 8061); (8064, 8116);
    (8118, 8124); (8126, 8126); (8130, 8132); (8134, 8140); (8144, 8147);
    (8150, 8155); (8160, 8172); (8178, 8180); (8182, 8188); (8305, 8305);
    (8319, 8319); (8336, 8348); (8450, 8450); (8455, 8455); (8458, 8467);
    (8469, 8469); (8473, 8477); (8484, 8484); (8486, 8486); (8488, 8488);
    (8490, 8493); (8495, 8500); (8505, 8505); (8508, 8511); (8517, 8521);
    (8526, 8526); (8544, 8575); (8579, 8580); (9398, 9449); (11264, 11492);
    (11499, 11502); (11506, 11507); (11520, 11557); (11559, 11559);
    (11565, 11565); (42560, 42605); (42624, 42653); (42786, 42887);
    (42891, 42894); (42896, 42954); (42960, 42961); (42963, 42963);
    (42965, 42969); (42997, 42998); (43000, 43002); (43824, 43866);
    (43868, 43880); (43888, 43967); (64256, 64262); (64275, 64279);
    (65313, 65338); (65345, 65370); (66560, 66639); (66736, 66771);
    (66776, 66811); (66928, 66938); (66940, 66954); (66956, 66962);
    (66964, 66965); (66967, 66977); (66979, 66993); (66995, 67001);
    (67003, 67004); (67456, 67456); (67459, 67461); (67463, 67504);
    (67506, 67514); (68736, 68786); (68800, 68850); (71840, 71903);
    (93760, 93823); (119808, 119892); (119894, 119964); (119966, 119967);
    (119970, 119970); (119973, 119974); (119977, 119980); (119982, 119993);
    (119995, 119995); (119997, 120003); (120005, 120069); (120071, 120074);
    (120077, 120084); (120086, 120092); (120094, 120121); (120123, 120126);
    (120128, 120132); (120134, 120134); (120138, 120144); (120146, 120485);
    (120488, 120512); (120514, 120538); (120540, 120570); (120572, 120596);
    (120598, 120628); (120630, 120654); (120656, 120686); (120688, 120712);
    (120714, 120744); (120746, 120770); (120772, 120779); (122624, 122633);
    (122635, 122654); (125184, 125251); (127280, 127305); (127312, 127337);
    (127344, 127369)
  ]%N.

(** The code points with the property Case_Ignorable, as ranges. *)
Definition case_ignorable_ranges : list (N * N) :=
  [
    (39, 39); (46, 46); (58, 58); (94, 94); (96, 96); (168, 168); (173, 173);
    (175, 175); (180, 180); (183, 184); (688, 879); (884, 885); (890, 890);
    (900, 901); (903, 903); (1155, 1161); (1369, 1369); (1375, 1375);
    (1425, 1469); (1471, 1471); (1473, 1474); (1476, 1477); (1479, 1479);
    (1524, 1524); (1536, 1541); (1552, 1562); (1564, 1564); (1600, 1600);
    (1611, 1631); (1648, 1648); (1750, 1757); (1759, 1768); (1770, 1773);
    (1807, 1807); (1809, 1809); (1840, 1866); (1958, 1968); (2027, 2037);
    (2042, 2042); (2045, 2045); (2070, 2093); (2137, 2139); (2184, 2184);
    (2192, 2193); (2200, 2207); (2249, 2306); (2362, 2362); (2364, 2364);
    (2369, 2376); (2381, 2381); (2385, 2391); (2402, 2403); (2417, 2417);
    (2433, 2433); (2492, 2492); (2497, 2500); (2509, 2509); (2530, 2531);
    (2558, 2558); (2561, 2562); (2620, 2620); (2625, 2626); (2631, 2632);
    (2635, 2637); (2641, 2641); (2672, 2673); (2677, 2677); (2689, 2690);
    (2748, 2748); (2753, 2757); (2759, 2760); (2765, 2765); (2786, 2787);
    (2810, 2815); (2817, 2817); (2876, 2876); (2879, 2879); (2881, 2884);
    (2893, 2893); (2901, 2902); (2914, 2915); (2946, 2946); (3008, 3008);
    (3021, 3021); (3072, 3072); (3076, 3076); (3132, 3132); (3134, 3136);
    (3142, 3144); (3146, 3149); (3157, 3158); (3170, 3171); (3201, 3201);
    (3260, 3260); (3263, 3263); (3270, 3270); (3276, 3277); (3298, 3299);
    (3328, 3329); (3387, 3388); (3393, 3396); (3405, 3405); (3426, 3427);
    (3457, 3457); (3530, 3530); (3538, 3540); (3542, 3542); (3633, 3633);
    (3636, 3642); (3654, 3662); (3761, 3761); (3764, 3772); (3782, 3782);
    (3784, 3789); (3864, 3865); (3893, 3893); (3895, 3895); (3897, 3897);
    (3953, 3966); (3968, 3972); (3974, 3975); (3981, 3991); (3993, 4028);
    (4038, 4038); (4141, 4144); (4146, 4151); (4153, 4154); (4157, 4158);
    (4184, 4185); (4190, 4192); (4209, 4212); (4226, 4226); (4229, 4230);
    (4237, 4237); (4253, 4253); (4348, 4348); (4957, 4959); (5906, 5908);
    (5938, 5939); (5970, 5971); (6002, 6003); (6068, 6069); (6071, 6077);
    (6086, 6086); (6089, 6099); (6103, 6103); (6109, 6109); (6155, 6159);
    (6211, 6211); (6277, 6278); (6313, 6313); (6432, 6434); (6439, 6440);
    (6450, 6450); (6457, 6459); (6679, 6680); (6683, 6683); (6742, 6742);
    (6744, 6750); (6752, 6752); (6754, 6754); (6757, 6764); (6771, 6780);
    (6783, 6783); (6823, 6823); (6832, 6862); (6912, 6915); (6964, 6964);
    (6966, 6970); (6972, 6972); (6978, 6978); (7019, 7027); (7040, 7041);
    (7074, 7077); (7080, 7081); (7083, 7085); (7142, 7142); (7144, 7145);
    (7149, 7149); (7151, 7153); (7212, 7219); (7222, 7223); (7288, 7293);
    (7376, 7378); (7380, 7392); (7394, 7400); (7405, 7405); (7412, 7412);
    (7416, 7417); (7468, 7530); (7544, 7544); (7579, 7679); (8125, 8125);
    (8127, 8129); (8141, 8143); (8157, 8159); (8173, 8175); (8189, 8190);
    (8203, 8207); (8216, 8217); (8228, 8228); (8231, 8231); (8234, 8238);
    (8288, 8292); (8294, 8303); (8305, 8305); (8319, 8319); (8336, 8348);
    (8400, 8432); (11388, 11389); (11503, 11505); (11631, 11631);
    (11647, 11647); (11744, 11775); (11823, 11823); (12293, 12293);
    (12330, 12333); (12337, 12341); (12347, 12347); (12441, 12446);
    (12540, 12542); (40981, 40981); (42232, 42237); (42508, 42508);
    (42607, 42610); (42612, 42621); (42623, 42623); (42652, 42655);
    (42736, 42737); (42752, 42785); (42864, 42864); (42888, 42890);
    (42994, 42996); (43000, 43001); (43010, 43010); (43014, 43014);
    (43019, 43019); (43045, 43046); (43052, 43052); (43204, 43205);
    (43232, 43249); (43263, 43263); (43302, 43309); (43335, 43345);
    (43392, 43394); (43443, 43443); (43446, 43449); (43452, 43453);
    (43471, 43471); (43493, 43494); (43561, 43566); (43569, 43570);
    (43573, 43574); (43587, 43587); (43596, 43596); (43632, 43632);
    (43644, 43644); (43696, 43696); (43698, 43700); (43703, 43704);
    (43710, 43711); (43713, 43713); (43741, 43741); (43756, 43757);
    (43763, 43764); (43766, 43766); (43867, 43871); (43881, 43883);
    (44005, 44005); (44008, 44008); (44013, 44013); (64286, 64286);
    (64434, 64450); (65024, 65039); (65043, 65043); (65056, 65071);
    (65106, 65106); (65109, 65109); (65279, 65279); (65287, 65287);
    (65294, 65294); (65306, 65306); (65342, 65342); (65344, 65344);
    (65392, 65392); (65438, 65439); (65507, 65507); (65529, 65531);
    (66045, 66045); (66272, 66272); (66422, 66426); (67456, 67461);
    (67463, 67504); (67506, 67514); (68097, 68099); (68101, 68102);
    (68108, 68111); (68152, 68154); (68159, 68159); (68325, 68326);
    (68900, 68903); (69291, 69292); (69446, 69456); (69506, 69509);
    (69633, 69633); (69688, 69702); (69744, 69744); (69747, 69748);
    (69759, 69761); (69811, 69814); (69817, 69818); (69821, 69821);
    (69826, 69826); (69837, 69837); (69888, 69890); (69927, 69931);
    (69933, 69940); (70003, 70003); (70016, 70017); (70070, 70078);
    (70089, 70092); (70095, 70095); (70191, 70193); (70196, 70196);
    (70198, 70199); (70206, 70206); (70367, 70367); (70371, 70378);
    (70400, 70401); (70459, 70460); (70464, 70464); (70502, 70508);
    (70512, 70516); (70712, 70719); (70722, 70724); (70726, 70726);
    (70750, 70750); (70835, 70840); (70842, 70842); (70847, 70848);
    (70850, 70851); (71090, 71093); (71100, 71101); (71103, 71104);
    (71132, 71133); (71219, 71226); (71229, 71229); (71231, 71232);
    (71339, 71339); (71341, 71341); (71344, 71349); (71351, 71351);
    (71453, 71455); (71458, 71461); (71463, 71467); (71727, 71735);
    (71737, 71738); (71995, 71996); (71998, 71998); (72003, 72003);
    (72148, 72151); (72154, 72155); (72160, 72160); (72193, 72202);
    (72243, 72248); (72251, 72254); (72263, 72263); (72273, 72278);
    (72281, 72283); (72330, 72342); (72344, 72345); (72752, 72758);
    (72760, 72765); (72767, 72767); (72850, 72871); (72874, 72880);
    (72882, 72883); (72885, 72886); (73009, 73014); (73018, 73018);
    (73020, 73021); (73023, 73029); (73031, 73031); (73104, 73105);
    (73109, 73109); (73111, 73111); (73459, 73460); (78896, 78904);
    (92912, 92916); (92976, 92982); (92992, 92995); (94031, 94031);
    (94095, 94111); (94176, 94177); (94179, 94180); (110576, 110579);
    (110581, 110587); (110589, 110590); (113821, 113822); (113824, 113827);
    (118528, 118573); (118576, 118598); (119143, 119145); (119155, 119170);
    (119173, 119179); (119210, 119213); (119362, 119364); (121344, 121398);
    (121403, 121452); (121461, 121461); (121476, 121476); (121499, 121503);
    (121505, 121519); (122880, 122886); (122888, 122904); (122907, 122913);
    (122915, 122916); (122918, 122922); (123184, 123197); (123566, 123566);
    (123628, 123631); (125136, 125142); (125252, 125259); (127995, 127999);
    (917505, 917505); (917536, 917631); (917760, 917999)
  ]%N.

Definition in_ranges (c : N) (ranges : list (N * N)) : bool :=
  existsb (fun r => (fst r <=? c) && (c <=? snd r))%N ranges.

Definition is_cased (c : N) : bool := in_ranges c cased_ranges.

Definition is_case_ignorable (c : N) : bool := in_ranges c case_ignorable_ranges.

Fixpoint skip_case_ignorable (s : str) : str :=
  match s with
  | [] => []
  | c :: s' => if is_case_ignorable c then skip_case_ignorable s' else s
  end.

(** [handle_capital_sigma]: a capital sigma is final when, case-ignorable
    code points apart, a cased one precedes it and none follows.  [before]
    holds the code points before the sigma, the nearest first. *)
Definition final_sigma (before after : str) : bool :=
  match skip_case_ignorable before with
  | c :: _ =>
      is_cased c
      && match skip_case_ignorable after with
         | [] => true
         | d :: _ => negb (is_cased d)
         end
  | [] => false
  end.

(** The lower case of the code point [c] found between [before] and
    [after]. *)
Definition lower_at (before : str) (c : N) (after : str) : str :=
  if (c =? 931)%N
  then [if final_sigma before after then 962 else 963]%N
  else lower_full c.

Fixpoint lower_from (before s : str) : str :=
  match s with
  | [] => []
  | c :: after => lower_at before c after ++ lower_from (c :: before) after
  end.

(** [s.lower()] *)
Definition lower (s : str) : str := lower_from [] s.

Fixpoint lstrip (s : str) : str :=
  match s with
  | [] => []
  | c :: s' => if isspace c then lstrip s' else s
  end.

Definition rstrip (s : str) : str := rev (lstrip (rev s)).

(** [s.strip()] *)
Definition strip (s : str) : str := rstrip (lstrip s).

(** [s.split()]: maximal runs of non-white-space characters.  [cur] is the
    word being read, most recent character first. *)
Fixpoint split_from (cur : str) (s : str) : list str :=
  match s with
  | [] => match cur with [] => [] | _ => [rev cur] end
  | c :: s' =>
      if isspace c
      then match cur with
           | [] => split_from [] s'
           | _ => rev cur :: split_from [] s'
           end
      else split_from (c :: cur) s'
  end.

Definition split (s : str) : list str := split_from [] s.

Fixpoint startswith (s p : str) : bool :=
  match p, s with
  | [], _ => true
  | _ :: _, [] => false
  | a :: p', b :: s' => (a =? b)%N && startswith s' p'
  end.

(** [sub in s] for strings. *)
Fixpoint contains (s sub : str) : bool :=
  startswith s sub ||
  match s with
  | [] => false
  | _ :: s' => contains s' sub
  end.

(** [x in l] for a list of strings. *)
Definition mem (x : str) (l : list str) : bool := existsb (str_eqb x) l.

(** [sum(1 for x in l if p x)] *)
Definition count_if {A} (p : A -> bool) (l : list A) : Z :=
  Z.of_nat (length (filter p l)).

(** A Python [float] is an IEEE 754 binary64 number: 53 bits of
    precision, exponents below 1024, rounding to nearest even. *)
Definition float : Type := SpecFloat.spec_float.

(** [float(z)] for an integer. *)
Definition float_of_int (z : Z) : float :=
  SpecFloat.binary_normalize 53 1024 z 0 false.

(** [a + b] *)
Definition float_add : float -> float -> float := SpecFloat.SFadd 53 1024.

(** [a / b] *)
Definition float_div : float -> float -> float := SpecFloat.SFdiv 53 1024.

(** [a <= b] *)
Definition float_le (a b : float) : bool := SpecFloat.SFleb a b.

(** The float a decimal literal denotes: the binary64 number nearest to
    it.  The literal is given as a fraction whose numerator and
    denominator are exact as floats (below 2^53, a power of ten up to
    10^22), so that their quotient is rounded once. *)
Definition float_literal (q : Q) : float :=
  float_div (float_of_int (Qnum q)) (float_of_int (Zpos (Qden q))).

(** JSON values as [response.json()] delivers them; Python's [None] is
    [JNull], a [dict] keeps its insertion order. *)
Inductive json : Type :=
| JNull
| JBool (b : bool)
| JInt (z : Z)
| JFloat (q : Q)
| JStr (s : str)
| JArr (l : list json)
| JObj (d : list (str * json)).

Definition dict := list (str * json).

Fixpoint dict_get {V} (k : str) (d : list (str * V)) : option V :=
  match d with
  | [] => None
  | (k', v) :: d' => if str_eqb k k' then Some v else dict_get k d'
  end.

(** [d[k] = v]: an existing key keeps its position. *)
Fixpoint dict_set {V} (k : str) (v : V) (d : list (str * V)) : list (str * V) :=
  match d with
  | [] => [(k, v)]
  | (k', v') :: d' =>
      if str_eqb k k' then (k', v) :: d' else (k', v') :: dict_set k v d'
  end.

(** Truth value of an object in a condition. *)
Definition truthy (j : json) : bool :=
  match j with
  | JNull => false
  | JBool b => b
  | JInt z => negb (z =? 0)%Z
  | JFloat q => negb (Qeq_bool q 0)
  | JStr s => match s with [] => false | _ => true end
  | JArr l => match l with [] => false | _ => true end
  | JObj d => match d with [] => false | _ => true end
  end.

Definition type_name (j : json) : str :=
  match j with
  | JNull => u "NoneType"
  | JBool _ => u "bool"
  | JInt _ => u "int"
  | JFloat _ => u "float"
  | JStr _ => u "str"
  | JArr _ => u "list"
  | JObj _ => u "dict"
  end.

(** Exceptions, with the arguments their messages are built from. *)
Inductive exn : Type :=
| TypeError (msg : str)
| AttributeError (ty attr : str)
| KeyError (key : str)
| DatabaseError (msg : str).

(** [str(e)] *)
Definition str_of_exn (e : exn) : str :=
  match e with
  | TypeError msg => msg
  | AttributeError ty attr =>
      u "'" ++ ty ++ u "' object has no attribute '" ++ attr ++ u "'"
  | KeyError key => u "'" ++ key ++ u "'"
  | DatabaseError msg => msg
  end.

Inductive result (A : Type) : Type :=
| Ok (a : A)
| Raise (e : exn).
Arguments Ok {A} a.
Arguments Raise {A} e.

(** [obj.get(key, default)]: only a [dict] has the method. *)
Definition py_get (j : json) (key : str) (default : json) : result json :=
  match j with
  | JObj d => Ok (match dict_get key d with Some v => v | None => default end)
  | _ => Raise (AttributeError (type_name j) (u "get"))
  end.

End Py.
Import Py.

(* ===================================================================== *)
(** ** dashboard/utils.py *)
(* ===================================================================== *)

Module Utils.

Definition french_indicators : list (str * list str) :=
  [ (u "articles", map u ["le"; "la"; "les"; "un"; "une"; "des"; "du"; "de"]%string);
    (u "prepositions", map u ["dans"; "pour"; "avec"; "sur"; "sous"; "par"; "sans"]%string);
    (u "conjunctions", map u ["et"; "ou"; "mais"; "donc"; "car"; "ni"]%string);
    (u "common_words",
      map u ["est"; "sont"; "avoir"]%string ++ [[234; 116; 114; 101]%N]
      ++ map u ["faire"; "aller"; "voir"]%string);
    (u "pronouns", map u ["je"; "tu"; "il"; "elle"; "nous"; "vous"; "ils"; "elles"]%string) ].

Definition english_indicators : list (str * list str) :=
  [ (u "articles", map u ["the"; "a"; "an"]%string);
    (u "prepositions", map u ["in"; "on"; "at"; "for"; "with"; "by"; "from"; "to"; "of"]%string);
    (u "conjunctions", map u ["and"; "or"; "but"; "so"; "yet"; "nor"]%string);
    (u "common_words", map u ["is"; "are"; "have"; "has"; "will"; "would"; "could"; "should"]%string);
    (u "pronouns", map u ["i"; "you"; "he"; "she"; "we"; "they"; "it"; "this"; "that"]%string) ].

(** The loop [for category, indicators in table.items(): score += sum(...)]. *)
Definition indicator_score (table : list (str * list str)) (words : list str) : Z :=
  fold_left
    (fun score entry => (score + count_if (fun word => mem word (snd entry)) words)%Z)
    table 0%Z.

Definition detect_language (text : str) : str :=
  if match text with [] => true | _ => false end
     || (Z.of_nat (length (strip text)) <? 10)%Z
  then u "auto"
  else
    let text_lower := strip (lower text) in
    let words := split text_lower in
    if (Z.of_nat (length words) <? 5)%Z then u "auto"
    else
      let french_score := indicator_score french_indicators words in
      let english_score := indicator_score english_indicators words in
      if Qlt_le_dec (inject_Z english_score * 1.5) (inject_Z french_score)
      then u "fr"
      else if (french_score <? english_score)%Z then u "en"
      else u "auto".

(** A coordinate pair, the dictionary [{'latitude': .., 'longitude': ..}]. *)
Record Coordinates : Type := mkCoordinates { latitude : Q; longitude : Q }.

Definition at_ (lat lon : Q) : Coordinates := mkCoordinates lat lon.

(** The gazetteer table, in the order the dictionary literal lists it. *)
Definition location_database : list (str * Coordinates) :=
  [ (u "yaound" ++ [233%N], at_ 3.8480 11.5021);
    (u "yaounde", at_ 3.8480 11.5021);
    (u "douala", at_ 4.0511 9.7679);
    (u "bamenda", at_ 5.9631 10.1591);
    (u "bafoussam", at_ 5.4781 10.4167);
    (u "garoua", at_ 9.3265 13.3971);
    (u "maroua", at_ 10.5969 14.3197);
    (u "ngaound" ++ [233%N] ++ u "r" ++ [233%N], at_ 7.3167 13.5833);
    (u "ngaoundere", at_ 7.3167 13.5833);
    (u "bertoua", at_ 4.5777 13.6836);
    (u "buea", at_ 4.1559 9.2928);
    (u "limbe", at_ 4.0186 9.2105);
    (u "kumba", at_ 4.6371 9.4469);
    (u "edea", at_ 3.7969 10.1350);
    (u "loum", at_ 4.7181 9.7336);
    (u "nkongsamba", at_ 4.9547 9.9386);
    (u "foumban", at_ 5.7269 10.9004);
    (u "tiko", at_ 4.0719 9.3606);
    (u "kribi", at_ 2.9394 9.9078);
    (u "sangmelima", at_ 2.9294 11.9981);
    (u "ebolowa", at_ 2.9156 11.1544);
    (u "mbalmayo", at_ 3.5186 11.5036);
    (u "akonolinga", at_ 3.7731 12.2506);
    (u "adamawa", at_ 7.3167 13.5833);
    (u "centre", at_ 3.8480 11.5021);
    (u "east", at_ 4.5777 13.6836);
    (u "far north", at_ 10.5969 14.3197);
    (u "littoral", at_ 4.0511 9.7679);
    (u "north", at_ 9.3265 13.3971);
    (u "northwest", at_ 5.9631 10.1591);
    (u "north-west", at_ 5.9631 10.1591);
    (u "south", at_ 2.9156 11.1544);
    (u "southwest", at_ 4.1559 9.2928);
    (u "south-west", at_ 4.1559 9.2928);
    (u "west", at_ 5.4781 10.4167);
    (u "extr" ++ [234%N] ++ u "me-nord", at_ 10.5969 14.3197);
    (u "nord-ouest", at_ 5.9631 10.1591);
    (u "sud-ouest", at_ 4.1559 9.2928);
    (u "cameroon", at_ 3.8480 11.5021);
    (u "cameroun", at_ 3.8480 11.5021);
    (u "nigeria", at_ 9.0820 8.6753);
    (u "chad", at_ 15.4542 18.7322);
    (u "tchad", at_ 15.4542 18.7322);
    (u "central african republic", at_ 6.6111 20.9394);
    (u "equatorial guinea", at_ 1.6508 10.2679);
    (u "gabon", at_ (-0.8037) 11.6094) ].

(** The test of the partial-matching loop:
    [key in location_key or location_key in key]. *)
Definition partial_match (location_key key : str) : bool :=
  contains location_key key || contains key location_key.

Definition geocode_location (location_name : str) : option Coordinates :=
  let location_key := strip (lower location_name) in
  match dict_get location_key location_database with
  | Some coords => Some coords
  | None =>
      match find (fun entry => partial_match location_key (fst entry))
                 location_database with
      | Some (_, coords) => Some coords
      | None => None
      end
  end.

(** The argument of [classify_article_priority]: the keys the function
    reads from [article_data]; an absent text key is [None] here. *)
Record ArticleData : Type := mkArticleData {
  translated_text : option str;
  raw_text : option str;
  entities : list dict
}.

Definition critical_keywords : list str :=
  map u ["attack"; "bomb"; "explosion"; "terrorist"; "boko haram";
         "ambush"; "kidnap"; "hostage"; "emergency"; "crisis"]%string.

Definition high_priority_keywords : list str :=
  map u ["military"; "army"; "security"; "police"; "operation";
         "conflict"; "violence"; "protest"; "strike"; "unrest"]%string.

(** [article_data.get(k, '')] *)
Definition get_text (field : option str) : str :=
  match field with Some s => s | None => [] end.

(** [e.get('entity_group') == g] for an entity dictionary. *)
Definition in_group (g : str) (e : dict) : bool :=
  match dict_get (u "entity_group") e with
  | Some (JStr g') => str_eqb g' g
  | _ => false
  end.

(** The builtin [any] called with two positional arguments: it accepts
    exactly one, so the call raises whatever the two values are. *)
Definition any_2 (a b : bool) : result bool :=
  Raise (TypeError (u "any() takes exactly one argument (2 given)")).

Definition classify_article_priority (article_data : ArticleData) : result Z :=
  let text_to_analyze :=
    match get_text (translated_text article_data) with
    | [] => get_text (raw_text article_data)
    | t => t
    end in
  let text_lower := lower text_to_analyze in
  let critical_count :=
    count_if (fun keyword => contains text_lower keyword) critical_keywords in
  let high_count :=
    count_if (fun keyword => contains text_lower keyword) high_priority_keywords in
  let person_entities := filter (in_group (u "PERSON")) (entities article_data) in
  let org_entities := filter (in_group (u "ORGANIZATION")) (entities article_data) in
  let rest (phrase : bool) : result Z :=
    if phrase then Ok 1%Z
    else if (1 <=? critical_count)%Z || (3 <=? high_count)%Z then Ok 2%Z
    else if (1 <=? high_count)%Z
            || (3 <=? Z.of_nat (length person_entities))%Z
            || (2 <=? Z.of_nat (length org_entities))%Z
    then Ok 3%Z
    else Ok 4%Z in
  if (2 <=? critical_count)%Z then Ok 1%Z
  else
    match any_2 (contains text_lower (u "boko haram"))
                (contains text_lower (u "terrorist")) with
    | Ok phrase => rest phrase
    | Raise e => Raise e
    end.

End Utils.

(* ===================================================================== *)
(** ** nlp-models/ner_service.py *)
(* ===================================================================== *)

Module Ner.

(** An entity dictionary as [analyze_entities] builds it. *)
Record Entity : Type := mkEntity {
  word : str;
  entity_group : str;
  confidence : float;
  start : Z;
  end_ : Z
}.

(** The test under the comment "Check if entities are adjacent and of same
    type". *)
Definition adjacent (current_entity next_entity : Entity) : bool :=
  str_eqb (entity_group current_entity) (entity_group next_entity)
  && (start next_entity - 2 <=? end_ current_entity)%Z.

(** The three assignments of the merging branch. *)
Definition absorb (current_entity next_entity : Entity) : Entity :=
  {| word := word current_entity ++ u " " ++ word next_entity;
     entity_group := entity_group current_entity;
     confidence :=
       float_div (float_add (confidence current_entity) (confidence next_entity))
         (float_of_int 2);
     start := start current_entity;
     end_ := end_ next_entity |}.

(** One iteration of the loop over [entities[1:]]; the state is the pair
    of [merged] and [current_entity]. *)
Definition merge_iter (st : list Entity * Entity) (next_entity : Entity)
  : list Entity * Entity :=
  let (merged, current_entity) := st in
  if adjacent current_entity next_entity
  then (merged, absorb current_entity next_entity)
  else (merged ++ [current_entity], next_entity).

Definition merge_adjacent_entities (entities : list Entity) : list Entity :=
  match entities with
  | [] => entities
  | first :: others =>
      let (merged, current_entity) := fold_left merge_iter others ([], first) in
      merged ++ [current_entity]
  end.

(** [list.sort(key=lambda x: x['start'])]: the sort is stable, an entity
    is placed before the first one whose start is not smaller. *)
Fixpoint insert_by_start (x : Entity) (l : list Entity) : list Entity :=
  match l with
  | [] => [x]
  | y :: l' =>
      if (start x <=? start y)%Z then x :: l else y :: insert_by_start x l'
  end.

Definition sort_by_start (l : list Entity) : list Entity :=
  fold_right insert_by_start [] l.

(** The post-processing of [analyze_entities]: merge, then sort by
    position in the text. *)
Definition final_entities (processed_entities : list Entity) : list Entity :=
  sort_by_start (merge_adjacent_entities processed_entities).

(** The merger as the specification words it: an accumulator that either
    absorbs the next entity or is flushed to the output. *)
Fixpoint merge_spec (accumulator : Entity) (rest : list Entity) : list Entity :=
  match rest with
  | [] => [accumulator]
  | next :: rest' =>
      if adjacent accumulator next
      then merge_spec (absorb accumulator next) rest'
      else accumulator :: merge_spec next rest'
  end.

End Ner.

(* ===================================================================== *)
(** ** dashboard/models.py *)
(* ===================================================================== *)

Module Models.

(** The choices of [processing_status]. *)
Inductive ProcessingStatus : Type :=
| pending | translating | extracting_entities | processed | failed.

(** A GIS point: [x] is the longitude, [y] the latitude. *)
Record Point : Type := mkPoint { x : Q; y : Q }.

(** The fields of [NewsArticle] the pipeline reads or writes. *)
Record NewsArticle : Type := mkNewsArticle {
  raw_text : str;
  processed_json : dict;
  location : option Point;
  language : str;
  processing_status : ProcessingStatus;
  entity_count : json;
  content_length : option Z;
  word_count : option Z
}.

Inductive Operation : Type := translation | ner_extraction | geocoding.
Inductive LogStatus : Type := log_started | log_completed | log_failed.

(** The messages the pipeline writes, by template and argument. *)
Inductive Message : Type :=
| DetectedLanguage (lang : str)
| TranslationSuccessful
| TranslationUnavailable
| StartingExtraction
| Extracted (count : json)
| NerUnavailable
| GeocodedLocation (name : json).

Record ProcessingLog : Type := mkLog {
  operation : Operation;
  status : LogStatus;
  message : Message;
  processing_time : option json
}.

(** Requests sent to the two inference services. *)
Inductive Call : Type :=
| TranslateCall (text source_lang : str)
| NerCall (text : json).

(** What the code acts on: the article object in memory, its row in the
    database, the log table, the requests sent so far and the number of
    database operations issued so far. *)
Record World : Type := mkWorld {
  article : NewsArticle;
  db_row : NewsArticle;
  logs : list ProcessingLog;
  calls : list Call;
  db_ops : nat
}.

(** Statements that read or write the world and may raise. *)
Definition M (A : Type) : Type := World -> result A * World.

Definition ret {A} (a : A) : M A := fun w => (Ok a, w).

Definition bind {A B} (c : M A) (k : A -> M B) : M B :=
  fun w =>
    match c w with
    | (Ok a, w') => k a w'
    | (Raise e, w') => (Raise e, w')
    end.

Definition lift {A} (r : result A) : M A := fun w => (r, w).

(** [try: body  except Exception as e: handler(e)] *)
Definition try_except {A} (body : M A) (handler : exn -> M A) : M A :=
  fun w =>
    match body w with
    | (Ok a, w') => (Ok a, w')
    | (Raise e, w') => handler e w'
    end.

Definition get_article : M NewsArticle := fun w => (Ok (article w), w).

Definition update_article (f : NewsArticle -> NewsArticle) : M unit :=
  fun w => (Ok tt, mkWorld (f (article w)) (db_row w) (logs w) (calls w) (db_ops w)).

(** One database operation: the storage layer decides whether it raises. *)
Definition db_operation (db_fault : nat -> option str)
    (write : World -> World) : M unit :=
  fun w =>
    let w' := mkWorld (article w) (db_row w) (logs w) (calls w) (S (db_ops w)) in
    match db_fault (db_ops w) with
    | Some msg => (Raise (DatabaseError msg), w')
    | None => (Ok tt, write w')
    end.

(** The override of [save]: the content metrics are computed on the
    object before the row is written. *)
Definition with_metrics (a : NewsArticle) : NewsArticle :=
  match raw_text a with
  | [] => a
  | _ =>
      mkNewsArticle (raw_text a) (processed_json a) (location a) (language a)
        (processing_status a) (entity_count a)
        (Some (Z.of_nat (length (raw_text a))))
        (Some (Z.of_nat (length (split (raw_text a)))))
  end.

(** [self.save()].  The row is what the object hands to the storage
    layer.  The conversions that layer applies to typed columns (an
    [IntegerField] such as [entity_count] goes through [int()]) are not
    modelled; statements about the row speak of [processed_json],
    [processing_status], [language] and [location], which are stored as
    they are. *)
Definition save (db_fault : nat -> option str) : M unit :=
  bind (update_article with_metrics)
       (fun _ => db_operation db_fault
          (fun w => mkWorld (article w) (article w) (logs w) (calls w) (db_ops w))).

(** [self.save(update_fields=[...])]: of the fields modelled here, the
    row takes [processing_status] and [processed_json] from the object when
    they are listed, and nothing else. *)
Definition save_update_fields (db_fault : nat -> option str)
    (with_status with_json : bool) : M unit :=
  bind (update_article with_metrics)
       (fun _ => db_operation db_fault
          (fun w =>
             let r := db_row w in
             let a := article w in
             mkWorld a
               (mkNewsArticle (raw_text r)
                  (if with_json then processed_json a else processed_json r)
                  (location r) (language r)
                  (if with_status then processing_status a else processing_status r)
                  (entity_count r) (content_length r) (word_count r))
               (logs w) (calls w) (db_ops w))).

(** [ProcessingLog.objects.create(...)] *)
Definition create_log (db_fault : nat -> option str) (entry : ProcessingLog)
  : M unit :=
  db_operation db_fault
    (fun w => mkWorld (article w) (db_row w) (logs w ++ [entry]) (calls w) (db_ops w)).

Definition set_processing_status (s : ProcessingStatus) (a : NewsArticle) :=
  mkNewsArticle (raw_text a) (processed_json a) (location a) (language a)
    s (entity_count a) (content_length a) (word_count a).

Definition set_processed_json (d : dict) (a : NewsArticle) :=
  mkNewsArticle (raw_text a) d (location a) (language a)
    (processing_status a) (entity_count a) (content_length a) (word_count a).

Definition set_language (l : str) (a : NewsArticle) :=
  mkNewsArticle (raw_text a) (processed_json a) (location a) l
    (processing_status a) (entity_count a) (content_length a) (word_count a).

Definition set_entity_count (n : json) (a : NewsArticle) :=
  mkNewsArticle (raw_text a) (processed_json a) (location a) (language a)
    (processing_status a) n (content_length a) (word_count a).

(** [set_coordinates]: the point takes the longitude first. *)
Definition set_coordinates (latitude longitude : Q) (a : NewsArticle) :=
  mkNewsArticle (raw_text a) (processed_json a)
    (Some (mkPoint longitude latitude)) (language a)
    (processing_status a) (entity_count a) (content_length a) (word_count a).

(** The assignments of [mark_processing_failed], before its [save].
    [error_message] is [None] when the argument is left out. *)
Definition mark_failed_fields (error_message : option str) (a : NewsArticle)
  : NewsArticle :=
  let a := set_processing_status failed a in
  let message_given :=
    match error_message with
    | Some (_ :: _) => true
    | _ => false
    end in
  if message_given && truthy (JObj (processed_json a))
  then
    match error_message with
    | Some msg => set_processed_json (dict_set (u "error") (JStr msg) (processed_json a)) a
    | None => a
    end
  else a.

Definition mark_processing_failed (db_fault : nat -> option str)
    (error_message : option str) : M unit :=
  bind (update_article (mark_failed_fields error_message))
       (fun _ => save_update_fields db_fault true true).

(** [add_processing_result], the sibling that stores a stage result. *)
Definition add_processing_result (db_fault : nat -> option str)
    (result_type : str) (data : json) : M unit :=
  bind (update_article (fun a =>
          let d := if truthy (JObj (processed_json a)) then processed_json a else [] in
          set_processed_json (dict_set result_type data d) a))
       (fun _ => save_update_fields db_fault false true).

End Models.

(* ===================================================================== *)
(** ** dashboard/views.py *)
(* ===================================================================== *)

Module Views.
Import Models.

Notation "x <- c ;; k" := (bind c (fun x => k))
  (at level 61, c at next level, right associativity).
Notation "c ;;; k" := (bind c (fun _ => k))
  (at level 61, right associativity).

(** How one HTTP exchange with an inference service ends: a response with
    a status and a JSON body, or no usable response (timeout, connection
    error, undecodable body). *)
Inductive Outcome : Type :=
| Responded (status : Z) (body : json)
| NoResponse.

(** The collaborators of the orchestrator. *)
Record Services : Type := mkServices {
  translation_service : str -> str -> Outcome;
  ner_service : json -> Outcome;
  db_fault : nat -> option str
}.

(** What both [call_..._service] methods return for an outcome:
    the body on status 200, [None] otherwise. *)
Definition service_result (o : Outcome) : json :=
  match o with
  | Responded status body => if (status =? 200)%Z then body else JNull
  | NoResponse => JNull
  end.

Definition record_call (c : Call) : M unit :=
  fun w => (Ok tt, mkWorld (article w) (db_row w) (logs w) (calls w ++ [c]) (db_ops w)).

Definition call_translation_service (sv : Services) (text source_lang : str)
  : M json :=
  record_call (TranslateCall text source_lang) ;;;
  ret (service_result (translation_service sv text source_lang)).

Definition call_ner_service (sv : Services) (text : json) : M json :=
  record_call (NerCall text) ;;;
  ret (service_result (ner_service sv text)).

Definition french_indicators : list str :=
  map u ["le"; "la"; "les"; "de"; "du"; "des"; "et"; "dans"; "pour"; "avec"]%string.

Definition english_indicators : list str :=
  map u ["the"; "and"; "to"; "of"; "in"; "for"; "with"; "on"; "is"; "are"]%string.

Definition detect_article_language (text : str) : str :=
  let text_lower := lower text in
  let french_count := count_if (fun word => contains text_lower word) french_indicators in
  let english_count := count_if (fun word => contains text_lower word) english_indicators in
  if (english_count <? french_count)%Z then u "fr"
  else if (french_count <? english_count)%Z then u "en"
  else u "auto".

Definition cameroon_locations : list (str * Utils.Coordinates) :=
  [ (u "yaound" ++ [233%N], Utils.at_ 3.8480 11.5021);
    (u "yaounde", Utils.at_ 3.8480 11.5021);
    (u "douala", Utils.at_ 4.0511 9.7679);
    (u "bamenda", Utils.at_ 5.9631 10.1591);
    (u "bafoussam", Utils.at_ 5.4781 10.4167);
    (u "garoua", Utils.at_ 9.3265 13.3971);
    (u "maroua", Utils.at_ 10.5969 14.3197);
    (u "ngaound" ++ [233%N] ++ u "r" ++ [233%N], Utils.at_ 7.3167 13.5833);
    (u "bertoua", Utils.at_ 4.5777 13.6836);
    (u "buea", Utils.at_ 4.1559 9.2928);
    (u "cameroon", Utils.at_ 3.8480 11.5021) ].

(** The method [geocode_location] of the view, on a string. *)
Definition geocode_location (location_name : str) : option Utils.Coordinates :=
  let location_lower := strip (lower location_name) in
  dict_get location_lower cameroon_locations.

(** The same method on whatever value the entity carries as its word:
    only a string has [lower]. *)
Definition geocode_value (location_name : json) : result (option Utils.Coordinates) :=
  match location_name with
  | JStr s => Ok (geocode_location s)
  | _ => Raise (AttributeError (type_name location_name) (u "lower"))
  end.

(** [[entity for entity in items if entity.get('entity_group') == 'LOCATION']]
    over the elements of a list. *)
Fixpoint select_locations (items : list json) : result (list json) :=
  match items with
  | [] => Ok []
  | entity :: items' =>
      match py_get entity (u "entity_group") JNull with
      | Raise e => Raise e
      | Ok g =>
          match select_locations items' with
          | Raise e => Raise e
          | Ok rest =>
              Ok (match g with
                  | JStr s => if str_eqb s (u "LOCATION") then entity :: rest else rest
                  | _ => rest
                  end)
          end
      end
  end.

(** The comprehension over any value: a list yields its elements, a
    dictionary its keys and a string its characters (strings, which have no
    [get]); nothing else can be iterated. *)
Definition location_entities_of (entities : json) : result (list json) :=
  match entities with
  | JArr items => select_locations items
  | JObj [] => Ok []
  | JObj (_ :: _) => Raise (AttributeError (u "str") (u "get"))
  | JStr [] => Ok []
  | JStr (_ :: _) => Raise (AttributeError (u "str") (u "get"))
  | _ => Raise (TypeError (u "'" ++ type_name entities ++ u "' object is not iterable"))
  end.

(** [entity['word']] on an element the comprehension kept. *)
Definition word_of (entity : json) : result json :=
  match entity with
  | JObj d =>
      match dict_get (u "word") d with
      | Some w => Ok w
      | None => Raise (KeyError (u "word"))
      end
  | _ => Raise (TypeError (u "'" ++ type_name entity ++ u "' object is not subscriptable"))
  end.

(** Step 2 of the pipeline; yields [results] and [text_for_ner]. *)
Definition translation_stage (sv : Services) (raw : str) (detected_lang : str)
  : M (dict * json) :=
  let results : dict := [] in
  let text_for_ner := JStr raw in
  if negb (str_eqb detected_lang (u "en"))
  then
    translation_result <- call_translation_service sv raw detected_lang ;;
    if truthy translation_result
    then
      let results := dict_set (u "translation") translation_result results in
      text_for_ner <- lift (py_get translation_result (u "translated_text") (JStr raw)) ;;
      time <- lift (py_get translation_result (u "processing_time") (JInt 0)) ;;
      create_log (db_fault sv)
        (mkLog translation log_completed TranslationSuccessful (Some time)) ;;;
      ret (results, text_for_ner)
    else
      create_log (db_fault sv)
        (mkLog translation log_failed TranslationUnavailable None) ;;;
      ret (results, text_for_ner)
  else
    ret (dict_set (u "translation")
           (JObj [ (u "translated_text", text_for_ner);
                   (u "detected_language", JStr (u "en"));
                   (u "processing_time", JFloat 0) ]) results,
         text_for_ner).

(** Step 4, inside the branch of a successful extraction. *)
Definition geocoding_stage (sv : Services) (ner_result : json) : M unit :=
  entities <- lift (py_get ner_result (u "entities") (JArr [])) ;;
  location_entities <- lift (location_entities_of entities) ;;
  a <- get_article ;;
  match location_entities, location a with
  | first :: _, None =>
      first_location <- lift (word_of first) ;;
      coordinates <- lift (geocode_value first_location) ;;
      match coordinates with
      | Some c =>
          update_article
            (set_coordinates (Utils.latitude c) (Utils.longitude c)) ;;;
          create_log (db_fault sv)
            (mkLog geocoding log_completed (GeocodedLocation first_location) None)
      | None => ret tt
      end
  | _, _ => ret tt
  end.

(** Step 3; yields the final [results]. *)
Definition extraction_stage (sv : Services) (results : dict) (text_for_ner : json)
  : M dict :=
  update_article (set_processing_status extracting_entities) ;;;
  save (db_fault sv) ;;;
  create_log (db_fault sv)
    (mkLog ner_extraction log_started StartingExtraction None) ;;;
  ner_result <- call_ner_service sv text_for_ner ;;
  if truthy ner_result
  then
    let results := dict_set (u "entities") ner_result results in
    count <- lift (py_get ner_result (u "entity_count") (JInt 0)) ;;
    update_article (set_entity_count count) ;;;
    time <- lift (py_get ner_result (u "processing_time") (JInt 0)) ;;
    create_log (db_fault sv)
      (mkLog ner_extraction log_completed (Extracted count) (Some time)) ;;;
    geocoding_stage sv ner_result ;;;
    ret results
  else
    create_log (db_fault sv)
      (mkLog ner_extraction log_failed NerUnavailable None) ;;;
    ret results.

(** The [try] block from the first change of stage on. *)
Definition pipeline_after_detection (sv : Services) (raw detected_lang : str)
  : M dict :=
  update_article (set_processing_status translating) ;;;
  save (db_fault sv) ;;;
  create_log (db_fault sv)
    (mkLog translation log_started (DetectedLanguage detected_lang) None) ;;;
  staged <- translation_stage sv raw detected_lang ;;
  results <- extraction_stage sv (fst staged) (snd staged) ;;
  update_article (set_processed_json results) ;;;
  update_article (set_processing_status processed) ;;;
  save (db_fault sv) ;;;
  ret results.

(** The body of the [try] block. *)
Definition pipeline_body (sv : Services) : M dict :=
  a <- get_article ;;
  let detected_lang := detect_article_language (raw_text a) in
  update_article (set_language detected_lang) ;;;
  pipeline_after_detection sv (raw_text a) detected_lang.

Definition process_article_pipeline (sv : Services) : M dict :=
  try_except (pipeline_body sv)
    (fun e =>
       mark_processing_failed (db_fault sv) (Some (str_of_exn e)) ;;;
       ret [(u "error", JStr (str_of_exn e))]).

(** The world in which the pipeline starts on an article. *)
Definition initial_world (a : NewsArticle) : World := mkWorld a a [] [] 0.

Definition run (sv : Services) (a : NewsArticle) : result dict * World :=
  process_article_pipeline sv (initial_world a).

End Views.

(* ===================================================================== *)
(** ** Notions used in the statements *)
(* ===================================================================== *)

Module Spec.

(** All indicator words of a table of categories. *)
Definition words_of (table : list (str * list str)) : list str :=
  flat_map snd table.

(** A text built purely from the words [ws]: each of its white-space
    separated words is, up to case, one of them. *)
Definition built_from (ws : list str) (text : str) : Prop :=
  Forall (fun w => In (lower w) ws) (split text).

(** The number of categories of a table that list the word [w]. *)
Definition hits (table : list (str * list str)) (w : str) : Z :=
  count_if (fun entry => mem w (snd entry)) table.

Fixpoint sumZ (l : list Z) : Z :=
  match l with
  | [] => 0
  | z :: l' => z + sumZ l'
  end.

(** Concrete texts and names used as examples. *)
Definition short_text : str := u "le chat".
Definition english_text : str := u "The and for with YOU".
Definition french_text : str := u "le la les des UNE".
Definition Douala_City : str := u "Douala City".


(** The text the classifier analyses and its count of critical keywords. *)
Definition text_of (article_data : Utils.ArticleData) : str :=
  match Utils.get_text (Utils.translated_text article_data) with
  | [] => Utils.get_text (Utils.raw_text article_data)
  | t => t
  end.

Definition critical_count_of (article_data : Utils.ArticleData) : Z :=
  count_if (fun keyword => contains (lower (text_of article_data)) keyword)
    Utils.critical_keywords.

Definition person : dict := [(u "entity_group", JStr (u "PERSON"))].

(** An article whose text is "protest", with four PERSON entities. *)
Definition protest_article : Utils.ArticleData :=
  Utils.mkArticleData None (Some (u "protest")) [person; person; person; person].

(** Order of two entities by position in the text. *)
Definition by_start (a b : Ner.Entity) : Prop := (Ner.start a <= Ner.start b)%Z.

(** No entity of the list can be merged into the one before it. *)
Fixpoint settled (l : list Ner.Entity) : Prop :=
  match l with
  | a :: (b :: _) as l' => Ner.adjacent a b = false /\ settled l'
  | _ => True
  end.

Definition Paul : Ner.Entity := Ner.mkEntity (u "Paul") (u "PERSON") (float_literal 0.9) 0 4.
Definition Biya : Ner.Entity := Ner.mkEntity (u "Biya") (u "PERSON") (float_literal 0.8) 5 9.
(** "Paul Biya" as the merger returns it, and as the specification
    writes it. *)
Definition Paul_Biya : Ner.Entity :=
  Ner.mkEntity (u "Paul Biya") (u "PERSON") (float_literal 0.8500000000000001) 0 9.
Definition Paul_Biya_expected : Ner.Entity :=
  Ner.mkEntity (u "Paul Biya") (u "PERSON") (float_literal 0.85) 0 9.
Definition Douala : Ner.Entity :=
  Ner.mkEntity (u "Douala") (u "LOCATION") (float_literal 0.7) 20 26.

(** Extractor output that is not ordered by position: the second PERSON
    span comes after a LOCATION span that lies behind it in the text. *)
Definition Paul_10 : Ner.Entity := Ner.mkEntity (u "Paul") (u "PERSON") (float_literal 0.9) 10 14.
Definition Biya_15 : Ner.Entity := Ner.mkEntity (u "Biya") (u "PERSON") (float_literal 0.8) 15 19.
Definition out_of_order : list Ner.Entity := [Paul_10; Douala; Biya_15].

(** *** Notions about runs of the pipeline *)

(** The storage layer raises on no operation. *)
Definition no_fault (sv : Views.Services) : Prop :=
  forall n, Views.db_fault sv n = None.

(** [w'] is a later world of the same run as [w]: the language of the
    article object is the same, the language of the row is the same or the
    one of the object, and no log entry or request has been dropped. *)
Definition extends (w w' : Models.World) : Prop :=
  Models.language (Models.article w') = Models.language (Models.article w)
  /\ (Models.language (Models.db_row w') = Models.language (Models.db_row w)
      \/ Models.language (Models.db_row w') = Models.language (Models.article w))
  /\ (forall e, In e (Models.logs w) -> In e (Models.logs w'))
  /\ (forall c, In c (Models.calls w) -> In c (Models.calls w')).

(** A statement only moves the world forward, however it ends. *)
Definition advances {A} (c : Models.M A) : Prop :=
  forall w, extends w (snd (c w)).

(** The world once the detected language is assigned to the article. *)
Definition with_language (l : str) (w : Models.World) : Models.World :=
  Models.mkWorld (Models.set_language l (Models.article w)) (Models.db_row w)
    (Models.logs w) (Models.calls w) (Models.db_ops w).

(** The world once the object is written to its row. *)
Definition saved (w : Models.World) : Models.World :=
  Models.mkWorld (Models.with_metrics (Models.article w))
    (Models.with_metrics (Models.article w))
    (Models.logs w) (Models.calls w) (S (Models.db_ops w)).

Definition logged (entry : Models.ProcessingLog) (w : Models.World) : Models.World :=
  Models.mkWorld (Models.article w) (Models.db_row w)
    (Models.logs w ++ [entry]) (Models.calls w) (S (Models.db_ops w)).

Definition called (c : Models.Call) (w : Models.World) : Models.World :=
  Models.mkWorld (Models.article w) (Models.db_row w)
    (Models.logs w) (Models.calls w ++ [c]) (Models.db_ops w).

Definition updated (f : Models.NewsArticle -> Models.NewsArticle)
    (w : Models.World) : Models.World :=
  Models.mkWorld (f (Models.article w)) (Models.db_row w)
    (Models.logs w) (Models.calls w) (Models.db_ops w).

(** An entity of an extraction response that the orchestrator can read:
    an object whose word, when its category is LOCATION, is a string. *)
Definition entity_readable (e : json) : bool :=
  match e with
  | JObj d =>
      match dict_get (u "entity_group") d with
      | Some (JStr g) =>
          if str_eqb g (u "LOCATION")
          then match dict_get (u "word") d with
               | Some (JStr _) => true
               | _ => false
               end
          else true
      | _ => true
      end
  | _ => false
  end.

(** What [call_ner_service] may return under the contract of the
    extraction service: [None], or an object whose [entities], when
    present, is a list of readable entities. *)
Definition ner_contract (ner_result : json) : bool :=
  match ner_result with
  | JNull => true
  | JObj d =>
      match dict_get (u "entities") d with
      | None => true
      | Some (JArr items) => forallb entity_readable items
      | Some _ => false
      end
  | _ => false
  end.

(** A translation call that fails: no response, or a status other
    than 200. *)
Definition translation_fails (o : Views.Outcome) : Prop :=
  match o with
  | Views.NoResponse => True
  | Views.Responded status _ => status <> 200%Z
  end.

(** A new article: nothing processed, nothing located. *)
Definition new_article (raw : str) : Models.NewsArticle :=
  Models.mkNewsArticle raw [] None (u "unknown") Models.pending (JInt 0) None None.

(** Services that never answer, on a storage layer that never raises. *)
Definition services_down : Views.Services :=
  Views.mkServices (fun _ _ => Views.NoResponse) (fun _ => Views.NoResponse)
    (fun _ => None).

(** The extraction service answers [{"entities": null}]; the translation
    service is down. *)
Definition services_null_entities : Views.Services :=
  Views.mkServices (fun _ _ => Views.NoResponse)
    (fun _ => Views.Responded 200 (JObj [(u "entities", JNull)]))
    (fun _ => None).




End Spec.

(* ===================================================================== *)
(** ** The rest of nlp-models/ner_service.py *)
(* ===================================================================== *)

Module Http.

(** What an endpoint or a service function gives: a value, or an
    [HTTPException] with its status code and detail. *)
Inductive response (A : Type) : Type :=
| Return (a : A)
| HTTPException (status_code : Z) (detail : str).
Arguments Return {A} a.
Arguments HTTPException {A} status_code detail.

End Http.

Module NerService.
Import Http Ner.

Definition ENTITY_MAPPING : list (str * str) :=
  [ (u "PER", u "PERSON"); (u "LOC", u "LOCATION");
    (u "ORG", u "ORGANIZATION"); (u "MISC", u "MISCELLANEOUS") ].

(** [re.sub(r'\s+', ' ', s)]: each maximal run of white space becomes one
    space.  [in_run] tells that the run has been replaced already. *)
Fixpoint sub_spaces (in_run : bool) (s : str) : str :=
  match s with
  | [] => []
  | c :: s' =>
      if isspace c
      then if in_run then sub_spaces true s' else 32%N :: sub_spaces true s'
      else c :: sub_spaces false s'
  end.

(** [s.replace('##', '')]: occurrences are taken from the left and do not
    overlap. *)
Fixpoint remove_hashes (s : str) : str :=
  match s with
  | [] => []
  | a :: s' =>
      match s' with
      | b :: s'' =>
          if (a =? 35)%N && (b =? 35)%N then remove_hashes s''
          else a :: remove_hashes s'
      | [] => [a]
      end
  end.

Definition clean_entity_text (text : str) : str :=
  match text with
  | [] => []
  | _ =>
      let cleaned := sub_spaces false (strip text) in
      let cleaned := remove_hashes cleaned in
      strip cleaned
  end.

(** An entity as the model pipeline returns it. *)
Record RawEntity : Type := mkRawEntity {
  raw_word : str;
  raw_entity_group : str;
  score : float;
  raw_start : Z;
  raw_end : Z
}.

(** The body of the loop over [raw_entities]: the entity to append, if
    any.  [round4] stands for [round(_, 4)]. *)
Definition processed_entity (round4 : float -> float) (entity : RawEntity)
  : option Entity :=
  let entity_group :=
    match dict_get (raw_entity_group entity) ENTITY_MAPPING with
    | Some g => g
    | None => raw_entity_group entity
    end in
  let clean_word := clean_entity_text (raw_word entity) in
  match clean_word with
  | [] => None
  | _ => Some (mkEntity clean_word entity_group (round4 (score entity))
                 (raw_start entity) (raw_end entity))
  end.

Definition processed_entities (round4 : float -> float) (raw_entities : list RawEntity)
  : list Entity :=
  flat_map (fun entity =>
              match processed_entity round4 entity with
              | Some e => [e]
              | None => []
              end) raw_entities.

(** The dictionary [analyze_entities] returns, without the measured
    [processing_time]. *)
Record Analysis : Type := mkAnalysis {
  entities : list Entity;
  entity_count : Z;
  text_length : Z
}.

(** [analyze_entities]; the model pipeline is absent until it is loaded,
    and a call of it returns raw entities or raises. *)
Definition analyze_entities (round4 : float -> float)
    (ner_pipeline : option (str -> result (list RawEntity))) (text : str)
  : response Analysis :=
  match ner_pipeline with
  | None => HTTPException 503 (u "NER model not loaded")
  | Some pipeline =>
      match pipeline text with
      | Raise e => HTTPException 500 (u "NER analysis failed: " ++ str_of_exn e)
      | Ok raw_entities =>
          let final := final_entities (processed_entities round4 raw_entities) in
          Return (mkAnalysis final (Z.of_nat (length final)) (Z.of_nat (length text)))
      end
  end.

Definition filter_high_confidence_entities (entities : list Entity)
    (min_confidence : float) : list Entity :=
  filter (fun entity => float_le min_confidence (confidence entity)) entities.

(** One iteration of the loop of [group_entities_by_type]. *)
Definition group_iter (grouped : list (str * list Entity)) (entity : Entity)
  : list (str * list Entity) :=
  let entity_type := entity_group entity in
  let grouped :=
    match dict_get entity_type grouped with
    | None => dict_set entity_type [] grouped
    | Some _ => grouped
    end in
  let members :=
    match dict_get entity_type grouped with
    | Some l => l
    | None => []
    end in
  dict_set entity_type (members ++ [entity]) grouped.

Definition group_entities_by_type (entities : list Entity)
  : list (str * list Entity) :=
  fold_left group_iter entities [].

(** POST /analyze-entities *)
Definition analyze_entities_endpoint (round4 : float -> float)
    (ner_pipeline : option (str -> result (list RawEntity))) (text : str)
  : response Analysis :=
  match strip text with
  | [] => HTTPException 400 (u "Text cannot be empty")
  | _ =>
      if (5000 <? Z.of_nat (length text))%Z
      then HTTPException 400 (u "Text too long (max 5000 characters)")
      else analyze_entities round4 ner_pipeline text
  end.

Record GroupedAnalysis : Type := mkGroupedAnalysis {
  grouped_entities : list (str * list Entity);
  entity_statistics : list (str * Z);
  total_entities : Z
}.

(** POST /analyze-entities/grouped *)
Definition analyze_entities_grouped (round4 : float -> float)
    (ner_pipeline : option (str -> result (list RawEntity))) (text : str)
  : response GroupedAnalysis :=
  match analyze_entities round4 ner_pipeline text with
  | HTTPException code detail => HTTPException code detail
  | Return result =>
      let grouped := group_entities_by_type (entities result) in
      Return (mkGroupedAnalysis grouped
                (map (fun item => (fst item, Z.of_nat (length (snd item)))) grouped)
                (entity_count result))
  end.

Record HighConfidenceAnalysis : Type := mkHighConfidenceAnalysis {
  high_entities : list Entity;
  high_entity_count : Z;
  total_entities_found : Z;
  confidence_threshold : float
}.

(** POST /analyze-entities/high-confidence *)
Definition analyze_entities_high_confidence (round4 : float -> float)
    (ner_pipeline : option (str -> result (list RawEntity))) (text : str)
    (min_confidence : float) : response HighConfidenceAnalysis :=
  match analyze_entities round4 ner_pipeline text with
  | HTTPException code detail => HTTPException code detail
  | Return result =>
      let high := filter_high_confidence_entities (entities result) min_confidence in
      Return (mkHighConfidenceAnalysis high (Z.of_nat (length high))
                (entity_count result) min_confidence)
  end.

End NerService.

(* ===================================================================== *)
(** ** nlp-models/translation_service.py *)
(* ===================================================================== *)

Module Translation.
Import Http.

(** The eighth word is written in the source with the two code points
    U+00C3 and U+00A0. *)
Definition french_words : list str :=
  map u ["le"; "la"; "les"; "de"; "du"; "des"; "et"]%string
  ++ [[195; 160]%N]
  ++ map u ["dans"; "pour"; "avec"; "sur"; "est"; "sont"; "une"; "un"]%string.

Definition english_words : list str :=
  map u ["the"; "and"; "to"; "of"; "in"; "for"; "with"; "on"; "is"; "are";
         "a"; "an"; "this"; "that"]%string.

Definition detect_language (text : str) : str :=
  let text_lower := lower text in
  let french_count := count_if (fun word => contains text_lower word) french_words in
  let english_count := count_if (fun word => contains text_lower word) english_words in
  if (english_count <? french_count)%Z then u "fr"
  else if (french_count <? english_count)%Z then u "en"
  else u "auto".

(** The dictionary [translate_text] returns, without the measured
    [processing_time]. *)
Record Translated : Type := mkTranslated {
  translated_text : str;
  detected_language : str;
  confidence_score : Q
}.

(** [translate_text]; the model pipeline is absent until it is loaded, and
    a call of it, with the source language set on its tokenizer, returns
    the translation or raises. *)
Definition translate_text
    (translation_pipeline : option (str -> str -> result str))
    (text source_lang : str) : response Translated :=
  match translation_pipeline with
  | None => HTTPException 503 (u "Translation model not loaded")
  | Some pipeline =>
      let translate_from (detected_lang : option str) (source_lang : str) :=
        match pipeline source_lang text with
        | Raise e => HTTPException 500 (u "Translation failed: " ++ str_of_exn e)
        | Ok translated =>
            Return (mkTranslated translated
                      (match detected_lang with
                       | Some l => l
                       | None => source_lang
                       end) 0.85)
        end in
      if str_eqb source_lang (u "auto")
      then
        let detected_lang := detect_language text in
        if str_eqb detected_lang (u "en")
        then Return (mkTranslated text (u "en") 1.0)
        else
          translate_from (Some detected_lang)
            (if str_eqb detected_lang (u "auto") then u "fr" else detected_lang)
      else translate_from None source_lang
  end.

(** POST /translate *)
Definition translate
    (translation_pipeline : option (str -> str -> result str))
    (text source_lang : str) : response Translated :=
  match strip text with
  | [] => HTTPException 400 (u "Text cannot be empty")
  | _ => translate_text translation_pipeline text source_lang
  end.

End Translation.

(* ===================================================================== *)
(** ** The properties and other methods of NewsArticle (models.py) and
       the preview of serializers.py and views.py *)
(* ===================================================================== *)

Module Article.
Import Models.

Definition has_location (a : NewsArticle) : bool :=
  match location a with Some _ => true | None => false end.

Definition get_coordinates (a : NewsArticle) : option Utils.Coordinates :=
  match location a with
  | Some p => Some (Utils.mkCoordinates (y p) (x p))
  | None => None
  end.

(** The property [translated_text]. *)
Definition translated_text (a : NewsArticle) : result json :=
  match dict_get (u "translation") (processed_json a) with
  | Some stored => py_get stored (u "translated_text") (JStr [])
  | None => Ok (JStr [])
  end.

(** The property [entities]. *)
Definition entities (a : NewsArticle) : result json :=
  match dict_get (u "entities") (processed_json a) with
  | Some found => py_get found (u "entities") (JArr [])
  | None => Ok (JArr [])
  end.

Definition mark_processing_complete (db_fault : nat -> option str) : M unit :=
  bind (update_article (set_processing_status processed))
       (fun _ => save_update_fields db_fault true false).

(** The conditional expression that both the GeoJSON serializer and the
    events view apply to a text:
    [text[:200] + '...' if len(text) > 200 else text]. *)
Definition text_preview (text : str) : str :=
  if (200 <? Z.of_nat (length text))%Z then firstn 200 text ++ u "..." else text.

End Article.

(* ===================================================================== *)
(** ** Further notions used in the statements *)
(* ===================================================================== *)

Module Notions.

(** A string that neither starts nor ends with white space. *)
Definition no_outer_space (s : str) : Prop :=
  (forall c s', s = c :: s' -> isspace c = false)
  /\ (forall c s', s = s' ++ [c] -> isspace c = false).

(** No two neighbouring characters of the string are both '#'. *)
Fixpoint no_double_hash (s : str) : Prop :=
  match s with
  | a :: (b :: _) as s' => ~ (a = 35%N /\ b = 35%N) /\ no_double_hash s'
  | _ => True
  end.

(** [' '.join(words)] *)
Fixpoint join_words (words : list str) : str :=
  match words with
  | [] => []
  | w :: rest =>
      match rest with
      | [] => w
      | _ => w ++ u " " ++ join_words rest
      end
  end.

(** The total number of members of a grouping. *)
Fixpoint members_total {V} (grouped : list (str * list V)) : Z :=
  match grouped with
  | [] => 0
  | (_, l) :: rest => Z.of_nat (length l) + members_total rest
  end.

(** The category codes of the model, which the service replaces. *)
Definition short_codes : list str := map fst NerService.ENTITY_MAPPING.

(** An entity with a non-empty word without white space at its ends and
    with a category that is not a code of the model. *)
Definition presentable (e : Ner.Entity) : Prop :=
  Ner.word e <> [] /\ no_outer_space (Ner.word e)
  /\ ~ In (Ner.entity_group e) short_codes.

(** [P] holds of every number whose binary writing is that of [prefix]
    followed by [n] more digits. *)
Fixpoint all_with_prefix (n : nat) (prefix : N) (P : N -> bool) : bool :=
  match n with
  | O => P prefix
  | S n' => all_with_prefix n' (2 * prefix) P && all_with_prefix n' (2 * prefix + 1) P
  end.

(** The code points an entry of the table of lower-case mappings sends
    elsewhere, and those of the whole table. *)
Definition entry_domain (entry : N * N * N * N) : list N :=
  let '(first, last, step, _) := entry in
  map (fun k => first + N.of_nat k * step)%N
      (seq 0 (S (N.to_nat ((last - first) / step)))).

Definition mapped_code_points : list N := flat_map entry_domain lower_table.

(** Lower-casing leaves the code point as it is, also inside a text. *)
Definition fixed_by_lower (d : N) : bool :=
  negb (d =? 931)%N && str_eqb (lower_full d) [d].

(** A code point that is no white space. *)
Definition nonspace (c : N) : Prop := isspace c = false.



(** A statement keeps a property of the world, however it ends. *)
Definition invariant {A} (P : Models.World -> Prop) (c : Models.M A) : Prop :=
  forall w, P w -> P (snd (c w)).

(** A statement sends no request. *)
Definition silent {A} (c : Models.M A) : Prop :=
  forall w, Models.calls (snd (c w)) = Models.calls w.

(** What [call_translation_service] may return without making the
    orchestrator raise: a false value, or an object. *)
Definition translation_contract (translation_result : json) : bool :=
  negb (truthy translation_result)
  || match translation_result with JObj _ => true | _ => false end.

(** The world with its counter of database operations advanced. *)
Definition counted (w : Models.World) : Models.World :=
  Models.mkWorld (Models.article w) (Models.db_row w) (Models.logs w)
    (Models.calls w) (S (Models.db_ops w)).

Definition is_geocoding (entry : Models.ProcessingLog) : bool :=
  match Models.operation entry with
  | Models.geocoding => true
  | _ => false
  end.

(** The article is located at [p], on the object and in the row, and no
    geocoding has been logged. *)
Definition located_at (p : Models.Point) (w : Models.World) : Prop :=
  Models.location (Models.article w) = Some p
  /\ Models.location (Models.db_row w) = Some p
  /\ Forall (fun entry => is_geocoding entry = false) (Models.logs w).

(** The object holds the raw text [raw] and its content metrics. *)
Definition measured (raw : str) (w : Models.World) : Prop :=
  Models.raw_text (Models.article w) = raw
  /\ Models.content_length (Models.article w) = Some (Z.of_nat (length raw))
  /\ Models.word_count (Models.article w) = Some (Z.of_nat (length (split raw))).

(** Model pipelines used as examples. *)
Definition echo_pipeline : str -> str -> result str := fun _ text => Ok text.

Definition french_only_pipeline : str -> str -> result str :=
  fun source_lang text =>
    if str_eqb source_lang (u "fr") then Ok text
    else Raise (TypeError (u "unsupported language")).

Definition president : NerService.RawEntity :=
  NerService.mkRawEntity (u "  Paul   ##Biya ") (u "PER") (float_literal 0.9) 10 19.

Definition fixed_pipeline (raw : list NerService.RawEntity)
  : str -> result (list NerService.RawEntity) := fun _ => Ok raw.

(** An entity of an extraction response. *)
Definition found (word group : str) : json :=
  JObj [(u "word", JStr word); (u "entity_group", JStr group)].

(** The extraction service answers with the given entities; the
    translation service is down. *)
Definition services_finding (items : list json) : Views.Services :=
  Views.mkServices (fun _ _ => Views.NoResponse)
    (fun _ => Views.Responded 200 (JObj [(u "entities", JArr items)]))
    (fun _ => None).

(** Services that never answer, on a storage layer that raises at every
    operation. *)
Definition storage_down : Views.Services :=
  Views.mkServices (fun _ _ => Views.NoResponse) (fun _ => Views.NoResponse)
    (fun _ => Some (u "connection refused")).

(** An article that already has a location. *)
Definition located_article (raw : str) (p : Models.Point) : Models.NewsArticle :=
  Models.mkNewsArticle raw [] (Some p) (u "unknown") Models.pending (JInt 0)
    None None.

(** A raw entity whose word is white space only. *)
Definition blank_entity : NerService.RawEntity :=
  NerService.mkRawEntity (u "   ") (u "LOC") (float_literal 0.5) 0 3.

End Notions.

(* ===================================================================== *)
(** ** Facts about the string primitives *)
(* ===================================================================== *)

Section StringFacts.
Import Notions.

Lemma str_eqb_eq (a b : str) : str_eqb a b = true <-> a = b.
Proof.
  unfold str_eqb. destruct (list_eq_dec N.eq_dec a b); split; congruence.
Qed.

Lemma str_eqb_refl (a : str) : str_eqb a a = true.
Proof. apply str_eqb_eq. reflexivity. Qed.

Lemma mem_In (x : str) (l : list str) : mem x l = true <-> In x l.
Proof.
  unfold mem. rewrite existsb_exists. split.
  - intros [y [Hy E]]. apply str_eqb_eq in E. subst. exact Hy.
  - intros H. exists x. split; [exact H | apply str_eqb_refl].
Qed.

Lemma isspace_spec (c : N) :
  isspace c = true <->
  (9 <= c <= 13 \/ 28 <= c <= 32 \/ c = 133 \/ c = 160 \/ c = 5760
   \/ 8192 <= c <= 8202 \/ c = 8232 \/ c = 8233 \/ c = 8239 \/ c = 8287
   \/ c = 12288)%N.
Proof.
  unfold isspace.
  rewrite !orb_true_iff, !andb_true_iff, !N.leb_le, !N.eqb_eq. tauto.
Qed.

(** *** Checking a property of every code point *)

Lemma all_with_prefix_spec (P : N -> bool) (n : nat) (prefix c : N) :
  all_with_prefix n prefix P = true ->
  (prefix * 2 ^ N.of_nat n <= c < (prefix + 1) * 2 ^ N.of_nat n)%N ->
  P c = true.
Proof.
  revert prefix. induction n as [|n IH]; intros prefix H B.
  - simpl in H. change (2 ^ N.of_nat 0)%N with 1%N in B.
    replace c with prefix by lia. exact H.
  - cbn [all_with_prefix] in H. apply andb_true_iff in H. destruct H as [H0 H1].
    rewrite Nat2N.inj_succ, N.pow_succ_r' in B.
    destruct (N.lt_ge_cases c ((2 * prefix + 1) * 2 ^ N.of_nat n)) as [L|L].
    + apply (IH (2 * prefix)%N H0). lia.
    + apply (IH (2 * prefix + 1)%N H1). lia.
Qed.

Lemma in_entry_domain (c : N) (entry : N * N * N * N) :
  in_entry c entry = true -> In c (entry_domain entry).
Proof.
  destruct entry as [[[first last] step] target]. unfold in_entry, entry_domain.
  rewrite !andb_true_iff, !N.leb_le, N.eqb_eq. intros [[Hf Hl] Hm].
  apply in_map_iff. exists (N.to_nat ((c - first) / step)). split.
  - cbv beta. rewrite N2Nat.id.
    pose proof (N.Div0.div_mod (c - first) step) as D. rewrite Hm in D.
    rewrite (N.mul_comm _ step). set (q := ((c - first) / step)%N) in *. lia.
  - apply in_seq.
    assert (Q : ((c - first) / step <= (last - first) / step)%N)
      by (apply N.Div0.div_le_mono; lia).
    set (q := ((c - first) / step)%N) in *.
    set (q' := ((last - first) / step)%N) in *. lia.
Qed.

(** A code point is sent elsewhere by the table only if it is one of
    [mapped_code_points]. *)
Lemma lower_cp_cases (c : N) : lower_cp c = c \/ In c mapped_code_points.
Proof.
  unfold lower_cp. destruct (find (in_entry c) lower_table) as [entry|] eqn:E.
  - right. apply find_some in E. destruct E as [Hi Hc].
    apply in_flat_map. exists entry. split; [exact Hi|].
    now apply in_entry_domain.
  - now left.
Qed.

(** A property of every code point can be checked on those that
    lower-casing changes. *)
Lemma every_code_point (P : N -> bool) :
  forallb P (304%N :: mapped_code_points) = true ->
  (forall c, lower_full c = [c] -> P c = true) ->
  forall c, P c = true.
Proof.
  intros H A c. rewrite forallb_forall in H.
  destruct (N.eqb_spec c 304) as [->|Hn]; [apply H; now left|].
  destruct (lower_cp_cases c) as [E|E].
  - apply A. unfold lower_full.
    destruct (N.eqb_spec c 304); [contradiction|]. now rewrite E.
  - apply H. now right.
Qed.

(** *** Lower-casing and white space *)

(** White space has no case and is not skipped around a sigma. *)
Lemma space_caseless (w : N) :
  isspace w = true ->
  (w =? 931)%N = false /\ lower_full w = [w]
  /\ is_case_ignorable w = false /\ is_cased w = false.
Proof.
  intros H.
  pose (P := fun c => if isspace c
                      then negb (c =? 931)%N && str_eqb (lower_full c) [c]
                           && negb (is_case_ignorable c) && negb (is_cased c)
                      else true).
  assert (A : P w = true).
  { apply (all_with_prefix_spec P 14 0); [vm_compute; reflexivity|].
    change (2 ^ N.of_nat 14)%N with 16384%N. apply isspace_spec in H. lia. }
  unfold P in A. rewrite H in A.
  rewrite !andb_true_iff, !negb_true_iff, str_eqb_eq in A. tauto.
Qed.

(** Lower-casing a code point that is no white space gives none. *)
Lemma lower_full_nonspace (c : N) :
  isspace c = false -> Forall nonspace (lower_full c).
Proof.
  intros H.
  pose (P := fun c => isspace c
                      || forallb (fun d => negb (isspace d)) (lower_full c)).
  assert (A : P c = true).
  { apply every_code_point; [vm_compute; reflexivity|].
    intros d E. unfold P. rewrite E. cbn [forallb].
    destruct (isspace d); reflexivity. }
  unfold P in A. rewrite H in A. cbn [orb] in A.
  rewrite forallb_forall in A. apply Forall_forall. intros d Hd.
  apply negb_true_iff. now apply A.
Qed.

(** What lower-casing gives is left as it is by lower-casing. *)
Lemma lower_full_fixed (c : N) : forallb fixed_by_lower (lower_full c) = true.
Proof.
  apply (every_code_point (fun c => forallb fixed_by_lower (lower_full c)));
    [vm_compute; reflexivity|].
  intros d E. rewrite E. cbn [forallb]. unfold fixed_by_lower. rewrite E.
  destruct (N.eqb_spec d 931) as [->|_]; [vm_compute in E; discriminate E|].
  cbn [negb andb]. rewrite andb_true_r. now apply str_eqb_eq.
Qed.


Lemma skip_before_space (x y : str) (w : N) :
  isspace w = true ->
  skip_case_ignorable (x ++ w :: y)
  = match skip_case_ignorable x with
    | [] => w :: y
    | c :: l => c :: l ++ w :: y
    end.
Proof.
  intros H. destruct (space_caseless w H) as [_ [_ [Hi _]]].
  induction x as [|c x IH]; cbn [app skip_case_ignorable].
  - now rewrite Hi.
  - destruct (is_case_ignorable c); [exact IH|reflexivity].
Qed.

(** Around a sigma, white space counts as the end of the text. *)
Lemma final_sigma_before_space (x y after : str) (w : N) :
  isspace w = true -> final_sigma (x ++ w :: y) after = final_sigma x after.
Proof.
  intros H. unfold final_sigma. rewrite (skip_before_space x y w H).
  destruct (skip_case_ignorable x); [|reflexivity].
  destruct (space_caseless w H) as [_ [_ [_ Hc]]]. now rewrite Hc.
Qed.

Lemma final_sigma_after_space (before x y : str) (w : N) :
  isspace w = true -> final_sigma before (x ++ w :: y) = final_sigma before x.
Proof.
  intros H. unfold final_sigma. rewrite (skip_before_space x y w H).
  destruct (skip_case_ignorable x); [|reflexivity].
  destruct (space_caseless w H) as [_ [_ [_ Hc]]]. now rewrite Hc.
Qed.

Lemma lower_at_before_space (x y after : str) (c w : N) :
  isspace w = true -> lower_at (x ++ w :: y) c after = lower_at x c after.
Proof.
  intros H. unfold lower_at. now rewrite final_sigma_before_space.
Qed.

Lemma lower_at_after_space (before x y : str) (c w : N) :
  isspace w = true -> lower_at before c (x ++ w :: y) = lower_at before c x.
Proof.
  intros H. unfold lower_at. now rewrite final_sigma_after_space.
Qed.

Lemma lower_at_space (before after : str) (w : N) :
  isspace w = true -> lower_at before w after = [w].
Proof.
  intros H. destruct (space_caseless w H) as [Hs [Hf _]].
  unfold lower_at. now rewrite Hs.
Qed.

(** What precedes the last white space does not matter. *)
Lemma lower_from_before_space (s x y : str) (w : N) :
  isspace w = true -> lower_from (x ++ w :: y) s = lower_from x s.
Proof.
  intros H. revert x. induction s as [|c s IH]; intros x; [reflexivity|].
  cbn [lower_from]. rewrite (lower_at_before_space x y s c w H).
  f_equal. apply (IH (c :: x)).
Qed.

Lemma lower_from_app_space (before s t : str) (w : N) :
  isspace w = true ->
  lower_from before (s ++ w :: t) = lower_from before s ++ w :: lower t.
Proof.
  intros H. revert before. induction s as [|c s IH]; intros before.
  - cbn [app lower_from]. rewrite (lower_at_space before t w H).
    cbn [app]. f_equal. apply (lower_from_before_space t [] before w H).
  - cbn [app lower_from]. rewrite (lower_at_after_space before s t c w H).
    rewrite IH. now rewrite app_assoc.
Qed.

(** Lower-casing goes through white space: the text on either side is
    lower-cased on its own. *)
Lemma lower_app_space (s t : str) (w : N) :
  isspace w = true -> lower (s ++ w :: t) = lower s ++ w :: lower t.
Proof. apply lower_from_app_space. Qed.

Lemma lower_cons_space (t : str) (w : N) :
  isspace w = true -> lower (w :: t) = w :: lower t.
Proof. apply (lower_app_space [] t w). Qed.

Lemma lower_blank_before (blank t : str) :
  Forall (fun c => isspace c = true) blank -> lower (blank ++ t) = blank ++ lower t.
Proof.
  intros H. induction H as [|w blank Hw _ IH]; [reflexivity|].
  cbn [app]. rewrite (lower_cons_space _ w Hw). now rewrite IH.
Qed.

Lemma lower_blank (blank : str) :
  Forall (fun c => isspace c = true) blank -> lower blank = blank.
Proof.
  intros H. rewrite <- (app_nil_r blank) at 1.
  rewrite (lower_blank_before blank [] H). apply app_nil_r.
Qed.

Lemma lower_blank_after (s blank : str) :
  Forall (fun c => isspace c = true) blank -> lower (s ++ blank) = lower s ++ blank.
Proof.
  intros H. destruct H as [|w blank Hw H]; [now rewrite !app_nil_r|].
  rewrite (lower_app_space s blank w Hw). f_equal. f_equal.
  now apply lower_blank.
Qed.

(** White space around a text stays around its lower case. *)
Lemma lower_padded (before s after : str) :
  Forall (fun c => isspace c = true) before ->
  Forall (fun c => isspace c = true) after ->
  lower (before ++ s ++ after) = before ++ lower s ++ after.
Proof.
  intros Hb Ha. rewrite (lower_blank_before before _ Hb).
  now rewrite (lower_blank_after s after Ha).
Qed.

Lemma lower_at_nonspace (before after : str) (c : N) :
  isspace c = false ->
  lower_at before c after <> [] /\ Forall nonspace (lower_at before c after).
Proof.
  intros H. unfold lower_at. destruct (c =? 931)%N.
  - split; [discriminate|]. destruct (final_sigma before after); now repeat constructor.
  - split; [|now apply lower_full_nonspace].
    unfold lower_full. destruct (c =? 304)%N; discriminate.
Qed.

(** The lower case of a word is a word. *)
Lemma lower_from_word (before word : str) :
  Forall nonspace word ->
  Forall nonspace (lower_from before word)
  /\ (word <> [] -> lower_from before word <> []).
Proof.
  intros H. revert before. induction H as [|c word Hc _ IH]; intros before.
  - split; [constructor|contradiction].
  - cbn [lower_from]. destruct (lower_at_nonspace before word c Hc) as [Hn Hf].
    split.
    + apply Forall_app. split; [exact Hf | apply IH].
    + intros _ E. apply app_eq_nil in E. tauto.
Qed.

(** *** Words *)

Lemma split_from_word (word cur rest : str) :
  Forall nonspace word ->
  split_from cur (word ++ rest) = split_from (rev word ++ cur) rest.
Proof.
  intros H. revert cur. induction H as [|c word Hc _ IH]; intros cur; [reflexivity|].
  cbn [app split_from]. rewrite Hc, IH. cbn [rev]. now rewrite <- app_assoc.
Qed.

Lemma split_word (word : str) :
  Forall nonspace word -> word <> [] -> split word = [word].
Proof.
  intros H Hn. unfold split. rewrite <- (app_nil_r word) at 1.
  rewrite (split_from_word word [] [] H), app_nil_r. cbn [split_from].
  destruct (rev word) eqn:E.
  - apply (f_equal (@rev N)) in E. rewrite rev_involutive in E. contradiction.
  - rewrite <- E. now rewrite rev_involutive.
Qed.

Lemma split_word_space (word t : str) (w : N) :
  Forall nonspace word -> word <> [] -> isspace w = true ->
  split (word ++ w :: t) = word :: split t.
Proof.
  intros H Hn Hw. unfold split.
  rewrite (split_from_word word [] (w :: t) H), app_nil_r.
  cbn [split_from]. rewrite Hw.
  destruct (rev word) eqn:E.
  - apply (f_equal (@rev N)) in E. rewrite rev_involutive in E. contradiction.
  - rewrite <- E. now rewrite rev_involutive.
Qed.

Lemma split_cons_space (t : str) (w : N) :
  isspace w = true -> split (w :: t) = split t.
Proof. intros H. unfold split. cbn [split_from]. now rewrite H. Qed.

(** A text is empty, or starts with white space, or is a word, or is a
    word followed by white space and a text. *)
Lemma words_ind (P : str -> Prop) :
  P [] ->
  (forall w t, isspace w = true -> P t -> P (w :: t)) ->
  (forall word, Forall nonspace word -> word <> [] -> P word) ->
  (forall word w t, Forall nonspace word -> word <> [] -> isspace w = true ->
                    P t -> P (word ++ w :: t)) ->
  forall s, P s.
Proof.
  intros P0 Ps Pw Pws s.
  assert (Q : forall pre, Forall nonspace pre -> P (pre ++ s)).
  { induction s as [|c s IH]; intros pre Hp.
    - rewrite app_nil_r. destruct pre; [exact P0|]. now apply Pw.
    - destruct (isspace c) eqn:E.
      + destruct pre as [|d pre].
        * apply Ps; [exact E | apply (IH [])]. constructor.
        * apply Pws; [exact Hp | discriminate | exact E | apply (IH [])].
          constructor.
      + replace (pre ++ c :: s) with ((pre ++ [c]) ++ s)
          by now rewrite <- app_assoc.
        apply IH. apply Forall_app. split; [exact Hp|]. now repeat constructor. }
  apply (Q []). constructor.
Qed.

(** The words of the lower-cased text are the lower-cased words of the
    text. *)
Lemma split_lower (s : str) : split (lower s) = map lower (split s).
Proof.
  induction s as [| w t Hw IH | word Hf Hn | word w t Hf Hn Hw IH] using words_ind.
  - reflexivity.
  - now rewrite (lower_cons_space t w Hw), !(split_cons_space _ w Hw).
  - destruct (lower_from_word [] word Hf) as [Lf Ln].
    rewrite (split_word word Hf Hn). now apply split_word; [|apply Ln].
  - destruct (lower_from_word [] word Hf) as [Lf Ln].
    rewrite (lower_app_space word t w Hw).
    rewrite (split_word_space word t w Hf Hn Hw).
    rewrite (split_word_space (lower word) (lower t) w Lf (Ln Hn) Hw).
    cbn [map]. now rewrite IH.
Qed.

(** *** Lower-casing twice *)

Lemma lower_at_fixed (before after : str) (c : N) :
  forallb fixed_by_lower (lower_at before c after) = true.
Proof.
  unfold lower_at. destruct (c =? 931)%N; [|apply lower_full_fixed].
  destruct (final_sigma before after); vm_compute; reflexivity.
Qed.

Lemma lower_from_fixed (before s : str) :
  forallb fixed_by_lower (lower_from before s) = true.
Proof.
  revert before. induction s as [|c s IH]; intros before; [reflexivity|].
  cbn [lower_from]. rewrite forallb_app, lower_at_fixed. apply IH.
Qed.

Lemma lower_from_of_fixed (before s : str) :
  forallb fixed_by_lower s = true -> lower_from before s = s.
Proof.
  revert before. induction s as [|c s IH]; intros before H; [reflexivity|].
  cbn [forallb] in H. apply andb_true_iff in H. destruct H as [Hc Hs].
  unfold fixed_by_lower in Hc. apply andb_true_iff in Hc.
  destruct Hc as [Hn Hf]. apply negb_true_iff in Hn. apply str_eqb_eq in Hf.
  cbn [lower_from]. unfold lower_at. rewrite Hn, Hf. cbn [app].
  f_equal. now apply IH.
Qed.

Lemma lower_idempotent (s : str) : lower (lower s) = lower s.
Proof. apply lower_from_of_fixed, lower_from_fixed. Qed.

Lemma split_lstrip (s : str) : split (lstrip s) = split s.
Proof.
  induction s as [|c s IH]; simpl; [reflexivity|].
  unfold split in *. simpl. destruct (isspace c) eqn:E.
  - exact IH.
  - simpl. rewrite E. reflexivity.
Qed.

Lemma split_from_snoc_space (s cur : str) (c : N) :
  isspace c = true -> split_from cur (s ++ [c]) = split_from cur s.
Proof.
  intros Hc. revert cur. induction s as [|d s IH]; intros cur; simpl.
  - rewrite Hc. destruct cur; reflexivity.
  - destruct (isspace d).
    + destruct cur; now rewrite IH.
    + apply IH.
Qed.

Lemma split_from_rev_lstrip (l cur : str) :
  split_from cur (rev (lstrip l)) = split_from cur (rev l).
Proof.
  induction l as [|c l IH]; simpl; [reflexivity|].
  destruct (isspace c) eqn:E.
  - rewrite IH. symmetry. now apply split_from_snoc_space.
  - reflexivity.
Qed.

Lemma split_rstrip (s : str) : split (rstrip s) = split s.
Proof.
  unfold split, rstrip. rewrite split_from_rev_lstrip.
  now rewrite rev_involutive.
Qed.

Lemma split_strip (s : str) : split (strip s) = split s.
Proof. unfold strip. now rewrite split_rstrip, split_lstrip. Qed.

(** The words the detector scores are the words of the text, lower-cased. *)
Lemma words_of_text (text : str) :
  split (strip (lower text)) = map lower (split text).
Proof. now rewrite split_strip, split_lower. Qed.

End StringFacts.

(* ===================================================================== *)
(** ** The language detector of utils.py *)
(* ===================================================================== *)

Section LanguageDetector.
Import Utils Spec.

Lemma count_if_cons {A} (p : A -> bool) (a : A) (l : list A) :
  count_if p (a :: l) = ((if p a then 1 else 0) + count_if p l)%Z.
Proof.
  unfold count_if. simpl. destruct (p a); simpl length; lia.
Qed.

Lemma count_if_nonneg {A} (p : A -> bool) (l : list A) : (0 <= count_if p l)%Z.
Proof. unfold count_if. lia. Qed.

Lemma score_from (table : list (str * list str)) (words : list str) (acc : Z) :
  fold_left
    (fun score entry => (score + count_if (fun word => mem word (snd entry)) words)%Z)
    table acc
  = (acc + indicator_score table words)%Z.
Proof.
  unfold indicator_score. revert acc.
  induction table as [|entry table IH]; intros acc; simpl.
  - lia.
  - rewrite IH. rewrite (IH (count_if _ words)). lia.
Qed.

Lemma indicator_score_entry entry table words :
  indicator_score (entry :: table) words
  = (count_if (fun word => mem word (snd entry)) words
     + indicator_score table words)%Z.
Proof.
  unfold indicator_score at 1. simpl. apply score_from.
Qed.

(** The score counts, word by word, the categories that list the word. *)
Lemma indicator_score_word table w ws :
  indicator_score table (w :: ws)
  = (hits table w + indicator_score table ws)%Z.
Proof.
  induction table as [|entry table IH].
  - reflexivity.
  - rewrite !indicator_score_entry, IH. unfold hits.
    rewrite !count_if_cons. lia.
Qed.

Lemma indicator_score_no_word table : indicator_score table [] = 0%Z.
Proof.
  induction table as [|entry table IH]; [reflexivity|].
  rewrite indicator_score_entry, IH. reflexivity.
Qed.

Lemma indicator_score_sum table words :
  indicator_score table words = sumZ (map (hits table) words).
Proof.
  induction words as [|w ws IH]; simpl.
  - apply indicator_score_no_word.
  - now rewrite indicator_score_word, IH.
Qed.

Lemma indicator_score_uniform table words (k : Z) :
  Forall (fun w => hits table w = k) words ->
  indicator_score table words = (k * Z.of_nat (length words))%Z.
Proof.
  intros H. rewrite indicator_score_sum.
  induction H as [|w ws Hw _ IH]; simpl sumZ; simpl length; [lia|].
  rewrite IH, Hw. lia.
Qed.

(** Every English indicator is listed in one English category and in no
    French one, and conversely. *)
Lemma english_word_hits (w : str) :
  In w (words_of english_indicators) ->
  hits english_indicators w = 1%Z /\ hits french_indicators w = 0%Z.
Proof.
  intros H.
  assert (A : forallb (fun w => (hits english_indicators w =? 1)%Z
                                && (hits french_indicators w =? 0)%Z)
                      (words_of english_indicators) = true)
    by (vm_compute; reflexivity).
  rewrite forallb_forall in A. specialize (A w H).
  apply andb_true_iff in A. destruct A as [A B].
  split; now apply Z.eqb_eq.
Qed.

Lemma french_word_hits (w : str) :
  In w (words_of french_indicators) ->
  hits french_indicators w = 1%Z /\ hits english_indicators w = 0%Z.
Proof.
  intros H.
  assert (A : forallb (fun w => (hits french_indicators w =? 1)%Z
                                && (hits english_indicators w =? 0)%Z)
                      (words_of french_indicators) = true)
    by (vm_compute; reflexivity).
  rewrite forallb_forall in A. specialize (A w H).
  apply andb_true_iff in A. destruct A as [A B].
  split; now apply Z.eqb_eq.
Qed.

(** The comparison [french_score > english_score * 1.5] on integers. *)
Lemma french_bias (e f : Z) :
  (inject_Z e * 1.5 < inject_Z f)%Q <-> (3 * e < 2 * f)%Z.
Proof. unfold Qlt. cbn [Qnum Qden Qmult inject_Z Pos.mul]. lia. Qed.

Lemma built_from_scores (ws : list str) (table : list (str * list str))
    (k : Z) (text : str) :
  (forall w, In w ws -> hits table w = k) ->
  built_from ws text ->
  indicator_score table (split (strip (lower text)))
  = (k * Z.of_nat (length (split text)))%Z.
Proof.
  intros Hk Hb. rewrite words_of_text.
  rewrite (@indicator_score_uniform table _ k).
  - now rewrite length_map.
  - apply Forall_map. unfold built_from in Hb.
    eapply Forall_impl; [|exact Hb]. intros w Hw. now apply Hk.
Qed.

Lemma detect_language_short (text : str) :
  (length (strip text) < 10)%nat \/ (length (split text) < 5)%nat ->
  detect_language text = u "auto".
Proof.
  intros H. unfold detect_language.
  destruct (Z.ltb_spec (Z.of_nat (length (strip text))) 10) as [L|L].
  - now rewrite orb_true_r.
  - rewrite orb_false_r. destruct text; [reflexivity|].
    rewrite words_of_text, length_map.
    destruct (Z.ltb_spec (Z.of_nat (length (split (n :: text)))) 5); [reflexivity|].
    lia.
Qed.

Lemma detect_language_long (text : str) :
  (10 <= length (strip text))%nat -> (5 <= length (split text))%nat ->
  detect_language text =
    let words := split (strip (lower text)) in
    let french_score := indicator_score french_indicators words in
    let english_score := indicator_score english_indicators words in
    if Qlt_le_dec (inject_Z english_score * 1.5) (inject_Z french_score)
    then u "fr"
    else if (french_score <? english_score)%Z then u "en" else u "auto".
Proof.
  intros H10 H5. unfold detect_language.
  destruct text as [|c text]; [simpl in H5; lia|].
  destruct (Z.ltb_spec (Z.of_nat (length (strip (c :: text)))) 10); [lia|].
  cbn [orb]. rewrite words_of_text, length_map.
  destruct (Z.ltb_spec (Z.of_nat (length (split (c :: text)))) 5); [lia|].
  reflexivity.
Qed.

Lemma detect_language_english (text : str) :
  (10 <= length (strip text))%nat -> (5 <= length (split text))%nat ->
  built_from (words_of english_indicators) text ->
  detect_language text = u "en".
Proof.
  intros H10 H5 Hb. rewrite detect_language_long by assumption. cbv zeta.
  rewrite (@built_from_scores _ french_indicators 0 text
             (fun w Hw => proj2 (@english_word_hits w Hw)) Hb).
  rewrite (@built_from_scores _ english_indicators 1 text
             (fun w Hw => proj1 (@english_word_hits w Hw)) Hb).
  destruct (Qlt_le_dec _ _) as [L|_].
  - apply french_bias in L. lia.
  - destruct (Z.ltb_spec (0 * Z.of_nat (length (split text)))
                         (1 * Z.of_nat (length (split text)))); [reflexivity|lia].
Qed.

Lemma detect_language_french (text : str) :
  (10 <= length (strip text))%nat -> (5 <= length (split text))%nat ->
  built_from (words_of french_indicators) text ->
  detect_language text = u "fr".
Proof.
  intros H10 H5 Hb. rewrite detect_language_long by assumption. cbv zeta.
  rewrite (@built_from_scores _ french_indicators 1 text
             (fun w Hw => proj1 (@french_word_hits w Hw)) Hb).
  rewrite (@built_from_scores _ english_indicators 0 text
             (fun w Hw => proj2 (@french_word_hits w Hw)) Hb).
  destruct (Qlt_le_dec _ _) as [_|L]; [reflexivity|].
  exfalso. apply Qle_not_lt in L. apply L. apply french_bias. lia.
Qed.

(** C9. [detect_language] answers 'auto' for every text whose stripped
    length is below 10 characters or that has fewer than 5 words; for a
    text of at least 10 characters and 5 words it answers 'en' when every
    word is an English indicator and 'fr' when every word is a French
    indicator. *)
Theorem C9_detect_language (text : str) :
  ((length (strip text) < 10)%nat \/ (length (split text) < 5)%nat ->
   detect_language text = u "auto")
  /\ ((10 <= length (strip text))%nat -> (5 <= length (split text))%nat ->
      built_from (words_of english_indicators) text ->
      detect_language text = u "en")
  /\ ((10 <= length (strip text))%nat -> (5 <= length (split text))%nat ->
      built_from (words_of french_indicators) text ->
      detect_language text = u "fr").
Proof.
  split; [apply detect_language_short|].
  split; [apply detect_language_english | apply detect_language_french].
Qed.

End LanguageDetector.


(** A closed text is built from closed words when the check evaluates to
    [true]. *)
Ltac check_built_from :=
  apply Forall_forall; intros w Hw; apply mem_In; revert w Hw;
  apply forallb_forall; vm_compute; reflexivity.

(** Witness of C9: one text for each of its three cases. *)
Lemma C9_detect_language_witness :
  Utils.detect_language Spec.short_text = u "auto"
  /\ Utils.detect_language Spec.english_text = u "en"
  /\ Utils.detect_language Spec.french_text = u "fr".
Proof.
  split; [|split].
  - apply (proj1 (C9_detect_language Spec.short_text)).
    left. vm_compute. lia.
  - apply (proj1 (proj2 (C9_detect_language Spec.english_text))).
    + vm_compute. lia.
    + vm_compute. lia.
    + check_built_from.
  - apply (proj2 (proj2 (C9_detect_language Spec.french_text))).
    + vm_compute. lia.
    + vm_compute. lia.
    + check_built_from.
Defined.

(* ===================================================================== *)
(** ** The gazetteer of utils.py and the lookup of the view *)
(* ===================================================================== *)

Section Gazetteer.
Import Utils Spec.



Lemma dict_get_In {V} (k : str) (v : V) (d : list (str * V)) :
  dict_get k d = Some v -> In (k, v) d.
Proof.
  induction d as [|[k' v'] d IH]; simpl; [discriminate|].
  destruct (str_eqb k k') eqn:E.
  - apply str_eqb_eq in E. intros [= ->]. left. now subst.
  - intros H. right. now apply IH.
Qed.










End Gazetteer.



(** Lower-casing beyond Latin-1: the Kelvin sign becomes 'k', so that a
    name written with it resolves like "Kumba"; U+0130 becomes 'i' followed
    by U+0307; a capital sigma that ends a word becomes the final sigma,
    one that starts a word does not. *)
Lemma lower_beyond_latin_1 :
  lower (8490%N :: u "umba") = u "kumba"
  /\ Utils.geocode_location (8490%N :: u "umba") = Some (Utils.at_ 4.6371 9.4469)
  /\ lower [304%N] = [105; 775]%N
  /\ lower [927; 916; 927; 931; 32; 931; 913]%N
     = [959; 948; 959; 962; 32; 963; 945]%N.
Proof. repeat split; vm_compute; reflexivity. Qed.

Section ViewLookup.
Import Spec.

(** Each entry of the view's table is an entry of the gazetteer. *)
Lemma cameroon_locations_included :
  Forall (fun e => dict_get (fst e) Utils.location_database = Some (snd e))
         Views.cameroon_locations.
Proof. repeat constructor. Qed.

Lemma view_geocode_sound (location_name : str) (coords : Utils.Coordinates) :
  Views.geocode_location location_name = Some coords ->
  Utils.geocode_location location_name = Some coords.
Proof.
  unfold Views.geocode_location, Utils.geocode_location.
  intros H. apply dict_get_In in H.
  pose proof cameroon_locations_included as Hall.
  rewrite Forall_forall in Hall. specialize (Hall _ H).
  change (dict_get (strip (lower location_name)) Utils.location_database
          = Some coords) in Hall.
  now rewrite Hall.
Qed.

(** C4, as amended. The lookup the orchestrator applies is an exact match
    of the lower-cased, stripped name in its own table of eleven names,
    with no substring fallback; whenever it resolves a name, the gazetteer
    resolves the name too, to the same coordinates. *)
Theorem C4_view_geocode_location (location_name : str) :
  Views.geocode_location location_name
  = dict_get (strip (lower location_name)) Views.cameroon_locations
  /\ length Views.cameroon_locations = 11%nat
  /\ (forall coords,
        Views.geocode_location location_name = Some coords ->
        In (strip (lower location_name), coords) Views.cameroon_locations
        /\ Utils.geocode_location location_name = Some coords).
Proof.
  split; [reflexivity|]. split; [reflexivity|].
  intros coords H. split.
  - now apply dict_get_In.
  - now apply view_geocode_sound.
Qed.

(** C4 fails as stated: the gazetteer resolves "Douala City" through its
    substring fallback, the orchestrator's lookup does not resolve it. *)
Lemma C4_counterexample :
  Utils.geocode_location Douala_City = Some (Utils.at_ 4.0511 9.7679)
  /\ Views.geocode_location Douala_City = None
  /\ ~ (forall location_name,
          Views.geocode_location location_name
          = Utils.geocode_location location_name).
Proof.
  split; [reflexivity|]. split; [reflexivity|].
  intros H. specialize (H Douala_City). vm_compute in H. discriminate H.
Qed.

End ViewLookup.

(** Witness of C4: "Bamenda" is resolved by both lookups. *)
Lemma C4_view_geocode_location_witness :
  Utils.geocode_location (u "Bamenda") = Some (Utils.at_ 5.9631 10.1591).
Proof.
  apply (proj2 (proj2 (C4_view_geocode_location (u "Bamenda")))
           (Utils.at_ 5.9631 10.1591)).
  reflexivity.
Defined.

(* ===================================================================== *)
(** ** The priority classifier of utils.py *)
(* ===================================================================== *)

Section PriorityClassifier.
Import Utils Spec.

(** With two critical keywords or more the first operand of [or] decides
    and priority 1 is returned. *)
Lemma classify_two_critical (article_data : ArticleData) :
  (2 <= critical_count_of article_data)%Z ->
  classify_article_priority article_data = Ok 1%Z.
Proof.
  intros H. unfold classify_article_priority.
  fold (text_of article_data). fold (critical_count_of article_data).
  destruct (Z.leb_spec 2 (critical_count_of article_data)); [reflexivity|lia].
Qed.

(** With fewer, the call of [any] is reached and raises: rules 2, 3 and 4
    are never applied. *)
Lemma classify_below_two_critical (article_data : ArticleData) :
  (critical_count_of article_data < 2)%Z ->
  classify_article_priority article_data
  = Raise (TypeError (u "any() takes exactly one argument (2 given)")).
Proof.
  intros H. unfold classify_article_priority.
  fold (text_of article_data). fold (critical_count_of article_data).
  destruct (Z.leb_spec 2 (critical_count_of article_data)); [lia|reflexivity].
Qed.

(** C1, at the input of its example: for the text "protest" with four
    PERSON entities the classifier raises a [TypeError] instead of
    returning priority 3. *)
Theorem C1_classify_protest_raises :
  critical_count_of protest_article = 0%Z
  /\ classify_article_priority protest_article
     = Raise (TypeError (u "any() takes exactly one argument (2 given)"))
  /\ classify_article_priority protest_article <> Ok 3%Z.
Proof.
  split; [reflexivity|]. split; [reflexivity|]. discriminate.
Qed.

End PriorityClassifier.

(* ===================================================================== *)
(** ** The entity merger of ner_service.py *)
(* ===================================================================== *)

Section EntityMerger.
Import Ner Spec.

(** The loop of [merge_adjacent_entities], from any state, appends to
    [merged] what the accumulator recursion yields. *)
Lemma merge_loop (rest merged : list Entity) (current_entity : Entity) :
  (let (m, c) := fold_left merge_iter rest (merged, current_entity) in m ++ [c])
  = merged ++ merge_spec current_entity rest.
Proof.
  revert merged current_entity.
  induction rest as [|next rest IH]; intros merged cur; simpl.
  - reflexivity.
  - destruct (adjacent cur next).
    + apply IH.
    + rewrite IH, <- app_assoc. reflexivity.
Qed.

Lemma merge_as_spec (first : Entity) (rest : list Entity) :
  merge_adjacent_entities (first :: rest) = merge_spec first rest.
Proof.
  unfold merge_adjacent_entities. apply (merge_loop rest [] first).
Qed.

Lemma merge_absorbs (cur next : Entity) (rest : list Entity) :
  adjacent cur next = true ->
  merge_adjacent_entities (cur :: next :: rest)
  = merge_adjacent_entities (absorb cur next :: rest).
Proof.
  intros H. rewrite !merge_as_spec. simpl. now rewrite H.
Qed.

Lemma merge_flushes (cur next : Entity) (rest : list Entity) :
  adjacent cur next = false ->
  merge_adjacent_entities (cur :: next :: rest)
  = cur :: merge_adjacent_entities (next :: rest).
Proof.
  intros H. rewrite !merge_as_spec. simpl. now rewrite H.
Qed.

Lemma adjacent_spec (a b : Entity) :
  adjacent a b = true <->
  entity_group a = entity_group b /\ (end_ a >= start b - 2)%Z.
Proof.
  unfold adjacent. rewrite andb_true_iff, str_eqb_eq, Z.leb_le.
  split; intros [Hg He]; (split; [exact Hg | lia]).
Qed.

(** *** Sorting by start *)

Lemma insert_by_start_perm (a : Entity) (l : list Entity) :
  Permutation (insert_by_start a l) (a :: l).
Proof.
  induction l as [|b l IH]; simpl; [reflexivity|].
  destruct (start a <=? start b)%Z; [reflexivity|].
  rewrite IH. apply perm_swap.
Qed.

Lemma sort_by_start_perm (l : list Entity) : Permutation (sort_by_start l) l.
Proof.
  induction l as [|a l IH]; simpl; [reflexivity|].
  rewrite insert_by_start_perm. now constructor.
Qed.

Lemma insert_by_start_sorted (a : Entity) (l : list Entity) :
  Sorted by_start l -> Sorted by_start (insert_by_start a l).
Proof.
  induction l as [|b l IH]; intros Hs; simpl.
  - repeat constructor.
  - destruct (Z.leb_spec (start a) (start b)) as [L|L].
    + constructor; [exact Hs|]. constructor. exact L.
    + apply Sorted_inv in Hs. destruct Hs as [Hs Hb].
      constructor; [now apply IH|].
      destruct l as [|c l]; simpl.
      * constructor. unfold by_start. lia.
      * destruct (start a <=? start c)%Z; constructor.
        -- unfold by_start. lia.
        -- now apply HdRel_inv in Hb.
Qed.

Lemma sort_by_start_sorted (l : list Entity) : Sorted by_start (sort_by_start l).
Proof.
  induction l as [|a l IH]; simpl; [constructor|].
  now apply insert_by_start_sorted.
Qed.

(** A list already in order is returned as it is. *)
Lemma sort_by_start_fixed (l : list Entity) :
  Sorted by_start l -> sort_by_start l = l.
Proof.
  induction l as [|a l IH]; intros Hs; simpl; [reflexivity|].
  apply Sorted_inv in Hs. destruct Hs as [Hs Ha].
  rewrite (IH Hs). destruct l as [|b l]; simpl; [reflexivity|].
  apply HdRel_inv in Ha. unfold by_start in Ha.
  destruct (Z.leb_spec (start a) (start b)); [reflexivity|lia].
Qed.

Lemma absorb_Paul_Biya : absorb Paul Biya = Paul_Biya.
Proof. vm_compute. reflexivity. Qed.

(** C6, as amended. The merger returns the empty list on the empty
    list; scanning from the left, an entity of the accumulator's category
    that starts at most 2 characters after the accumulator's end is merged
    into it (the words joined by one space, the end taken from the entity,
    the confidence the float sum of the two divided by 2), any other
    entity flushes the accumulator and becomes the new one; the list
    returned after the sort is ordered by start and holds the merged
    entities.  "Paul" (0-4, 0.9) and "Biya" (5-9, 0.8) give "Paul Biya"
    (0-9) with the confidence 0.8500000000000001. *)
Theorem C6_entity_merger :
  merge_adjacent_entities [] = [] /\ final_entities [] = []
  /\ (forall first rest,
        merge_adjacent_entities (first :: rest) = merge_spec first rest)
  /\ (forall cur next rest,
        entity_group cur = entity_group next -> (end_ cur >= start next - 2)%Z ->
        merge_adjacent_entities (cur :: next :: rest)
        = merge_adjacent_entities (absorb cur next :: rest))
  /\ (forall cur next rest,
        ~ (entity_group cur = entity_group next /\ (end_ cur >= start next - 2)%Z) ->
        merge_adjacent_entities (cur :: next :: rest)
        = cur :: merge_adjacent_entities (next :: rest))
  /\ (forall cur next,
        word (absorb cur next) = word cur ++ u " " ++ word next
        /\ entity_group (absorb cur next) = entity_group cur
        /\ start (absorb cur next) = start cur
        /\ end_ (absorb cur next) = end_ next
        /\ confidence (absorb cur next)
           = float_div (float_add (confidence cur) (confidence next))
               (float_of_int 2))
  /\ (forall l, Sorted by_start (final_entities l)
                /\ Permutation (final_entities l) (merge_adjacent_entities l))
  /\ final_entities [Paul; Biya] = [Paul_Biya].
Proof.
  split; [reflexivity|]. split; [reflexivity|].
  split; [apply merge_as_spec|].
  split.
  { intros cur next rest Hg He. apply merge_absorbs.
    apply adjacent_spec. now split. }
  split.
  { intros cur next rest H. apply merge_flushes.
    destruct (adjacent cur next) eqn:E; [|reflexivity].
    exfalso. apply H. now apply adjacent_spec. }
  split.
  { intros cur next. repeat split. }
  split.
  { intros l. unfold final_entities. split.
    - apply sort_by_start_sorted.
    - apply sort_by_start_perm. }
  unfold final_entities. rewrite merge_absorbs by reflexivity.
  rewrite absorb_Paul_Biya. reflexivity.
Qed.

End EntityMerger.

(** Witness of C6: "Paul" and "Biya" are merged, "Paul" and "Douala" are
    not. *)
Lemma C6_entity_merger_witness :
  Ner.merge_adjacent_entities [Spec.Paul; Spec.Biya]
  = Ner.merge_adjacent_entities [Ner.absorb Spec.Paul Spec.Biya]
  /\ Ner.merge_adjacent_entities [Spec.Paul; Spec.Douala]
     = Spec.Paul :: Ner.merge_adjacent_entities [Spec.Douala].
Proof.
  split.
  - apply (proj1 (proj2 (proj2 (proj2 C6_entity_merger))) Spec.Paul Spec.Biya []).
    + reflexivity.
    + vm_compute. discriminate.
  - apply (proj1 (proj2 (proj2 (proj2 (proj2 C6_entity_merger))))
             Spec.Paul Spec.Douala []).
    intros [H _]. vm_compute in H. discriminate H.
Defined.

(** C6 fails as stated on its own example: the merger gives "Paul Biya"
    the confidence (0.9 + 0.8) / 2 as floats compute it, which is
    0.8500000000000001, the float next above 0.85. *)
Lemma C6_counterexample :
  Ner.final_entities [Spec.Paul; Spec.Biya] <> [Spec.Paul_Biya_expected]
  /\ Ner.confidence (Ner.absorb Spec.Paul Spec.Biya)
     = float_literal 0.8500000000000001
  /\ float_literal 0.8500000000000001 <> float_literal 0.85
  /\ float_le (float_literal 0.8500000000000001) (float_literal 0.85) = false.
Proof.
  split; [vm_compute; discriminate|].
  split; [vm_compute; reflexivity|].
  split; [vm_compute; discriminate|].
  vm_compute. reflexivity.
Qed.

Section MergerIdempotence.
Import Ner Spec.

(** What the accumulator recursion returns starts with an entity that has
    the category and the start of the accumulator. *)
Lemma merge_spec_head (rest : list Entity) (acc : Entity) :
  exists h t, merge_spec acc rest = h :: t
              /\ entity_group h = entity_group acc /\ start h = start acc.
Proof.
  revert acc. induction rest as [|next rest IH]; intros acc; simpl.
  - exists acc, []. repeat split.
  - destruct (adjacent acc next).
    + destruct (IH (absorb acc next)) as [h [t [E [Hg Hs]]]].
      exists h, t. repeat split; assumption.
    + exists acc, (merge_spec next rest). repeat split.
Qed.

Lemma adjacent_same_head (a b b' : Entity) :
  entity_group b' = entity_group b -> start b' = start b ->
  adjacent a b' = adjacent a b.
Proof. intros Hg Hs. unfold adjacent. now rewrite Hg, Hs. Qed.

(** In the output of the pass no entity can be merged into the one before
    it. *)
Lemma merge_spec_settled (rest : list Entity) (acc : Entity) :
  settled (merge_spec acc rest).
Proof.
  revert acc. induction rest as [|next rest IH]; intros acc; simpl.
  - exact I.
  - destruct (adjacent acc next) eqn:E.
    + apply IH.
    + destruct (merge_spec_head rest next) as [h [t [Eh [Hg Hs]]]].
      specialize (IH next). rewrite Eh in *. split; [|exact IH].
      now rewrite (adjacent_same_head acc next h Hg Hs).
Qed.

Lemma settled_fixed (l : list Entity) (a : Entity) :
  settled (a :: l) -> merge_spec a l = a :: l.
Proof.
  revert a. induction l as [|b l IH]; intros a H; simpl.
  - reflexivity.
  - destruct H as [Hab Hl]. rewrite Hab. now rewrite IH.
Qed.

Lemma merge_settled (l : list Entity) : settled (merge_adjacent_entities l).
Proof.
  destruct l as [|a l]; [exact I|].
  rewrite merge_as_spec. apply merge_spec_settled.
Qed.

Lemma merge_of_settled (l : list Entity) :
  settled l -> merge_adjacent_entities l = l.
Proof.
  destruct l as [|a l]; [reflexivity|].
  intros H. rewrite merge_as_spec. now apply settled_fixed.
Qed.

Lemma merge_idempotent (l : list Entity) :
  merge_adjacent_entities (merge_adjacent_entities l) = merge_adjacent_entities l.
Proof. apply merge_of_settled, merge_settled. Qed.

(** Every start in the output is the start of an input entity. *)
Lemma merge_spec_starts (P : Z -> Prop) (rest : list Entity) (acc : Entity) :
  P (start acc) -> Forall (fun e => P (start e)) rest ->
  Forall (fun e => P (start e)) (merge_spec acc rest).
Proof.
  revert acc. induction rest as [|next rest IH]; intros acc Ha Hr; simpl.
  - now constructor.
  - inversion Hr as [|? ? Hn Hr']; subst.
    destruct (adjacent acc next).
    + apply IH; assumption.
    + constructor; [exact Ha|]. now apply IH.
Qed.

Lemma by_start_trans : Relations_1.Transitive by_start.
Proof. intros a b c. unfold by_start. lia. Qed.

Lemma merge_spec_sorted (rest : list Entity) (acc : Entity) :
  StronglySorted by_start (acc :: rest) ->
  StronglySorted by_start (merge_spec acc rest).
Proof.
  revert acc. induction rest as [|next rest IH]; intros acc H; simpl.
  - exact H.
  - apply StronglySorted_inv in H. destruct H as [Hrest Hall].
    inversion Hall as [|? ? Hn Hall']; subst.
    destruct (adjacent acc next).
    + apply IH. constructor.
      * now apply StronglySorted_inv in Hrest.
      * exact Hall'.
    + constructor; [now apply IH|].
      apply (merge_spec_starts (fun z => (start acc <= z)%Z)); assumption.
Qed.

(** On extractor output ordered by start the pass keeps the order, so the
    sort that follows changes nothing. *)
Lemma merge_keeps_order (l : list Entity) :
  Sorted by_start l -> Sorted by_start (merge_adjacent_entities l).
Proof.
  destruct l as [|a l]; intros H; [constructor|].
  rewrite merge_as_spec. apply StronglySorted_Sorted, merge_spec_sorted.
  apply Sorted_StronglySorted; [exact by_start_trans | exact H].
Qed.

Lemma final_entities_of_sorted (l : list Entity) :
  Sorted by_start l -> final_entities l = merge_adjacent_entities l.
Proof.
  intros H. unfold final_entities.
  now apply sort_by_start_fixed, merge_keeps_order.
Qed.

(** C7, as amended. The merge pass is idempotent on its own output in the
    order it returned it: no entity of that list can be merged into its
    predecessor, and a second pass returns the identical list.  For the
    list returned after the sort the same holds whenever the entities given
    to the first application were ordered by start. *)
Theorem C7_merge_idempotent :
  (forall l, settled (merge_adjacent_entities l)
             /\ merge_adjacent_entities (merge_adjacent_entities l)
                = merge_adjacent_entities l)
  /\ (forall l, Sorted by_start l ->
                settled (final_entities l)
                /\ final_entities (final_entities l) = final_entities l).
Proof.
  split.
  - intros l. split; [apply merge_settled | apply merge_idempotent].
  - intros l H. rewrite (final_entities_of_sorted l H). split.
    + apply merge_settled.
    + rewrite final_entities_of_sorted by now apply merge_keeps_order.
      apply merge_idempotent.
Qed.

(** C7 fails as stated: merging and sorting [out_of_order] brings the two
    PERSON spans next to each other, and a second application merges
    them. *)
Lemma C7_counterexample :
  final_entities out_of_order = [Paul_10; Biya_15; Douala]
  /\ adjacent Paul_10 Biya_15 = true
  /\ length (final_entities (final_entities out_of_order)) = 2%nat
  /\ final_entities (final_entities out_of_order) <> final_entities out_of_order
  /\ merge_adjacent_entities (final_entities out_of_order)
     <> final_entities out_of_order.
Proof.
  assert (E : final_entities out_of_order = [Paul_10; Biya_15; Douala])
    by reflexivity.
  split; [exact E|]. split; [reflexivity|].
  assert (L : length (final_entities (final_entities out_of_order)) = 2%nat).
  { rewrite E. unfold final_entities.
    rewrite merge_absorbs by reflexivity.
    rewrite merge_flushes by reflexivity.
    rewrite (Permutation_length (sort_by_start_perm _)). reflexivity. }
  split; [exact L|]. split.
  - intros H. rewrite H, E in L. discriminate L.
  - rewrite E. rewrite merge_absorbs by reflexivity.
    rewrite merge_flushes by reflexivity. intros H.
    apply (f_equal (@length Entity)) in H. discriminate H.
Qed.

End MergerIdempotence.

(** Witness of C7: the list ["Paul"; "Biya"] is ordered by start. *)
Lemma C7_merge_idempotent_witness :
  Ner.final_entities (Ner.final_entities [Spec.Paul; Spec.Biya])
  = Ner.final_entities [Spec.Paul; Spec.Biya].
Proof.
  apply (proj2 C7_merge_idempotent [Spec.Paul; Spec.Biya]).
  repeat constructor; unfold Spec.by_start; simpl; lia.
Defined.

(* ===================================================================== *)
(** ** The orchestrator of views.py *)
(* ===================================================================== *)

Section Orchestrator.
Import Models Views Spec.

Lemma extends_refl (w : World) : extends w w.
Proof. unfold extends. tauto. Qed.

Lemma extends_trans (w1 w2 w3 : World) :
  extends w1 w2 -> extends w2 w3 -> extends w1 w3.
Proof.
  unfold extends. intros [A1 [B1 [C1 D1]]] [A2 [B2 [C2 D2]]].
  repeat split.
  - congruence.
  - destruct B2 as [B2|B2]; [destruct B1 as [B1|B1]|]; [left|right|right]; congruence.
  - auto.
  - auto.
Qed.

Lemma advances_ret {A} (a : A) : advances (ret a).
Proof. intros w. apply extends_refl. Qed.

Lemma advances_lift {A} (r : result A) : advances (lift r).
Proof. intros w. apply extends_refl. Qed.

Lemma advances_get_article : advances get_article.
Proof. intros w. apply extends_refl. Qed.

Lemma advances_bind {A B} (c : M A) (k : A -> M B) :
  advances c -> (forall a, advances (k a)) -> advances (bind c k).
Proof.
  intros Hc Hk w. unfold bind. specialize (Hc w).
  destruct (c w) as [[a|e] w']; simpl in *.
  - eapply extends_trans; [exact Hc | apply Hk].
  - exact Hc.
Qed.

Lemma advances_try {A} (c : M A) (h : exn -> M A) :
  advances c -> (forall e, advances (h e)) -> advances (try_except c h).
Proof.
  intros Hc Hh w. unfold try_except. specialize (Hc w).
  destruct (c w) as [[a|e] w']; simpl in *.
  - exact Hc.
  - eapply extends_trans; [exact Hc | apply Hh].
Qed.

Lemma advances_update (f : NewsArticle -> NewsArticle) :
  (forall a, language (f a) = language a) -> advances (update_article f).
Proof.
  intros Hf w. unfold extends. simpl. rewrite Hf. tauto.
Qed.

Lemma advances_db_operation (fault : nat -> option str) (write : World -> World) :
  (forall w, extends w (write w)) -> advances (db_operation fault write).
Proof.
  intros Hw w. unfold db_operation.
  destruct (fault (db_ops w)); simpl.
  - unfold extends. simpl. tauto.
  - eapply extends_trans; [|apply Hw]. unfold extends. simpl. tauto.
Qed.

Lemma language_with_metrics (a : NewsArticle) : language (with_metrics a) = language a.
Proof. unfold with_metrics. now destruct (raw_text a). Qed.

Lemma json_with_metrics (a : NewsArticle) :
  processed_json (with_metrics a) = processed_json a.
Proof. unfold with_metrics. now destruct (raw_text a). Qed.

Lemma status_with_metrics (a : NewsArticle) :
  processing_status (with_metrics a) = processing_status a.
Proof. unfold with_metrics. now destruct (raw_text a). Qed.

Lemma language_mark_failed (m : option str) (a : NewsArticle) :
  language (mark_failed_fields m a) = language a.
Proof.
  unfold mark_failed_fields.
  destruct (_ && _); [destruct m|]; reflexivity.
Qed.

Lemma advances_save (fault : nat -> option str) : advances (save fault).
Proof.
  apply advances_bind.
  - apply advances_update, language_with_metrics.
  - intros _. apply advances_db_operation. intros w.
    unfold extends. simpl. tauto.
Qed.

Lemma advances_save_update_fields (fault : nat -> option str) (b1 b2 : bool) :
  advances (save_update_fields fault b1 b2).
Proof.
  apply advances_bind.
  - apply advances_update, language_with_metrics.
  - intros _. apply advances_db_operation. intros w.
    unfold extends. simpl. tauto.
Qed.

Lemma advances_create_log (fault : nat -> option str) (entry : ProcessingLog) :
  advances (create_log fault entry).
Proof.
  apply advances_db_operation. intros w. unfold extends. simpl.
  repeat split; auto. intros e He. apply in_or_app. now left.
Qed.

Lemma advances_record_call (c : Call) : advances (record_call c).
Proof.
  intros w. unfold extends. simpl.
  repeat split; auto. intros e He. apply in_or_app. now left.
Qed.

Lemma advances_mark_processing_failed (fault : nat -> option str) (m : option str) :
  advances (mark_processing_failed fault m).
Proof.
  apply advances_bind.
  - apply advances_update, language_mark_failed.
  - intros _. apply advances_save_update_fields.
Qed.

Ltac frame :=
  repeat first
    [ apply advances_ret
    | apply advances_lift
    | apply advances_get_article
    | apply advances_save
    | apply advances_create_log
    | apply advances_record_call
    | apply advances_mark_processing_failed
    | apply advances_update; intros ?; reflexivity
    | apply advances_bind; [|intros ?]
    | apply advances_try; [|intros ?]
    | match goal with
      | |- advances (if ?b then _ else _) => destruct b
      | |- advances (match ?x with _ => _ end) => destruct x
      end ].

Lemma advances_translation_stage sv raw lang :
  advances (translation_stage sv raw lang).
Proof. unfold translation_stage, call_translation_service. frame. Qed.

Lemma advances_geocoding_stage sv ner_result :
  advances (geocoding_stage sv ner_result).
Proof. unfold geocoding_stage. frame. Qed.

Lemma advances_extraction_stage sv results text :
  advances (extraction_stage sv results text).
Proof.
  unfold extraction_stage, geocoding_stage, call_ner_service. frame.
Qed.



Ltac frame_stages :=
  frame;
  first [ apply advances_translation_stage
        | apply advances_extraction_stage ].

Lemma advances_after_detection sv raw lang :
  advances (pipeline_after_detection sv raw lang).
Proof.
  unfold pipeline_after_detection. frame_stages.
Qed.

Lemma advances_handler sv (e : exn) :
  advances (mark_processing_failed (db_fault sv) (Some (str_of_exn e)) ;;;
            ret [(u "error", JStr (str_of_exn e))]).
Proof. frame. Qed.

(** *** Stepping through statements that succeed *)

Lemma bind_update {B} (f : NewsArticle -> NewsArticle) (k : unit -> M B) (w : World) :
  bind (update_article f) k w = k tt (updated f w).
Proof. reflexivity. Qed.

Lemma bind_save {B} (fault : nat -> option str) (k : unit -> M B) (w : World) :
  fault (db_ops w) = None -> bind (save fault) k w = k tt (saved w).
Proof.
  intros H. unfold save, update_article, db_operation, bind. simpl.
  now rewrite H.
Qed.

Lemma bind_create_log {B} (fault : nat -> option str) (entry : ProcessingLog)
    (k : unit -> M B) (w : World) :
  fault (db_ops w) = None ->
  bind (create_log fault entry) k w = k tt (logged entry w).
Proof.
  intros H. unfold bind, create_log, db_operation. now rewrite H.
Qed.

Lemma create_log_returns (fault : nat -> option str) (entry : ProcessingLog)
    (w : World) :
  fault (db_ops w) = None ->
  create_log fault entry w = (Ok tt, logged entry w).
Proof.
  intros H. unfold create_log, db_operation. now rewrite H.
Qed.

Lemma bind_record_call {B} (c : Call) (k : unit -> M B) (w : World) :
  bind (record_call c) k w = k tt (called c w).
Proof. reflexivity. Qed.

Lemma bind_bind {A B C} (c : M A) (k : A -> M B) (k' : B -> M C) (w : World) :
  bind (bind c k) k' w = bind c (fun a => bind (k a) k') w.
Proof. unfold bind. destruct (c w) as [[a|e] w']; reflexivity. Qed.

Lemma bind_ret {A B} (a : A) (k : A -> M B) (w : World) :
  bind (ret a) k w = k a w.
Proof. reflexivity. Qed.

Lemma bind_lift_ok {A B} (a : A) (k : A -> M B) (w : World) :
  bind (lift (Ok a)) k w = k a w.
Proof. reflexivity. Qed.

Lemma pipeline_body_eq sv (w : World) :
  pipeline_body sv w
  = pipeline_after_detection sv (raw_text (article w))
      (detect_article_language (raw_text (article w)))
      (with_language (detect_article_language (raw_text (article w))) w).
Proof. reflexivity. Qed.

(** From the assignment of the language on, a run only moves the world
    forward. *)
Lemma pipeline_extends sv (w : World) :
  extends (with_language (detect_article_language (raw_text (article w))) w)
          (snd (process_article_pipeline sv w)).
Proof.
  unfold process_article_pipeline, try_except. rewrite pipeline_body_eq.
  pose proof (advances_after_detection sv (raw_text (article w))
                (detect_article_language (raw_text (article w)))
                (with_language (detect_article_language (raw_text (article w))) w)) as H.
  destruct (pipeline_after_detection _ _ _ _) as [[r|e] w']; simpl in *.
  - exact H.
  - eapply extends_trans; [exact H | apply advances_handler].
Qed.

Lemma pipeline_extends_saved sv (w : World) :
  db_fault sv (db_ops w) = None ->
  extends
    (saved (updated (set_processing_status translating)
       (with_language (detect_article_language (raw_text (article w))) w)))
    (snd (process_article_pipeline sv w)).
Proof.
  intros Hf.
  unfold process_article_pipeline, try_except. rewrite pipeline_body_eq.
  unfold pipeline_after_detection. rewrite bind_update, bind_save by exact Hf.
  match goal with
  | |- context [match ?c ?w1 with _ => _ end] =>
      assert (H : extends w1 (snd (c w1)))
        by (assert (Hc : advances c) by frame_stages; apply Hc);
      destruct (c w1) as [[r|e] w']; simpl in *
  end.
  - exact H.
  - eapply extends_trans; [exact H | apply advances_handler].
Qed.

(** C3, as amended. The language the orchestrator stores on the article
    is the answer of its own detector [detect_article_language] on the raw
    text: 'fr' when more of its ten French indicators than of its ten
    English indicators occur as substrings of the lower-cased text, 'en'
    when more English ones occur, 'auto' otherwise, whatever the length of
    the text.  The value is on the article object at the end of every run,
    and in its row when the first save succeeded. *)
Theorem C3_stored_language (sv : Services) (a : NewsArticle) :
  let french_count :=
    count_if (fun word => contains (lower (raw_text a)) word) Views.french_indicators in
  let english_count :=
    count_if (fun word => contains (lower (raw_text a)) word) Views.english_indicators in
  language (article (snd (run sv a))) = detect_article_language (raw_text a)
  /\ (db_fault sv 0 = None ->
      language (db_row (snd (run sv a))) = detect_article_language (raw_text a))
  /\ ((english_count < french_count)%Z ->
      detect_article_language (raw_text a) = u "fr")
  /\ ((french_count < english_count)%Z ->
      detect_article_language (raw_text a) = u "en")
  /\ (french_count = english_count ->
      detect_article_language (raw_text a) = u "auto").
Proof.
  intros french_count english_count. unfold run.
  split; [|split].
  - destruct (pipeline_extends sv (initial_world a)) as [H _]. exact H.
  - intros Hf.
    destruct (pipeline_extends_saved sv (initial_world a) Hf) as [_ [[H|H] _]];
      rewrite H; simpl; apply language_with_metrics.
  - unfold detect_article_language.
    fold french_count english_count.
    repeat split; intros H.
    + destruct (Z.ltb_spec english_count french_count); [reflexivity|lia].
    + destruct (Z.ltb_spec english_count french_count); [lia|].
      destruct (Z.ltb_spec french_count english_count); [reflexivity|lia].
    + destruct (Z.ltb_spec english_count french_count); [lia|].
      destruct (Z.ltb_spec french_count english_count); [lia|reflexivity].
Qed.


(** *** The translation stage *)

Lemma translation_fails_result (o : Outcome) :
  translation_fails o -> service_result o = JNull.
Proof.
  destruct o as [status body|]; simpl; [|reflexivity].
  intros H. destruct (Z.eqb_spec status 200); [contradiction|reflexivity].
Qed.

Lemma translation_stage_unavailable sv raw lang (w : World) :
  lang <> u "en" ->
  truthy (service_result (translation_service sv raw lang)) = false ->
  db_fault sv (db_ops w) = None ->
  translation_stage sv raw lang w
  = (Ok ([], JStr raw),
     logged (mkLog translation log_failed TranslationUnavailable None)
       (called (TranslateCall raw lang) w)).
Proof.
  intros Hl Ht Hf. unfold translation_stage.
  destruct (str_eqb lang (u "en")) eqn:E;
    [apply str_eqb_eq in E; contradiction|].
  cbn [negb]. unfold call_translation_service.
  rewrite bind_bind, bind_record_call, bind_ret, Ht.
  now rewrite bind_create_log by exact Hf.
Qed.


(** *** The extraction stage under the contract of the service *)

Lemma select_locations_readable (items : list json) :
  forallb entity_readable items = true ->
  exists locs, select_locations items = Ok locs
               /\ Forall (fun e => exists s, word_of e = Ok (JStr s)) locs.
Proof.
  induction items as [|e items IH]; intros H.
  - exists []. split; [reflexivity|constructor].
  - cbn [forallb] in H. apply andb_true_iff in H. destruct H as [He Hi].
    destruct (IH Hi) as [locs [El Fl]].
    destruct e as [| | | | |l|d]; try discriminate He.
    cbn [select_locations py_get]. rewrite El.
    unfold entity_readable in He.
    destruct (dict_get (u "entity_group") d) as [[| | | |g| |]|];
      try (exists locs; split; [reflexivity|exact Fl]).
    destruct (str_eqb g (u "LOCATION")).
    + exists (JObj d :: locs). split; [reflexivity|].
      constructor; [|exact Fl].
      unfold word_of.
      destruct (dict_get (u "word") d) as [[| | | |s| |]|]; try discriminate He.
      now exists s.
    + exists locs. split; [reflexivity|exact Fl].
Qed.

Lemma geocoding_stage_returns sv (d : dict) (w : World) :
  no_fault sv -> ner_contract (JObj d) = true ->
  exists w', geocoding_stage sv (JObj d) w = (Ok tt, w') /\ calls w' = calls w.
Proof.
  intros Hf Hc. unfold geocoding_stage, py_get. rewrite bind_lift_ok.
  unfold ner_contract in Hc.
  destruct (dict_get (u "entities") d) as [[| | | | |items|]|];
    try discriminate Hc.
  - destruct (select_locations_readable items Hc) as [locs [El Fl]].
    unfold location_entities_of. rewrite El, bind_lift_ok.
    unfold bind at 1, get_article.
    destruct locs as [|first locs]; [now eexists|].
    destruct (location (article w)); [now eexists|].
    inversion Fl as [|? ? [s Es] _]; subst.
    rewrite Es, bind_lift_ok. unfold geocode_value. rewrite bind_lift_ok.
    destruct (Views.geocode_location s); [|now eexists].
    rewrite bind_update, create_log_returns by apply Hf. now eexists.
  - cbn [location_entities_of select_locations]. rewrite bind_lift_ok.
    unfold bind at 1, get_article. now eexists.
Qed.

Ltac step Hf :=
  repeat (cbv beta;
          first [ rewrite bind_bind
                | rewrite bind_update
                | rewrite bind_save by apply Hf
                | rewrite bind_create_log by apply Hf
                | rewrite bind_record_call
                | rewrite bind_ret
                | rewrite bind_lift_ok ]).

Lemma extraction_stage_returns sv (results : dict) (text : json) (w : World) :
  no_fault sv -> ner_contract (service_result (ner_service sv text)) = true ->
  exists w',
    extraction_stage sv results text w
    = (Ok (if truthy (service_result (ner_service sv text))
           then dict_set (u "entities") (service_result (ner_service sv text)) results
           else results), w')
    /\ calls w' = calls w ++ [NerCall text].
Proof.
  intros Hf Hc. unfold extraction_stage, call_ner_service. step Hf.
  destruct (truthy (service_result (ner_service sv text))) eqn:Et.
  - destruct (service_result (ner_service sv text)) as [| | | | | |d];
      try discriminate Hc; try discriminate Et.
    cbn [py_get]. step Hf.
    match goal with
    | |- context [bind (geocoding_stage sv (JObj d)) _ ?w2] =>
        destruct (geocoding_stage_returns sv d w2 Hf Hc) as [w' [Eg Ec]]
    end.
    unfold bind at 1. rewrite Eg. exists w'. split; [reflexivity|].
    rewrite Ec. reflexivity.
  - step Hf. eexists. split; reflexivity.
Qed.

(** The end of a run whose two stages return. *)
Lemma run_returns sv (a : NewsArticle) (staged : dict * json) (results : dict)
    (w2 w3 : World) :
  no_fault sv ->
  translation_stage sv (raw_text a) (detect_article_language (raw_text a))
    (logged (mkLog translation log_started
               (DetectedLanguage (detect_article_language (raw_text a))) None)
       (saved (updated (set_processing_status translating)
          (with_language (detect_article_language (raw_text a)) (initial_world a)))))
  = (Ok staged, w2) ->
  extraction_stage sv (fst staged) (snd staged) w2 = (Ok results, w3) ->
  run sv a
  = (Ok results,
     saved (updated (set_processing_status processed)
              (updated (set_processed_json results) w3))).
Proof.
  intros Hf Et Ee.
  unfold run, process_article_pipeline, try_except.
  rewrite pipeline_body_eq. unfold pipeline_after_detection.
  cbn [initial_world article raw_text]. step Hf.
  unfold bind at 1. cbn [initial_world article raw_text] in Et. rewrite Et.
  unfold bind at 1. rewrite Ee. step Hf. reflexivity.
Qed.


(** A run whose translation stage returns sends its extraction request,
    and its world only moves forward from there. *)
Lemma run_reaches_extraction sv (a : NewsArticle) (staged : dict * json)
    (w2 : World) :
  no_fault sv ->
  translation_stage sv (raw_text a) (detect_article_language (raw_text a))
    (logged (mkLog translation log_started
               (DetectedLanguage (detect_article_language (raw_text a))) None)
       (saved (updated (set_processing_status translating)
          (with_language (detect_article_language (raw_text a)) (initial_world a)))))
  = (Ok staged, w2) ->
  extends
    (called (NerCall (snd staged))
       (logged (mkLog ner_extraction log_started StartingExtraction None)
          (saved (updated (set_processing_status extracting_entities) w2))))
    (snd (run sv a)).
Proof.
  intros Hf Et.
  unfold run, process_article_pipeline, try_except.
  rewrite pipeline_body_eq. unfold pipeline_after_detection.
  cbn [initial_world article raw_text]. step Hf.
  unfold bind at 1. cbn [initial_world article raw_text] in Et. rewrite Et.
  unfold extraction_stage, call_ner_service. step Hf.
  match goal with
  | |- context [match ?c ?w1 with _ => _ end] =>
      assert (H : extends w1 (snd (c w1)))
        by (assert (Hc : advances c) by frame; apply Hc);
      destruct (c w1) as [[r|e] w']; simpl in *
  end.
  - exact H.
  - eapply extends_trans; [exact H | apply advances_handler].
Qed.

(** C5, as amended. When the detected language is not 'en' and the
    translation call fails, the pipeline logs translation/failed and sends the raw text to
    entity extraction, provided the storage layer raises nowhere; when in
    addition the extraction service keeps its contract, the run returns
    without raising, with no translation among its results, and the record
    ends in stage 'processed'. *)
Theorem C5_translation_failure_not_fatal (sv : Services) (a : NewsArticle) :
  detect_article_language (raw_text a) <> u "en" ->
  translation_fails
    (translation_service sv (raw_text a) (detect_article_language (raw_text a))) ->
  no_fault sv ->
  In (mkLog translation log_failed TranslationUnavailable None)
     (logs (snd (run sv a)))
  /\ In (NerCall (JStr (raw_text a))) (calls (snd (run sv a)))
  /\ (ner_contract (service_result (ner_service sv (JStr (raw_text a)))) = true ->
      exists results,
        fst (run sv a) = Ok results
        /\ dict_get (u "translation") results = None
        /\ calls (snd (run sv a))
           = [TranslateCall (raw_text a) (detect_article_language (raw_text a));
              NerCall (JStr (raw_text a))]
        /\ processed_json (article (snd (run sv a))) = results
        /\ processing_status (article (snd (run sv a))) = processed
        /\ processing_status (db_row (snd (run sv a))) = processed).
Proof.
  intros Hl Ht Hf.
  pose proof (translation_stage_unavailable sv (raw_text a)
                (detect_article_language (raw_text a))
                (logged (mkLog translation log_started
                           (DetectedLanguage (detect_article_language (raw_text a))) None)
                   (saved (updated (set_processing_status translating)
                      (with_language (detect_article_language (raw_text a))
                         (initial_world a)))))
                Hl) as Es.
  rewrite (translation_fails_result _ Ht) in Es.
  specialize (Es eq_refl (Hf _)).
  destruct (run_reaches_extraction sv a _ _ Hf Es) as [_ [_ [Hlogs Hcalls]]].
  split; [|split].
  - apply Hlogs. simpl. rewrite ?in_app_iff. simpl. tauto.
  - apply Hcalls. simpl. rewrite ?in_app_iff. simpl. tauto.
  - intros Hc.
    match type of Es with
    | _ = (_, ?w2) =>
        destruct (extraction_stage_returns sv [] (JStr (raw_text a)) w2 Hf Hc)
          as [w3 [Ee Ec]]
    end.
    rewrite (run_returns sv a _ _ _ _ Hf Es Ee). eexists.
    split; [reflexivity|]. split.
    { destruct (truthy _); reflexivity. }
    split; [|repeat split].
    + cbn [snd saved updated calls]. rewrite Ec. reflexivity.
    + cbn [snd saved updated article]. now rewrite json_with_metrics.
    + cbn [snd saved updated article]. now rewrite status_with_metrics.
    + cbn [snd saved updated db_row article]. now rewrite status_with_metrics.
Qed.


End Orchestrator.

(** *** What [mark_processing_failed] records *)

Section FailedRuns.
Import Models Views Spec.

Lemma dict_get_set {V} (k : str) (v : V) (d : list (str * V)) :
  dict_get k (dict_set k v d) = Some v.
Proof.
  induction d as [|[k' v'] d IH]; simpl.
  - now rewrite str_eqb_refl.
  - destruct (str_eqb k k') eqn:E; simpl; rewrite E; [reflexivity|exact IH].
Qed.

Lemma mark_failed_status (m : option str) (a : NewsArticle) :
  processing_status (mark_failed_fields m a) = failed.
Proof.
  unfold mark_failed_fields.
  destruct (_ && _); [destruct m|]; reflexivity.
Qed.

(** With results and a message at hand, the message is stored. *)
Lemma mark_failed_stores (msg : str) (a : NewsArticle) :
  msg <> [] -> processed_json a <> [] ->
  dict_get (u "error") (processed_json (mark_failed_fields (Some msg) a))
  = Some (JStr msg).
Proof.
  intros Hm Hj. unfold mark_failed_fields.
  destruct msg as [|c msg]; [contradiction|].
  cbn [set_processing_status processed_json truthy].
  destruct (processed_json a) as [|entry d] eqn:E; [contradiction|].
  cbn [andb set_processed_json processed_json]. apply dict_get_set.
Qed.

(** With empty results the guard is false and nothing is stored. *)
Lemma mark_failed_empty (m : option str) (a : NewsArticle) :
  processed_json a = [] -> processed_json (mark_failed_fields m a) = [].
Proof.
  intros Hj. unfold mark_failed_fields.
  cbn [set_processing_status processed_json truthy]. rewrite Hj.
  rewrite andb_false_r. exact Hj.
Qed.

(** C2, at a failing run. A new article, whose results are empty, is
    processed while the extraction service answers [{"entities": null}]:
    iterating over [None] raises inside the [try] block; the record ends
    in stage 'failed' but its results stay empty, without an 'error'
    key, both on the object and in the row. *)
Theorem C2_failed_run_keeps_no_error :
  fst (run services_null_entities (new_article short_text))
  = Ok [(u "error", JStr (u "'NoneType' object is not iterable"))]
  /\ processing_status
       (article (snd (run services_null_entities (new_article short_text)))) = failed
  /\ processing_status
       (db_row (snd (run services_null_entities (new_article short_text)))) = failed
  /\ processed_json
       (article (snd (run services_null_entities (new_article short_text)))) = []
  /\ processed_json
       (db_row (snd (run services_null_entities (new_article short_text)))) = []
  /\ dict_get (u "error")
       (processed_json
          (article (snd (run services_null_entities (new_article short_text)))))
     = None.
Proof. repeat split. Qed.

(** C3 fails as stated: for the text "le chat" the orchestrator stores
    'fr', the detector of section 4.1 answers 'auto'. *)
Lemma C3_counterexample :
  language (article (snd (run services_down (new_article short_text)))) = u "fr"
  /\ Utils.detect_language short_text = u "auto"
  /\ ~ (forall sv a,
          language (article (snd (run sv a)))
          = Utils.detect_language (raw_text a)).
Proof.
  split; [reflexivity|]. split; [reflexivity|].
  intros H. specialize (H services_down (new_article short_text)).
  vm_compute in H. discriminate H.
Qed.

(** C5 fails as stated: the text "le chat" is not detected as English
    and the translation call fails.  When the extraction service answers
    [{"entities": null}] the run aborts in its handler and the record ends
    in stage 'failed'; when the storage layer raises, nothing is logged,
    no extraction is requested and the run raises. *)
Lemma C5_counterexample :
  detect_article_language short_text <> u "en"
  /\ translation_fails
       (translation_service services_null_entities short_text
          (detect_article_language short_text))
  /\ In (NerCall (JStr short_text))
        (calls (snd (run services_null_entities (new_article short_text))))
  /\ processing_status
       (article (snd (run services_null_entities (new_article short_text))))
     = failed
  /\ translation_fails
       (translation_service Notions.storage_down short_text
          (detect_article_language short_text))
  /\ logs (snd (run Notions.storage_down (new_article short_text))) = []
  /\ calls (snd (run Notions.storage_down (new_article short_text))) = []
  /\ fst (run Notions.storage_down (new_article short_text))
     = Raise (DatabaseError (u "connection refused"))
  /\ ~ (forall sv a,
          detect_article_language (raw_text a) <> u "en" ->
          translation_fails
            (translation_service sv (raw_text a)
               (detect_article_language (raw_text a))) ->
          processing_status (article (snd (run sv a))) = processed).
Proof.
  split; [vm_compute; discriminate|].
  split; [exact I|].
  split; [vm_compute; tauto|].
  split; [reflexivity|].
  split; [exact I|].
  split; [reflexivity|]. split; [reflexivity|]. split; [reflexivity|].
  intros H.
  assert (Hl : detect_article_language (raw_text (new_article short_text)) <> u "en")
    by (vm_compute; discriminate).
  specialize (H services_null_entities (new_article short_text) Hl I).
  vm_compute in H. discriminate H.
Qed.


End FailedRuns.

(** Witness of C3: services down, the text "le chat". *)
Lemma C3_stored_language_witness :
  Models.language
    (Models.db_row (snd (Views.run Spec.services_down (Spec.new_article Spec.short_text))))
  = Views.detect_article_language Spec.short_text
  /\ Views.detect_article_language Spec.short_text = u "fr".
Proof.
  pose proof (C3_stored_language Spec.services_down
                (Spec.new_article Spec.short_text)) as H.
  cbv zeta in H. destruct H as [_ [H1 [H2 _]]]. split.
  - apply H1. reflexivity.
  - apply H2. vm_compute. reflexivity.
Defined.

(** Witness of C5: services down, the text "le chat". *)
Lemma C5_translation_failure_not_fatal_witness :
  In (Models.mkLog Models.translation Models.log_failed
        Models.TranslationUnavailable None)
     (Models.logs (snd (Views.run Spec.services_down (Spec.new_article Spec.short_text))))
  /\ Models.processing_status
       (Models.article
          (snd (Views.run Spec.services_down (Spec.new_article Spec.short_text))))
     = Models.processed.
Proof.
  assert (Hl : Views.detect_article_language
                 (Models.raw_text (Spec.new_article Spec.short_text)) <> u "en")
    by (vm_compute; discriminate).
  assert (Hf : Spec.no_fault Spec.services_down) by (intros n; reflexivity).
  destruct (C5_translation_failure_not_fatal Spec.services_down
              (Spec.new_article Spec.short_text) Hl I Hf) as [A [_ C]].
  split; [exact A|].
  destruct (C eq_refl) as [results [_ [_ [_ [_ [P _]]]]]]. exact P.
Defined.


(* ===================================================================== *)
(** ** Cleaning of entity words (ner_service.py) *)
(* ===================================================================== *)

Section CleanText.
Import Ner NerService Notions.

Lemma lstrip_split (s : str) :
  exists ws, s = ws ++ lstrip s /\ Forall (fun c => isspace c = true) ws.
Proof.
  induction s as [|c s [ws [E F]]]; simpl.
  - exists []. split; [reflexivity|constructor].
  - destruct (isspace c) eqn:Ec.
    + exists (c :: ws). split; [simpl; now rewrite <- E | now constructor].
    + exists []. split; [reflexivity|constructor].
Qed.

Lemma lstrip_head (s s' : str) (c : N) :
  lstrip s = c :: s' -> isspace c = false.
Proof.
  induction s as [|d s IH]; simpl; [discriminate|].
  destruct (isspace d) eqn:Ed; [exact IH|].
  intros [= -> _]. exact Ed.
Qed.

Lemma rstrip_split (s : str) :
  exists ws, s = rstrip s ++ ws /\ Forall (fun c => isspace c = true) ws.
Proof.
  unfold rstrip. destruct (lstrip_split (rev s)) as [ws [E F]].
  exists (rev ws). split.
  - rewrite <- rev_app_distr, <- E. now rewrite rev_involutive.
  - now apply Forall_rev.
Qed.

Lemma rstrip_last (s s' : str) (c : N) :
  rstrip s = s' ++ [c] -> isspace c = false.
Proof.
  unfold rstrip. intros H. apply (f_equal (@rev N)) in H.
  rewrite rev_involutive, rev_app_distr in H. simpl in H.
  now apply lstrip_head in H.
Qed.

(** [strip] leaves no white space at either end. *)
Lemma strip_no_outer_space (s : str) : no_outer_space (strip s).
Proof.
  unfold strip. split.
  - intros c s' E.
    destruct (rstrip_split (lstrip s)) as [ws [E' _]].
    rewrite E in E'. simpl in E'. now apply lstrip_head in E'.
  - intros c s' E. now apply rstrip_last in E.
Qed.

Lemma strip_split (s : str) :
  exists before after, s = before ++ strip s ++ after
    /\ Forall (fun c => isspace c = true) before
    /\ Forall (fun c => isspace c = true) after.
Proof.
  destruct (lstrip_split s) as [b [Eb Fb]].
  destruct (rstrip_split (lstrip s)) as [a [Ea Fa]].
  exists b, a. unfold strip. now rewrite <- Ea.
Qed.

Lemma strip_Forall (P : N -> Prop) (s : str) :
  Forall P s -> Forall P (strip s).
Proof.
  intros H. destruct (strip_split s) as [b [a [E _]]].
  rewrite E in H. apply Forall_app in H. destruct H as [_ H].
  apply Forall_app in H. tauto.
Qed.

Lemma strip_blank (s : str) :
  Forall (fun c => isspace c = true) s -> strip s = [].
Proof.
  intros H. unfold strip.
  assert (E : lstrip s = []).
  { induction H as [|c s Hc _ IH]; simpl; [reflexivity|]. now rewrite Hc. }
  now rewrite E.
Qed.

Lemma sub_spaces_plain (in_run : bool) (s : str) :
  Forall (fun c => isspace c = true -> c = 32%N) (sub_spaces in_run s).
Proof.
  revert in_run. induction s as [|c s IH]; intros in_run; simpl; [constructor|].
  destruct (isspace c) eqn:Ec.
  - destruct in_run; [apply IH|]. constructor; [reflexivity|apply IH].
  - constructor; [congruence|apply IH].
Qed.

Lemma pair_induction (P : str -> Prop) :
  P [] -> (forall a, P [a]) ->
  (forall a b l, P l -> P (b :: l) -> P (a :: b :: l)) ->
  forall l, P l.
Proof.
  intros H0 H1 H2 l.
  assert (H : P l /\ forall a, P (a :: l)); [|tauto].
  induction l as [|b l [IH1 IH2]]; split; auto.
Qed.

Lemma remove_hashes_other (a : N) (s : str) :
  a <> 35%N -> remove_hashes (a :: s) = a :: remove_hashes s.
Proof.
  intros H. simpl. destruct s as [|b s]; [reflexivity|].
  destruct (N.eqb_spec a 35); [contradiction|reflexivity].
Qed.

Lemma remove_hashes_Forall (P : N -> Prop) (s : str) :
  Forall P s -> Forall P (remove_hashes s).
Proof.
  induction s as [| a | a b l IH1 IH2] using pair_induction; intros H.
  - constructor.
  - exact H.
  - inversion H as [|? ? Ha H']; subst. inversion H' as [|? ? Hb H'']; subst.
    change (remove_hashes (a :: b :: l))
      with (if (a =? 35)%N && (b =? 35)%N then remove_hashes l
            else a :: remove_hashes (b :: l)).
    destruct ((a =? 35)%N && (b =? 35)%N); [now apply IH1|].
    constructor; [exact Ha | now apply IH2].
Qed.

Lemma remove_hashes_no_double (s : str) : no_double_hash (remove_hashes s).
Proof.
  induction s as [| a | a b l IH1 IH2] using pair_induction.
  - exact I.
  - exact I.
  - change (remove_hashes (a :: b :: l))
      with (if (a =? 35)%N && (b =? 35)%N then remove_hashes l
            else a :: remove_hashes (b :: l)).
    destruct (N.eqb_spec a 35) as [Ea|Ea]; cbn [andb].
    + destruct (N.eqb_spec b 35) as [Eb|Eb]; [exact IH1|].
      rewrite (remove_hashes_other b l Eb) in *.
      split; [|exact IH2]. intros [_ H]. contradiction.
    + destruct (remove_hashes (b :: l)) as [|x X] eqn:E; [exact I|].
      split; [|exact IH2]. intros [H _]. contradiction.
Qed.

Lemma no_double_hash_app (l1 l2 : str) :
  no_double_hash (l1 ++ l2) -> no_double_hash l1 /\ no_double_hash l2.
Proof.
  induction l1 as [|a l1 IH]; simpl; [tauto|].
  destruct l1 as [|b l1]; simpl in *.
  - destruct l2; tauto.
  - intros [H H']. destruct (IH H') as [A B]. tauto.
Qed.

Lemma strip_no_double_hash (s : str) :
  no_double_hash s -> no_double_hash (strip s).
Proof.
  intros H. destruct (strip_split s) as [b [a [E _]]].
  rewrite E in H. apply no_double_hash_app in H. destruct H as [_ H].
  apply no_double_hash_app in H. tauto.
Qed.

Lemma startswith_nil (s : str) : startswith s [] = true.
Proof. now destruct s. Qed.

Lemma no_double_hash_contains (s : str) :
  no_double_hash s -> contains s (u "##") = false.
Proof.
  induction s as [|a s IH]; intros H; [reflexivity|].
  destruct s as [|b s].
  - simpl. now rewrite andb_false_r.
  - destruct H as [H H']. specialize (IH H').
    change (contains (a :: b :: s) (u "##"))
      with (((35 =? a)%N && ((35 =? b)%N && startswith s []))
            || contains (b :: s) (u "##")).
    rewrite IH, orb_false_r, startswith_nil, andb_true_r.
    destruct (N.eqb_spec 35 a); destruct (N.eqb_spec 35 b); try reflexivity.
    exfalso. apply H. now split.
Qed.

Lemma clean_no_outer_space (text : str) : no_outer_space (clean_entity_text text).
Proof.
  unfold clean_entity_text. destruct text as [|c text].
  - split; [discriminate|]. intros c s' E. now destruct s'.
  - apply strip_no_outer_space.
Qed.

(** X1. Whatever the text, the cleaned word neither starts nor ends
    with white space, every white-space character left in it is a plain
    space, and it contains no '##'. *)
Theorem X1_clean_entity_text_tidy (text : str) :
  no_outer_space (clean_entity_text text)
  /\ Forall (fun c => isspace c = true -> c = 32%N) (clean_entity_text text)
  /\ contains (clean_entity_text text) (u "##") = false.
Proof.
  split; [apply clean_no_outer_space|].
  unfold clean_entity_text. destruct text as [|c text].
  - split; [constructor|reflexivity].
  - split.
    + apply strip_Forall, remove_hashes_Forall, sub_spaces_plain.
    + apply no_double_hash_contains, strip_no_double_hash, remove_hashes_no_double.
Qed.

Lemma clean_blank (text : str) :
  Forall (fun c => isspace c = true) text -> clean_entity_text text = [].
Proof.
  intros H. unfold clean_entity_text. destruct text; [reflexivity|].
  now rewrite (strip_blank _ H).
Qed.

Lemma processed_entities_app round4 (l1 l2 : list RawEntity) :
  processed_entities round4 (l1 ++ l2)
  = processed_entities round4 l1 ++ processed_entities round4 l2.
Proof. unfold processed_entities. apply flat_map_app. Qed.

(** X2. A raw entity whose word consists of white space only (or is
    empty) is dropped: the entities kept are those of the raw entities
    around it. *)
Theorem X2_blank_entity_dropped round4 (before after : list RawEntity)
    (entity : RawEntity) :
  Forall (fun c => isspace c = true) (raw_word entity) ->
  processed_entities round4 (before ++ entity :: after)
  = processed_entities round4 (before ++ after).
Proof.
  intros H. rewrite !processed_entities_app. f_equal.
  unfold processed_entities. simpl. unfold processed_entity.
  now rewrite (clean_blank _ H).
Qed.

End CleanText.

(* ===================================================================== *)
(** ** What the merger and the analysis keep (ner_service.py) *)
(* ===================================================================== *)

Section MergerKeeps.
Import Ner NerService Notions Spec Http.

Lemma merge_spec_Forall (P : Entity -> Prop) :
  (forall a b, P a -> P b -> P (absorb a b)) ->
  forall rest acc, P acc -> Forall P rest -> Forall P (merge_spec acc rest).
Proof.
  intros Habs rest. induction rest as [|next rest IH]; intros acc Ha Hr; simpl.
  - now constructor.
  - inversion Hr as [|? ? Hn Hr']; subst.
    destruct (adjacent acc next).
    + apply IH; [now apply Habs | exact Hr'].
    + constructor; [exact Ha | now apply IH].
Qed.

Lemma merge_Forall (P : Entity -> Prop) (l : list Entity) :
  (forall a b, P a -> P b -> P (absorb a b)) ->
  Forall P l -> Forall P (merge_adjacent_entities l).
Proof.
  intros Habs H. destruct l as [|a l]; [exact H|].
  rewrite merge_as_spec. inversion H; subst. now apply merge_spec_Forall.
Qed.

Lemma final_entities_Forall (P : Entity -> Prop) (l : list Entity) :
  (forall a b, P a -> P b -> P (absorb a b)) ->
  Forall P l -> Forall P (final_entities l).
Proof.
  intros Habs H. unfold final_entities.
  apply (Permutation_Forall (Permutation_sym (sort_by_start_perm _))).
  now apply merge_Forall.
Qed.

Lemma merge_spec_length (rest : list Entity) (acc : Entity) :
  (1 <= length (merge_spec acc rest) <= S (length rest))%nat.
Proof.
  revert acc. induction rest as [|next rest IH]; intros acc; simpl; [lia|].
  destruct (adjacent acc next).
  - specialize (IH (absorb acc next)). lia.
  - specialize (IH next). simpl. lia.
Qed.

Lemma final_entities_length (l : list Entity) :
  (length (final_entities l) <= length l)%nat.
Proof.
  unfold final_entities. rewrite (Permutation_length (sort_by_start_perm _)).
  destruct l as [|a l]; [simpl; lia|].
  rewrite merge_as_spec. pose proof (merge_spec_length l a). simpl. lia.
Qed.

Lemma join_words_absorb (a b : str) (rest : list str) :
  join_words ((a ++ u " " ++ b) :: rest) = a ++ u " " ++ join_words (b :: rest).
Proof.
  destruct rest as [|c rest]; [reflexivity|].
  cbn [join_words]. now rewrite <- !app_assoc.
Qed.

Lemma merge_spec_words (rest : list Entity) (acc : Entity) :
  join_words (map word (merge_spec acc rest))
  = join_words (word acc :: map word rest).
Proof.
  revert acc. induction rest as [|next rest IH]; intros acc; [reflexivity|].
  cbn [merge_spec]. destruct (adjacent acc next).
  - rewrite IH. cbn [absorb word map]. apply join_words_absorb.
  - destruct (merge_spec_head rest next) as [h [t [Eh _]]].
    specialize (IH next). rewrite Eh in *.
    cbn [map join_words] in *. now rewrite IH.
Qed.

(** X3. Merging neither loses nor reorders text, and never adds
    entities: the words of the merged list, joined by single spaces, are
    the words of the given list joined by single spaces; the merged list
    is empty only for the empty list and never longer than the given
    one. *)
Theorem X3_merge_keeps_words (l : list Entity) :
  join_words (map word (merge_adjacent_entities l)) = join_words (map word l)
  /\ (length (merge_adjacent_entities l) <= length l)%nat
  /\ (merge_adjacent_entities l = [] <-> l = []).
Proof.
  destruct l as [|a l].
  - repeat split; auto.
  - rewrite merge_as_spec. split; [apply merge_spec_words|].
    pose proof (merge_spec_length l a) as H. split; [simpl; lia|].
    split; [|discriminate].
    intros E. rewrite E in H. simpl in H. lia.
Qed.

End MergerKeeps.

Section Analysis.
Import Ner NerService Notions Spec Http.

Lemma dict_get_None {V} (k : str) (d : list (str * V)) :
  dict_get k d = None -> ~ In k (map fst d).
Proof.
  induction d as [|[k' v] d IH]; simpl; [tauto|].
  destruct (str_eqb k k') eqn:E; [discriminate|].
  intros H [H'|H']; [|now apply IH].
  subst. now rewrite str_eqb_refl in E.
Qed.

Lemma mapped_group_long (g : str) :
  ~ In (match dict_get g ENTITY_MAPPING with Some g' => g' | None => g end)
       short_codes.
Proof.
  destruct (dict_get g ENTITY_MAPPING) as [g'|] eqn:E.
  - apply dict_get_In in E. intros H. apply mem_In in H.
    simpl in E. destruct E as [E|[E|[E|[E|[]]]]];
      injection E as _ <-; vm_compute in H; discriminate H.
  - now apply dict_get_None.
Qed.

Lemma absorb_presentable (a b : Entity) :
  presentable a -> presentable b -> presentable (absorb a b).
Proof.
  unfold presentable. cbn [absorb word entity_group].
  intros [Na [[Ha _] Ga]] [Nb [[_ Hb] _]].
  split; [|split; [split|exact Ga]].
  - destruct (word a); [contradiction|discriminate].
  - intros c s' E. destruct (word a) as [|c0 w]; [contradiction|].
    injection E as -> _. now apply (Ha c w).
  - intros c s' E.
    destruct (exists_last Nb) as [w' [x Ex]]. rewrite Ex in E.
    rewrite !app_assoc in E. apply app_inj_tail in E. destruct E as [_ ->].
    now apply (Hb c w').
Qed.

Lemma processed_entities_presentable round4 (raw : list RawEntity) :
  Forall presentable (processed_entities round4 raw).
Proof.
  unfold processed_entities. induction raw as [|e raw IH]; simpl; [constructor|].
  apply Forall_app. split; [|exact IH].
  unfold processed_entity.
  destruct (clean_entity_text (raw_word e)) as [|c w] eqn:E; constructor; [|constructor].
  unfold presentable. cbn [word entity_group]. split; [discriminate|].
  split; [|apply mapped_group_long].
  rewrite <- E. apply clean_no_outer_space.
Qed.


Lemma processed_entities_length round4 (raw : list RawEntity) :
  (length (processed_entities round4 raw) <= length raw)%nat.
Proof.
  unfold processed_entities. induction raw as [|e raw IH]; simpl; [lia|].
  rewrite length_app. destruct (processed_entity round4 e); simpl; lia.
Qed.

(** X5. When the model answers, [analyze_entities] returns entities
    that all have a non-empty word without white space at its ends and a
    category that is none of the model's codes PER, LOC, ORG and MISC;
    they are ordered by start, [entity_count] is their number, and they
    are no more than the raw entities of the model. *)
Theorem X5_analyze_entities_result (round4 : float -> float)
    (pipeline : str -> result (list RawEntity)) (text : str)
    (raw : list RawEntity) :
  pipeline text = Ok raw ->
  exists r,
    analyze_entities round4 (Some pipeline) text = Return r
    /\ Forall presentable (entities r)
    /\ Sorted by_start (entities r)
    /\ entity_count r = Z.of_nat (length (entities r))
    /\ (length (entities r) <= length raw)%nat
    /\ text_length r = Z.of_nat (length text).
Proof.
  intros H. unfold analyze_entities. rewrite H. eexists.
  split; [reflexivity|]. cbn [entities entity_count text_length].
  split; [|split; [|split; [|split]]].
  - apply final_entities_Forall; [apply absorb_presentable|].
    apply processed_entities_presentable.
  - apply sort_by_start_sorted.
  - reflexivity.
  - etransitivity; [apply final_entities_length|apply processed_entities_length].
  - reflexivity.
Qed.

Lemma filter_sorted (f : Entity -> bool) (l : list Entity) :
  Sorted by_start l -> Sorted by_start (filter f l).
Proof.
  intros H. apply StronglySorted_Sorted.
  apply Sorted_StronglySorted in H; [|exact by_start_trans].
  induction H as [|a l _ IH Ha]; simpl; [constructor|].
  destruct (f a); [|exact IH].
  constructor; [exact IH|].
  rewrite Forall_forall in *. intros e He. apply filter_In in He.
  apply Ha. tauto.
Qed.

Lemma high_confidence_In (l : list Entity) (m : float) (e : Entity) :
  In e (filter_high_confidence_entities l m)
  <-> In e l /\ float_le m (confidence e) = true.
Proof.
  unfold filter_high_confidence_entities. now rewrite filter_In.
Qed.




(** X7. The high-confidence endpoint, when the model answers, returns
    entities that all reach the threshold, ordered by start; its
    [entity_count] is their number and never exceeds
    [total_entities_found], the count of the plain analysis. *)
Theorem X7_high_confidence_endpoint (round4 : float -> float)
    (pipeline : str -> result (list RawEntity)) (text : str)
    (raw : list RawEntity) (min_confidence : float) :
  pipeline text = Ok raw ->
  exists r all,
    analyze_entities round4 (Some pipeline) text = Return all
    /\ analyze_entities_high_confidence round4 (Some pipeline) text min_confidence
       = Return r
    /\ Forall (fun e => float_le min_confidence (confidence e) = true)
         (high_entities r)
    /\ Sorted by_start (high_entities r)
    /\ high_entity_count r = Z.of_nat (length (high_entities r))
    /\ total_entities_found r = entity_count all
    /\ (high_entity_count r <= total_entities_found r)%Z.
Proof.
  intros H. unfold analyze_entities_high_confidence, analyze_entities.
  rewrite H. eexists. eexists. split; [reflexivity|]. split; [reflexivity|].
  cbn [high_entities high_entity_count total_entities_found entities entity_count].
  split; [|split; [|split; [|split]]].
  - apply Forall_forall. intros e He. now apply high_confidence_In in He.
  - apply filter_sorted, sort_by_start_sorted.
  - reflexivity.
  - reflexivity.
  - unfold filter_high_confidence_entities.
    pose proof (filter_length_le
                  (fun entity => float_le min_confidence (confidence entity))
                  (final_entities (processed_entities round4 raw))).
    lia.
Qed.

End Analysis.

(** Witness of X5: the model returns one raw entity. *)
Lemma X5_analyze_entities_result_witness :
  exists r,
    NerService.analyze_entities (fun q => q)
      (Some (Notions.fixed_pipeline [Notions.president])) (u "text") = Http.Return r
    /\ Forall Notions.presentable (NerService.entities r).
Proof.
  destruct (X5_analyze_entities_result (fun q => q)
              (Notions.fixed_pipeline [Notions.president]) (u "text")
              [Notions.president] eq_refl) as [r [E [P _]]].
  exists r. split; [exact E | exact P].
Defined.


(** Witness of X7: the model returns one raw entity, the threshold is
    0.5. *)
Lemma X7_high_confidence_endpoint_witness :
  exists r,
    NerService.analyze_entities_high_confidence (fun q => q)
      (Some (Notions.fixed_pipeline [Notions.president])) (u "text") (float_literal 0.5)
    = Http.Return r
    /\ (NerService.high_entity_count r <= NerService.total_entities_found r)%Z.
Proof.
  destruct (X7_high_confidence_endpoint (fun q => q)
              (Notions.fixed_pipeline [Notions.president]) (u "text")
              [Notions.president] (float_literal 0.5) eq_refl)
    as [r [all [_ [E [_ [_ [_ [_ L]]]]]]]].
  exists r. split; [exact E | exact L].
Defined.

(* ===================================================================== *)
(** ** Grouping by category (ner_service.py) *)
(* ===================================================================== *)

Section Grouping.
Import Ner NerService Notions Spec Http.

Lemma dict_get_set_other {V} (k k' : str) (v : V) (d : list (str * V)) :
  k' <> k -> dict_get k' (dict_set k v d) = dict_get k' d.
Proof.
  intros Hk. induction d as [|[k0 v0] d IH]; simpl.
  - destruct (str_eqb k' k) eqn:E; [apply str_eqb_eq in E; contradiction|reflexivity].
  - destruct (str_eqb k k0) eqn:E; simpl.
    + apply str_eqb_eq in E. subst k0.
      destruct (str_eqb k' k) eqn:E'; [apply str_eqb_eq in E'; contradiction|reflexivity].
    + now rewrite IH.
Qed.

Lemma dict_set_keys {V} (k : str) (v : V) (d : list (str * V)) :
  map fst (dict_set k v d)
  = match dict_get k d with
    | Some _ => map fst d
    | None => map fst d ++ [k]
    end.
Proof.
  induction d as [|[k0 v0] d IH]; simpl; [reflexivity|].
  destruct (str_eqb k k0) eqn:E; simpl; [reflexivity|].
  rewrite IH. now destruct (dict_get k d).
Qed.

Lemma members_total_set {V} (k : str) (v : list V) (d : list (str * list V)) :
  members_total (dict_set k v d)
  = (members_total d + Z.of_nat (length v)
     - match dict_get k d with
       | Some old => Z.of_nat (length old)
       | None => 0
       end)%Z.
Proof.
  induction d as [|[k0 v0] d IH]; simpl; [lia|].
  destruct (str_eqb k k0) eqn:E; simpl; [lia|]. rewrite IH. lia.
Qed.

(** The members of a category after one iteration of the loop. *)
Lemma group_iter_get (grouped : list (str * list Entity)) (e : Entity) (t : str) :
  dict_get t (group_iter grouped e)
  = if str_eqb (entity_group e) t
    then Some (match dict_get t grouped with Some old => old | None => [] end ++ [e])
    else dict_get t grouped.
Proof.
  unfold group_iter. destruct (str_eqb (entity_group e) t) eqn:E.
  - apply str_eqb_eq in E. subst t. rewrite dict_get_set.
    destruct (dict_get (entity_group e) grouped) eqn:G.
    + now rewrite G.
    + now rewrite dict_get_set.
  - assert (Hne : t <> entity_group e).
    { intros ->. now rewrite str_eqb_refl in E. }
    rewrite dict_get_set_other by exact Hne.
    destruct (dict_get (entity_group e) grouped); [reflexivity|].
    now rewrite dict_get_set_other by exact Hne.
Qed.

Lemma group_iter_total (grouped : list (str * list Entity)) (e : Entity) :
  members_total (group_iter grouped e) = (members_total grouped + 1)%Z.
Proof.
  unfold group_iter. destruct (dict_get (entity_group e) grouped) as [old|] eqn:G.
  - rewrite G, members_total_set, G, length_app. simpl. lia.
  - rewrite dict_get_set, !members_total_set, dict_get_set, G. simpl. lia.
Qed.

Lemma group_iter_keys (grouped : list (str * list Entity)) (e : Entity) :
  NoDup (map fst grouped) -> NoDup (map fst (group_iter grouped e)).
Proof.
  intros H. unfold group_iter.
  destruct (dict_get (entity_group e) grouped) as [old|] eqn:G.
  - now rewrite G, dict_set_keys, G.
  - rewrite dict_get_set, !dict_set_keys, dict_get_set, G.
    apply (Permutation_NoDup (Permutation_cons_append _ _)).
    constructor; [|exact H]. now apply dict_get_None.
Qed.

Lemma group_fold_get (l : list Entity) (grouped : list (str * list Entity)) (t : str) :
  dict_get t (fold_left group_iter l grouped)
  = match filter (fun e => str_eqb (entity_group e) t) l with
    | [] => dict_get t grouped
    | es => Some (match dict_get t grouped with Some old => old | None => [] end ++ es)
    end.
Proof.
  revert grouped. induction l as [|e l IH]; intros grouped; [reflexivity|].
  cbn [fold_left filter]. rewrite IH, group_iter_get.
  destruct (str_eqb (entity_group e) t).
  - destruct (filter _ l); [reflexivity|]. now rewrite <- app_assoc.
  - reflexivity.
Qed.

Lemma group_fold_total (l : list Entity) (grouped : list (str * list Entity)) :
  members_total (fold_left group_iter l grouped)
  = (members_total grouped + Z.of_nat (length l))%Z.
Proof.
  revert grouped. induction l as [|e l IH]; intros grouped; simpl fold_left.
  - simpl. lia.
  - rewrite IH, group_iter_total. simpl length. lia.
Qed.

Lemma group_fold_keys (l : list Entity) (grouped : list (str * list Entity)) :
  NoDup (map fst grouped) -> NoDup (map fst (fold_left group_iter l grouped)).
Proof.
  revert grouped. induction l as [|e l IH]; intros grouped H; simpl; [exact H|].
  now apply IH, group_iter_keys.
Qed.

(** X8. [group_entities_by_type] lists under each category exactly the
    entities of that category, in their order; a category without entity
    has no key, and no category has two keys. *)
Theorem X8_group_entities_by_type (l : list Entity) :
  (forall t,
     dict_get t (group_entities_by_type l)
     = match filter (fun e => str_eqb (entity_group e) t) l with
       | [] => None
       | es => Some es
       end)
  /\ NoDup (map fst (group_entities_by_type l)).
Proof.
  unfold group_entities_by_type. split.
  - intros t. rewrite group_fold_get. reflexivity.
  - apply group_fold_keys. constructor.
Qed.

Lemma statistics_total (grouped : list (str * list Entity)) :
  sumZ (map snd (map (fun item => (fst item, Z.of_nat (length (snd item)))) grouped))
  = members_total grouped.
Proof.
  induction grouped as [|[k v] g IH]; simpl; [reflexivity|]. now rewrite IH.
Qed.

(** X9. In the answer of the grouped endpoint, when the model answers,
    the entity statistics add up to [total_entities], and each category
    of the statistics has the size of its group. *)
Theorem X9_grouped_statistics (round4 : float -> float)
    (pipeline : str -> result (list RawEntity)) (text : str)
    (raw : list RawEntity) :
  pipeline text = Ok raw ->
  exists r,
    analyze_entities_grouped round4 (Some pipeline) text = Return r
    /\ sumZ (map snd (entity_statistics r)) = total_entities r
    /\ forall t es,
         dict_get t (grouped_entities r) = Some es ->
         dict_get t (entity_statistics r) = Some (Z.of_nat (length es)).
Proof.
  intros H. unfold analyze_entities_grouped, analyze_entities. rewrite H.
  eexists. split; [reflexivity|].
  cbn [entity_statistics total_entities grouped_entities entities entity_count].
  split.
  - rewrite statistics_total. unfold group_entities_by_type.
    rewrite group_fold_total. simpl. lia.
  - intros t es. generalize (group_entities_by_type
                               (final_entities (processed_entities round4 raw))).
    intros g. induction g as [|[k v] g IH]; simpl; [discriminate|].
    destruct (str_eqb t k); [now intros [= ->]|exact IH].
Qed.

End Grouping.

(** Witness of X9: the model returns one raw entity. *)
Lemma X9_grouped_statistics_witness :
  exists r,
    NerService.analyze_entities_grouped (fun q => q)
      (Some (Notions.fixed_pipeline [Notions.president])) (u "text") = Http.Return r
    /\ Spec.sumZ (map snd (NerService.entity_statistics r)) = NerService.total_entities r.
Proof.
  destruct (X9_grouped_statistics (fun q => q)
              (Notions.fixed_pipeline [Notions.president]) (u "text")
              [Notions.president] eq_refl) as [r [E [S _]]].
  exists r. split; [exact E | exact S].
Defined.

(* ===================================================================== *)
(** ** The translation service (translation_service.py) *)
(* ===================================================================== *)

Section TranslationService.
Import Translation Http Notions.

Lemma three_valued (french_count english_count : Z) :
  let answer :=
    if (english_count <? french_count)%Z then u "fr"
    else if (french_count <? english_count)%Z then u "en"
    else u "auto" in
  answer = u "fr" \/ answer = u "en" \/ answer = u "auto".
Proof.
  cbv zeta. destruct (_ <? _)%Z; [tauto|]. destruct (_ <? _)%Z; tauto.
Qed.

Lemma service_detection_values (text : str) :
  detect_language text = u "fr" \/ detect_language text = u "en"
  \/ detect_language text = u "auto".
Proof. apply three_valued. Qed.

Lemma view_detection_values (text : str) :
  Views.detect_article_language text = u "fr"
  \/ Views.detect_article_language text = u "en"
  \/ Views.detect_article_language text = u "auto".
Proof. apply three_valued. Qed.

(** The answer for an undetermined source language and a text the
    service does not take for English. *)
Lemma translate_auto (pipeline : str -> str -> result str) (text : str) :
  detect_language text <> u "en" ->
  translate_text (Some pipeline) text (u "auto")
  = match pipeline (u "fr") text with
    | Raise e => HTTPException 500 (u "Translation failed: " ++ str_of_exn e)
    | Ok translated => Return (mkTranslated translated (detect_language text) 0.85)
    end.
Proof.
  intros H. unfold translate_text. rewrite str_eqb_refl.
  destruct (str_eqb (detect_language text) (u "en")) eqn:E;
    [apply str_eqb_eq in E; contradiction|].
  destruct (service_detection_values text) as [D|[D|D]];
    [|contradiction|]; rewrite D; reflexivity.
Qed.

Lemma translate_english (pipeline : str -> str -> result str) (text : str) :
  detect_language text = u "en" ->
  translate_text (Some pipeline) text (u "auto")
  = Return (mkTranslated text (u "en") 1.0).
Proof.
  intros H. unfold translate_text. now rewrite str_eqb_refl, H.
Qed.

Lemma translate_explicit (pipeline : str -> str -> result str)
    (text source_lang : str) :
  source_lang <> u "auto" ->
  translate_text (Some pipeline) text source_lang
  = match pipeline source_lang text with
    | Raise e => HTTPException 500 (u "Translation failed: " ++ str_of_exn e)
    | Ok translated => Return (mkTranslated translated source_lang 0.85)
    end.
Proof.
  intros H. unfold translate_text.
  destruct (str_eqb source_lang (u "auto")) eqn:E;
    [apply str_eqb_eq in E; contradiction|reflexivity].
Qed.

(** X10. With the source language 'auto', a text that the service takes
    for English is returned unchanged with confidence 1, whatever the
    model would do; any other text is translated from French, also when
    the detection is undetermined, and the answer then reports the
    detected value ('fr' or 'auto'). *)
Theorem X10_translate_auto (pipeline : str -> str -> result str) (text : str) :
  (detect_language text = u "en" ->
   translate_text (Some pipeline) text (u "auto")
   = Return (mkTranslated text (u "en") 1.0))
  /\ (detect_language text <> u "en" ->
      translate_text (Some pipeline) text (u "auto")
      = match pipeline (u "fr") text with
        | Raise e => HTTPException 500 (u "Translation failed: " ++ str_of_exn e)
        | Ok translated =>
            Return (mkTranslated translated (detect_language text) 0.85)
        end).
Proof. split; [apply translate_english | apply translate_auto]. Qed.

(** X11. Whatever article text the orchestrator sends with the language
    it detected (which is then not 'en'), the translation service either
    returns the text unchanged as English or answers from the French
    model alone: two models that agree on French give the same answer. *)
Theorem X11_orchestrator_requests_french (p1 p2 : str -> str -> result str)
    (raw : str) :
  Views.detect_article_language raw <> u "en" ->
  p1 (u "fr") raw = p2 (u "fr") raw ->
  translate_text (Some p1) raw (Views.detect_article_language raw)
  = translate_text (Some p2) raw (Views.detect_article_language raw)
  /\ (translate_text (Some p1) raw (Views.detect_article_language raw)
      = Return (mkTranslated raw (u "en") 1.0)
      \/ exists reported,
           translate_text (Some p1) raw (Views.detect_article_language raw)
           = match p1 (u "fr") raw with
             | Raise e => HTTPException 500 (u "Translation failed: " ++ str_of_exn e)
             | Ok translated => Return (mkTranslated translated reported 0.85)
             end).
Proof.
  intros Hl Hp.
  destruct (view_detection_values raw) as [D|[D|D]]; [|contradiction|]; rewrite D.
  - rewrite !translate_explicit by discriminate. rewrite Hp.
    split; [reflexivity|]. right. exists (u "fr"). now rewrite <- Hp.
  - destruct (list_eq_dec N.eq_dec (detect_language raw) (u "en")) as [E|E].
    + rewrite !translate_english by exact E. split; [reflexivity|now left].
    + rewrite !translate_auto by exact E. rewrite Hp.
      split; [reflexivity|]. right. exists (detect_language raw). now rewrite <- Hp.
Qed.

(** X12. The handlers of both services answer a request whose text is
    white space only with status 400 before they look at the model: the
    answer is the same whether the model is loaded or not. *)
Theorem X12_blank_text_rejected (text : str) :
  Forall (fun c => isspace c = true) text ->
  (forall pipeline source_lang,
     translate pipeline text source_lang
     = HTTPException 400 (u "Text cannot be empty"))
  /\ (forall round4 pipeline,
        NerService.analyze_entities_endpoint round4 pipeline text
        = HTTPException 400 (u "Text cannot be empty")).
Proof.
  intros H. split; intros.
  - unfold translate. now rewrite (strip_blank _ H).
  - unfold NerService.analyze_entities_endpoint. now rewrite (strip_blank _ H).
Qed.

End TranslationService.

(** Witness of X10: a text taken for English and an undetermined one. *)
Lemma X10_translate_auto_witness :
  Translation.translate_text (Some Notions.echo_pipeline) (u "the cat") (u "auto")
  = Http.Return (Translation.mkTranslated (u "the cat") (u "en") 1.0)
  /\ Translation.translate_text (Some Notions.echo_pipeline) Spec.short_text (u "auto")
     = Http.Return (Translation.mkTranslated Spec.short_text (u "auto") 0.85).
Proof.
  split.
  - apply (proj1 (X10_translate_auto Notions.echo_pipeline (u "the cat"))).
    reflexivity.
  - assert (H : Translation.detect_language Spec.short_text <> u "en")
      by (vm_compute; discriminate).
    exact (proj2 (X10_translate_auto Notions.echo_pipeline Spec.short_text) H).
Defined.

(** Witness of X11: the text "le chat" and two models that differ
    outside French. *)
Lemma X11_orchestrator_requests_french_witness :
  Translation.translate_text (Some Notions.echo_pipeline) Spec.short_text
    (Views.detect_article_language Spec.short_text)
  = Translation.translate_text (Some Notions.french_only_pipeline) Spec.short_text
      (Views.detect_article_language Spec.short_text).
Proof.
  apply (X11_orchestrator_requests_french Notions.echo_pipeline
           Notions.french_only_pipeline Spec.short_text).
  - vm_compute. discriminate.
  - reflexivity.
Defined.

(** Witness of X12: a text of two spaces. *)
Lemma X12_blank_text_rejected_witness :
  Translation.translate None (u "  ") (u "auto")
  = Http.HTTPException 400 (u "Text cannot be empty").
Proof.
  apply (proj1 (X12_blank_text_rejected (u "  ")
                  ltac:(repeat constructor))).
Defined.

(* ===================================================================== *)
(** ** Normalisation of names (utils.py, views.py) *)
(* ===================================================================== *)

Section Normalisation.
Import Notions.

Lemma lstrip_padded (before s : str) :
  Forall (fun c => isspace c = true) before -> lstrip (before ++ s) = lstrip s.
Proof.
  intros H. induction H as [|c before Hc _ IH]; simpl; [reflexivity|].
  now rewrite Hc.
Qed.

Lemma lstrip_app_word (s after : str) :
  lstrip s <> [] -> lstrip (s ++ after) = lstrip s ++ after.
Proof.
  induction s as [|c s IH]; simpl; [contradiction|].
  destruct (isspace c); [exact IH|reflexivity].
Qed.

Lemma rstrip_padded (s after : str) :
  Forall (fun c => isspace c = true) after -> rstrip (s ++ after) = rstrip s.
Proof.
  intros H. unfold rstrip. rewrite rev_app_distr.
  rewrite lstrip_padded by now apply Forall_rev. reflexivity.
Qed.

Lemma lstrip_blank (s : str) :
  Forall (fun c => isspace c = true) s -> lstrip s = [].
Proof.
  intros H. induction H as [|c s Hc _ IH]; simpl; [reflexivity|]. now rewrite Hc.
Qed.

(** White space around a text does not change what [strip] returns. *)
Lemma strip_padded (before s after : str) :
  Forall (fun c => isspace c = true) before ->
  Forall (fun c => isspace c = true) after ->
  strip (before ++ s ++ after) = strip s.
Proof.
  intros Hb Ha. unfold strip. rewrite lstrip_padded by exact Hb.
  destruct (lstrip s) as [|c t] eqn:E.
  - assert (Hs : Forall (fun c => isspace c = true) s).
    { destruct (lstrip_split s) as [ws [Es Fs]]. rewrite E, app_nil_r in Es.
      now rewrite Es. }
    rewrite lstrip_blank; [reflexivity|].
    apply Forall_app. now split.
  - rewrite lstrip_app_word by (rewrite E; discriminate).
    rewrite E. now apply rstrip_padded.
Qed.

(** X13. The gazetteer lookup and the lookup of the orchestrator do not
    depend on the case of the name nor on white space around it. *)
Theorem X13_lookup_ignores_case_and_padding (name before after : str) :
  Forall (fun c => isspace c = true) before ->
  Forall (fun c => isspace c = true) after ->
  Utils.geocode_location (before ++ name ++ after) = Utils.geocode_location name
  /\ Utils.geocode_location (lower name) = Utils.geocode_location name
  /\ Views.geocode_location (before ++ name ++ after) = Views.geocode_location name
  /\ Views.geocode_location (lower name) = Views.geocode_location name.
Proof.
  intros Hb Ha.
  assert (E1 : strip (lower (before ++ name ++ after)) = strip (lower name)).
  { rewrite (lower_padded before name after Hb Ha). now apply strip_padded. }
  assert (E2 : strip (lower (lower name)) = strip (lower name))
    by now rewrite lower_idempotent.
  unfold Utils.geocode_location, Views.geocode_location.
  rewrite E1, E2. repeat split.
Qed.

(** X14. A name that is empty or consists of white space only is a
    substring of every table key: the gazetteer answers with its first
    entry, the coordinates of Yaounde, while the lookup of the
    orchestrator finds nothing. *)
Theorem X14_blank_name (name : str) :
  Forall (fun c => isspace c = true) name ->
  Utils.geocode_location name = Some (Utils.at_ 3.8480 11.5021)
  /\ Views.geocode_location name = None.
Proof.
  intros H.
  assert (E : strip (lower name) = []).
  { rewrite (lower_blank name H). now apply strip_blank. }
  unfold Utils.geocode_location, Views.geocode_location. rewrite E.
  split; reflexivity.
Qed.

(** X15. The text preview is the text itself up to 200 characters and
    its first 200 characters followed by '...' beyond; it is never longer
    than 203 characters, and the preview of a preview is the preview. *)
Theorem X15_text_preview (text : str) :
  ((length text <= 200)%nat -> Article.text_preview text = text)
  /\ ((200 < length text)%nat ->
      Article.text_preview text = firstn 200 text ++ u "..."
      /\ length (Article.text_preview text) = 203%nat)
  /\ (length (Article.text_preview text) <= 203)%nat
  /\ Article.text_preview (Article.text_preview text) = Article.text_preview text.
Proof.
  unfold Article.text_preview.
  destruct (Z.ltb_spec 200 (Z.of_nat (length text))) as [L|L].
  - assert (E : length (firstn 200 text ++ u "...") = 203%nat).
    { rewrite length_app, length_firstn. simpl length. lia. }
    split; [lia|]. split; [tauto|]. split; [lia|].
    rewrite E. change (200 <? Z.of_nat 203)%Z with true. cbv iota. f_equal.
    rewrite firstn_app, length_firstn, firstn_firstn.
    replace (200 - Nat.min 200 (length text))%nat with 0%nat by lia.
    replace (Nat.min 200 200) with 200%nat by reflexivity.
    apply app_nil_r.
  - split; [reflexivity|]. split; [lia|]. split; [lia|].
    destruct (Z.ltb_spec 200 (Z.of_nat (length text))); [lia|reflexivity].
Qed.

End Normalisation.

(** Witness of X13: "Douala" between a tab and two spaces. *)
Lemma X13_lookup_ignores_case_and_padding_witness :
  Utils.geocode_location ([9%N] ++ u "Douala" ++ u "  ")
  = Utils.geocode_location (u "Douala").
Proof.
  apply (X13_lookup_ignores_case_and_padding (u "Douala") [9%N] (u "  "));
    repeat constructor.
Defined.

(** Witness of X14: a name of one space. *)
Lemma X14_blank_name_witness :
  Utils.geocode_location (u " ") = Some (Utils.at_ 3.8480 11.5021)
  /\ Views.geocode_location (u " ") = None.
Proof.
  apply (X14_blank_name (u " ")). repeat constructor.
Defined.

(** Witness of X15: a text of seven characters. *)
Lemma X15_text_preview_witness :
  Article.text_preview Spec.short_text = Spec.short_text.
Proof.
  apply (proj1 (X15_text_preview Spec.short_text)). vm_compute. lia.
Defined.

(* ===================================================================== *)
(** ** Storing results on the article (models.py) *)
(* ===================================================================== *)

Section ArticleMethods.
Import Models Article Notions Spec.

Lemma results_or_empty (d : dict) :
  (if truthy (JObj d) then d else []) = d.
Proof. now destruct d. Qed.

Lemma add_result_object (fault : nat -> option str) (result_type : str)
    (data : json) (w : World) :
  processed_json (article (snd (add_processing_result fault result_type data w)))
  = dict_set result_type data (processed_json (article w)).
Proof.
  unfold add_processing_result, save_update_fields, bind, update_article,
    db_operation. cbn [article db_ops fst snd].
  destruct (fault _); cbn [snd article]; rewrite json_with_metrics;
    cbn [set_processed_json processed_json]; now rewrite results_or_empty.
Qed.

(** X16. [add_processing_result] stores the data under its key on the
    article object and leaves every other key as it was, whether or not
    the save succeeds.  When the save succeeds the row holds the same
    results and keeps its stage; when it raises the row is unchanged. *)
Theorem X16_add_processing_result (fault : nat -> option str)
    (result_type : str) (data : json) (w : World) :
  let w' := snd (add_processing_result fault result_type data w) in
  dict_get result_type (processed_json (article w')) = Some data
  /\ (forall k, k <> result_type ->
        dict_get k (processed_json (article w'))
        = dict_get k (processed_json (article w)))
  /\ (fault (db_ops w) = None ->
      fst (add_processing_result fault result_type data w) = Ok tt
      /\ processed_json (db_row w') = processed_json (article w')
      /\ processing_status (db_row w') = processing_status (db_row w))
  /\ (forall msg, fault (db_ops w) = Some msg ->
        fst (add_processing_result fault result_type data w)
        = Raise (DatabaseError msg)
        /\ db_row w' = db_row w).
Proof.
  cbv zeta. rewrite add_result_object.
  split; [apply dict_get_set|].
  split; [intros k Hk; now apply dict_get_set_other|].
  unfold add_processing_result, save_update_fields, bind, update_article,
    db_operation. cbn [article db_ops db_row fst snd].
  split.
  - intros H. rewrite H. cbn [fst snd db_row article processed_json
                              processing_status]. repeat split.
    rewrite json_with_metrics. cbn [set_processed_json processed_json].
    now rewrite results_or_empty.
  - intros msg H. rewrite H. cbn [fst snd db_row]. repeat split.
Qed.

(** X17. Once a result has been stored with [add_processing_result],
    [mark_processing_failed] with a non-empty message records the message
    under 'error' and keeps the stored result; the stage is 'failed' on
    the object, and in the row when the second save succeeds. *)
Theorem X17_failure_after_result (fault : nat -> option str)
    (result_type : str) (data : json) (msg : str) (w : World) :
  msg <> [] -> result_type <> u "error" ->
  let w1 := snd (add_processing_result fault result_type data w) in
  let w2 := snd (mark_processing_failed fault (Some msg) w1) in
  dict_get (u "error") (processed_json (article w2)) = Some (JStr msg)
  /\ dict_get result_type (processed_json (article w2)) = Some data
  /\ processing_status (article w2) = failed
  /\ (fault (db_ops w1) = None ->
      processing_status (db_row w2) = failed
      /\ processed_json (db_row w2) = processed_json (article w2)).
Proof.
  intros Hm Ht. cbv zeta.
  set (w1 := snd (add_processing_result fault result_type data w)).
  assert (J : processed_json (article w1)
              = dict_set result_type data (processed_json (article w)))
    by apply add_result_object.
  assert (Hne : processed_json (article w1) <> []).
  { rewrite J. destruct (processed_json (article w)) as [|[k v] d]; simpl;
      [discriminate|]. destruct (str_eqb result_type k); discriminate. }
  assert (F : processed_json (mark_failed_fields (Some msg) (article w1))
              = dict_set (u "error") (JStr msg) (processed_json (article w1))).
  { unfold mark_failed_fields. destruct msg as [|c msg]; [contradiction|].
    cbn [set_processing_status processed_json truthy].
    destruct (processed_json (article w1)); [contradiction|reflexivity]. }
  unfold mark_processing_failed, save_update_fields, bind, update_article,
    db_operation. cbn [article db_ops db_row fst snd].
  destruct (fault (db_ops w1)) eqn:Ef;
    cbn [snd article db_row processed_json processing_status];
    rewrite ?json_with_metrics, ?status_with_metrics, F, mark_failed_status.
  - split; [apply dict_get_set|]. split.
    + rewrite dict_get_set_other by exact Ht. rewrite J. apply dict_get_set.
    + split; [reflexivity|discriminate].
  - split; [apply dict_get_set|]. split.
    + rewrite dict_get_set_other by exact Ht. rewrite J. apply dict_get_set.
    + repeat split.
Qed.

End ArticleMethods.

(* ===================================================================== *)
(** ** Every run of the pipeline (views.py) *)
(* ===================================================================== *)

Section EveryRun.
Import Models Views Spec Notions.

Lemma bind_inv {A B} (c : M A) (k : A -> M B) (w w' : World) (b : B) :
  bind c k w = (Ok b, w') ->
  exists a w1, c w = (Ok a, w1) /\ k a w1 = (Ok b, w').
Proof.
  unfold bind. destruct (c w) as [[a|e] w1]; [|discriminate].
  intros H. now exists a, w1.
Qed.

Lemma db_operation_inv (fault : nat -> option str) (write : World -> World)
    (w w' : World) (r : result unit) :
  db_operation fault write w = (r, w') ->
  (r = Ok tt /\ w' = write (counted w))
  \/ (exists msg, r = Raise (DatabaseError msg) /\ w' = counted w).
Proof.
  unfold db_operation. destruct (fault (db_ops w)) as [msg|]; intros [= <- <-].
  - right. now exists msg.
  - now left.
Qed.

Lemma save_inv (fault : nat -> option str) (w w' : World) (done : unit) :
  save fault w = (Ok done, w') -> w' = saved w.
Proof.
  unfold save. rewrite bind_update. intros H.
  apply db_operation_inv in H. destruct H as [[_ ->]|[msg [H _]]];
    [reflexivity|discriminate].
Qed.

Lemma create_log_inv (fault : nat -> option str) (entry : ProcessingLog)
    (w w' : World) (done : unit) :
  create_log fault entry w = (Ok done, w') -> w' = logged entry w.
Proof.
  unfold create_log. intros H.
  apply db_operation_inv in H. destruct H as [[_ ->]|[msg [H _]]];
    [reflexivity|discriminate].
Qed.

Ltac invert_bind H :=
  let a := fresh "a" in
  let w := fresh "w" in
  let E := fresh "E" in
  apply bind_inv in H; destruct H as [a [w [E H]]].

(** The results of a translation stage that returns. *)
Lemma translation_stage_inv sv raw lang (w w' : World) (res : dict) (txt : json) :
  translation_stage sv raw lang w = (Ok (res, txt), w') ->
  article w' = article w /\ db_row w' = db_row w
  /\ (res = [] \/ exists t, res = [(u "translation", t)])
  /\ (txt = JStr raw
      \/ lang <> u "en"
         /\ exists d, service_result (translation_service sv raw lang) = JObj d
                      /\ dict_get (u "translated_text") d = Some txt).
Proof.
  unfold translation_stage.
  destruct (str_eqb lang (u "en")) eqn:L; cbn [negb].
  - intros [= <- <- <-]. repeat split; eauto.
  - assert (Hl : lang <> u "en").
    { intros ->. now rewrite str_eqb_refl in L. }
    unfold call_translation_service.
    rewrite bind_bind, bind_record_call, bind_ret.
    destruct (truthy (service_result (translation_service sv raw lang))) eqn:T.
    + intros H. invert_bind H. invert_bind H. invert_bind H.
      injection H as <- <- <-.
      apply create_log_inv in E1. subst.
      unfold lift in E, E0. injection E0 as _ <-.
      destruct (service_result (translation_service sv raw lang)) as [| | | | | |d];
        try discriminate E.
      cbn [py_get] in E. injection E as <- <-.
      cbn [logged called article db_row]. repeat split; eauto.
      destruct (dict_get (u "translated_text") d) eqn:G; eauto.
    + intros H. invert_bind H. injection H as <- <- <-.
      apply create_log_inv in E. subst.
      cbn [logged called article db_row]. repeat split; eauto.
Qed.

(** The results of an extraction stage that returns. *)
Lemma extraction_stage_inv sv (res res' : dict) (txt : json) (w w' : World) :
  extraction_stage sv res txt w = (Ok res', w') ->
  res' = res \/ exists n, res' = dict_set (u "entities") n res.
Proof.
  unfold extraction_stage. intros H.
  rewrite bind_update in H. invert_bind H. invert_bind H.
  unfold call_ner_service in H. rewrite bind_bind, bind_record_call, bind_ret in H.
  destruct (truthy (service_result (ner_service sv txt))).
  - repeat invert_bind H. injection H as <- _. eauto.
  - invert_bind H. injection H as <- _. now left.
Qed.

(** X18. Every run of the pipeline leaves the article in stage
    'processed' or 'failed'.  It is 'processed' exactly when the run
    returns the results: these are then the results of the article, on
    the object and in the row, they hold no 'error' key, and the row is
    in stage 'processed' too.  Otherwise the stage is 'failed' and the run
    returns an 'error' dictionary, or raises the database error of its
    last save. *)
Theorem X18_run_ends_processed_or_failed (sv : Services) (a : NewsArticle) :
  (exists results,
     fst (run sv a) = Ok results
     /\ processing_status (article (snd (run sv a))) = processed
     /\ processed_json (article (snd (run sv a))) = results
     /\ dict_get (u "error") results = None
     /\ processed_json (db_row (snd (run sv a))) = results
     /\ processing_status (db_row (snd (run sv a))) = processed)
  \/ (processing_status (article (snd (run sv a))) = failed
      /\ ((exists e,
             fst (run sv a) = Ok [(u "error", JStr (str_of_exn e))]
             /\ processing_status (db_row (snd (run sv a))) = failed)
          \/ exists msg, fst (run sv a) = Raise (DatabaseError msg))).
Proof.
  unfold run, process_article_pipeline, try_except.
  destruct (pipeline_body sv (initial_world a)) as [[results|e] w1] eqn:B.
  - left. exists results. cbn [fst snd]. split; [reflexivity|].
    rewrite pipeline_body_eq in B. unfold pipeline_after_detection in B.
    rewrite bind_update in B. invert_bind B. invert_bind B.
    invert_bind B. destruct a2 as [res txt]. invert_bind B.
    rewrite !bind_update in B. invert_bind B. injection B as <- <-.
    apply save_inv in E3. subst w4.
    cbn [saved updated article db_row fst snd] in *.
    rewrite status_with_metrics, json_with_metrics.
    cbn [set_processing_status set_processed_json processing_status processed_json].
    split; [reflexivity|]. split; [reflexivity|].
    split; [|split; reflexivity].
    apply translation_stage_inv in E1. destruct E1 as [_ [_ [R _]]].
    apply extraction_stage_inv in E2.
    destruct E2 as [->|[n ->]].
    + destruct R as [->|[t ->]]; reflexivity.
    + rewrite dict_get_set_other by discriminate.
      destruct R as [->|[t ->]]; reflexivity.
  - right. unfold mark_processing_failed, save_update_fields.
    rewrite bind_bind, bind_update, bind_bind, bind_update.
    unfold bind, db_operation. cbn [updated db_ops].
    destruct (db_fault sv (db_ops w1)) as [msg|];
      cbn [fst snd article db_row updated processing_status ret];
      rewrite ?status_with_metrics, mark_failed_status.
    + split; [reflexivity|]. right. now exists msg.
    + split; [reflexivity|]. left. exists e. split; reflexivity.
Qed.


(** *** Requests *)

Lemma silent_ret {A} (a : A) : silent (ret a).
Proof. intros w. reflexivity. Qed.

Lemma silent_lift {A} (r : result A) : silent (lift r).
Proof. intros w. reflexivity. Qed.

Lemma silent_get_article : silent get_article.
Proof. intros w. reflexivity. Qed.

Lemma silent_update (f : NewsArticle -> NewsArticle) : silent (update_article f).
Proof. intros w. reflexivity. Qed.

Lemma silent_bind {A B} (c : M A) (k : A -> M B) :
  silent c -> (forall a, silent (k a)) -> silent (bind c k).
Proof.
  intros Hc Hk w. unfold bind. specialize (Hc w).
  destruct (c w) as [[a|e] w1]; cbn [snd] in *; [|exact Hc].
  now rewrite Hk.
Qed.

Lemma silent_db_operation (fault : nat -> option str) (write : World -> World) :
  (forall w, calls (write w) = calls w) -> silent (db_operation fault write).
Proof.
  intros Hw w. unfold db_operation.
  destruct (fault (db_ops w)); cbn [snd]; [reflexivity|now rewrite Hw].
Qed.

Lemma silent_save (fault : nat -> option str) : silent (save fault).
Proof.
  apply silent_bind; [apply silent_update|].
  intros _. now apply silent_db_operation.
Qed.

Lemma silent_save_update_fields (fault : nat -> option str) (b1 b2 : bool) :
  silent (save_update_fields fault b1 b2).
Proof.
  apply silent_bind; [apply silent_update|].
  intros _. now apply silent_db_operation.
Qed.

Lemma silent_create_log (fault : nat -> option str) (entry : ProcessingLog) :
  silent (create_log fault entry).
Proof. now apply silent_db_operation. Qed.

Ltac hush :=
  repeat first
    [ apply silent_ret
    | apply silent_lift
    | apply silent_get_article
    | apply silent_save
    | apply silent_save_update_fields
    | apply silent_create_log
    | apply silent_update
    | apply silent_bind; [|intros ?]
    | match goal with
      | |- silent (if ?b then _ else _) => destruct b
      | |- silent (match ?x with _ => _ end) => destruct x
      end ].

Lemma silent_geocoding_stage sv ner_result : silent (geocoding_stage sv ner_result).
Proof. unfold geocoding_stage. hush. Qed.

Lemma silent_handler sv (e : exn) :
  silent (mark_processing_failed (db_fault sv) (Some (str_of_exn e)) ;;;
          ret [(u "error", JStr (str_of_exn e))]).
Proof. unfold mark_processing_failed. hush. Qed.

Lemma calls_bind {A B} (c : M A) (k : A -> M B) (w : World) :
  calls (snd (bind c k w))
  = match c w with
    | (Ok a, w1) => calls (snd (k a w1))
    | (Raise _, w1) => calls w1
    end.
Proof. unfold bind. now destruct (c w) as [[a|e] w1]. Qed.

Lemma silent_run {A} (c : M A) (w w1 : World) (r : result A) :
  silent c -> c w = (r, w1) -> calls w1 = calls w.
Proof. intros H E. specialize (H w). now rewrite E in H. Qed.

(** The translation stage sends its one request first, when the language
    is not 'en', and nothing else. *)
Lemma translation_stage_calls sv raw lang (w : World) :
  calls (snd (translation_stage sv raw lang w))
  = calls w ++ (if str_eqb lang (u "en") then [] else [TranslateCall raw lang]).
Proof.
  unfold translation_stage. destruct (str_eqb lang (u "en")); cbn [negb].
  - cbn [ret snd]. now rewrite app_nil_r.
  - unfold call_translation_service.
    rewrite bind_bind, bind_record_call, bind_ret.
    match goal with
    | |- calls (snd (?c ?w1)) = _ =>
        assert (S : silent c) by hush;
        etransitivity; [exact (S w1)|reflexivity]
    end.
Qed.

(** The extraction stage sends at most its one request. *)
Lemma extraction_stage_calls sv (res : dict) (txt : json) (w : World) :
  calls (snd (extraction_stage sv res txt w)) = calls w
  \/ calls (snd (extraction_stage sv res txt w)) = calls w ++ [NerCall txt].
Proof.
  unfold extraction_stage. rewrite bind_update, calls_bind.
  destruct (save (db_fault sv) _) as [[done|e] w1] eqn:E1;
    pose proof (silent_run _ _ _ _ (silent_save _) E1) as C1;
    cbn [updated calls] in C1; [|left; exact C1].
  rewrite calls_bind.
  destruct (create_log (db_fault sv) _ w1) as [[done'|e] w2] eqn:E2;
    pose proof (silent_run _ _ _ _ (silent_create_log _ _) E2) as C2;
    [|left; cbn [updated calls] in *; congruence].
  unfold call_ner_service. rewrite bind_bind, bind_record_call, bind_ret.
  right.
  match goal with
  | |- calls (snd (?c ?w3)) = _ =>
      assert (S : silent c) by (hush; apply silent_geocoding_stage);
      etransitivity; [exact (S w3)|]
  end.
  cbn [called calls updated] in *. congruence.
Qed.

Lemma after_detection_calls sv raw lang (w : World) :
  calls w = [] ->
  let request := if str_eqb lang (u "en") then [] else [TranslateCall raw lang] in
  let sent := calls (snd (pipeline_after_detection sv raw lang w)) in
  sent = [] \/ sent = request
  \/ exists text,
       sent = request ++ [NerCall text]
       /\ (text = JStr raw
           \/ lang <> u "en"
              /\ exists d,
                   service_result (translation_service sv raw lang) = JObj d
                   /\ dict_get (u "translated_text") d = Some text).
Proof.
  intros C0. cbv zeta. unfold pipeline_after_detection.
  rewrite bind_update, calls_bind.
  destruct (save (db_fault sv) _) as [[done|e1] w2] eqn:E1;
    pose proof (silent_run _ _ _ _ (silent_save _) E1) as C1;
    cbn [updated calls] in C1; rewrite C0 in C1; [|now left].
  rewrite calls_bind.
  destruct (create_log (db_fault sv) _ w2) as [[done'|e2] w3] eqn:E2;
    pose proof (silent_run _ _ _ _ (silent_create_log _ _) E2) as C2;
    rewrite C1 in C2; [|now left].
  rewrite calls_bind.
  pose proof (translation_stage_calls sv raw lang w3) as T.
  rewrite C2 in T. cbn [app] in T.
  destruct (translation_stage sv raw lang w3) as [[[res txt]|e3] w4] eqn:E3;
    cbn [snd fst] in T; [|right; now left].
  apply translation_stage_inv in E3. destruct E3 as [_ [_ [_ Htxt]]].
  rewrite calls_bind. cbn [fst snd].
  pose proof (extraction_stage_calls sv res txt w4) as X.
  destruct (extraction_stage sv res txt w4) as [[res'|e4] w5] eqn:E4;
    cbn [snd fst] in X.
  - match goal with
    | |- context [calls (snd (?c w5))] =>
        assert (S : silent c) by hush; rewrite (S w5)
    end.
    destruct X as [X|X]; rewrite X, T; [right; now left|].
    right. right. exists txt. now split.
  - destruct X as [X|X]; rewrite X, T; [right; now left|].
    right. right. exists txt. now split.
Qed.

(** X19. A run sends at most one request to each service and never
    repeats one: no translation request when the detected language is
    'en', otherwise at most one, carrying the raw text and the detected
    language and sent before the extraction request; the text sent to
    extraction is the raw text or the 'translated_text' of the
    translation response. *)
Theorem X19_no_request_repeated (sv : Services) (a : NewsArticle) :
  let raw := raw_text a in
  let lang := detect_article_language raw in
  let sent := calls (snd (run sv a)) in
  (lang = u "en" -> sent = [] \/ sent = [NerCall (JStr raw)])
  /\ (lang <> u "en" ->
      sent = [] \/ sent = [TranslateCall raw lang]
      \/ exists text,
           sent = [TranslateCall raw lang; NerCall text]
           /\ (text = JStr raw
               \/ exists d,
                    service_result (translation_service sv raw lang) = JObj d
                    /\ dict_get (u "translated_text") d = Some text)).
Proof.
  cbv zeta.
  pose proof (after_detection_calls sv (raw_text a)
                (detect_article_language (raw_text a))
                (with_language (detect_article_language (raw_text a))
                   (initial_world a)) eq_refl) as H.
  cbv zeta in H.
  assert (E : calls (snd (run sv a))
              = calls (snd (pipeline_after_detection sv (raw_text a)
                              (detect_article_language (raw_text a))
                              (with_language (detect_article_language (raw_text a))
                                 (initial_world a))))).
  { unfold run, process_article_pipeline, try_except.
    rewrite pipeline_body_eq. cbn [initial_world article raw_text].
    destruct (pipeline_after_detection sv _ _ _) as [[results|e] w1];
      [reflexivity|]. apply silent_handler. }
  rewrite E. split; intros Hl.
  - rewrite Hl in H. rewrite Hl. cbn [app] in H.
    change (str_eqb (u "en") (u "en")) with true in H. cbv iota in H.
    destruct H as [H|[H|[text [H Ht]]]]; [now left|now left|].
    right. rewrite H. cbn [app].
    destruct Ht as [->|[Hne _]]; [reflexivity|contradiction].
  - destruct (str_eqb (detect_article_language (raw_text a)) (u "en")) eqn:L;
      [apply str_eqb_eq in L; contradiction|].
    destruct H as [H|[H|[text [H Ht]]]]; [now left|right; now left|].
    right. right. exists text. split; [exact H|].
    destruct Ht as [Ht|[_ Ht]]; [now left|now right].
Qed.


(** *** Properties kept by every statement *)

Lemma invariant_ret {A} (P : World -> Prop) (a : A) : invariant P (ret a).
Proof. intros w H. exact H. Qed.

Lemma invariant_lift {A} (P : World -> Prop) (r : result A) : invariant P (lift r).
Proof. intros w H. exact H. Qed.

Lemma invariant_get_article (P : World -> Prop) : invariant P get_article.
Proof. intros w H. exact H. Qed.

Lemma invariant_bind {A B} (P : World -> Prop) (c : M A) (k : A -> M B) :
  invariant P c -> (forall a, invariant P (k a)) -> invariant P (bind c k).
Proof.
  intros Hc Hk w H. unfold bind. specialize (Hc w H).
  destruct (c w) as [[a|e] w1]; cbn [snd] in *; [now apply Hk | exact Hc].
Qed.

Lemma invariant_try {A} (P : World -> Prop) (c : M A) (h : exn -> M A) :
  invariant P c -> (forall e, invariant P (h e)) -> invariant P (try_except c h).
Proof.
  intros Hc Hh w H. unfold try_except. specialize (Hc w H).
  destruct (c w) as [[a|e] w1]; cbn [snd] in *; [exact Hc | now apply Hh].
Qed.

Lemma invariant_update (P : World -> Prop) (f : NewsArticle -> NewsArticle) :
  (forall w, P w -> P (updated f w)) -> invariant P (update_article f).
Proof. intros Hf w H. now apply Hf. Qed.

Lemma invariant_db_operation (P : World -> Prop) (fault : nat -> option str)
    (write : World -> World) :
  (forall w, P w -> P (counted w)) ->
  (forall w, P w -> P (write (counted w))) ->
  invariant P (db_operation fault write).
Proof.
  intros Hc Hw w H. unfold db_operation.
  destruct (fault (db_ops w)); cbn [snd]; [now apply Hc | now apply Hw].
Qed.

Lemma invariant_record_call (P : World -> Prop) (c : Call) :
  (forall w, P w -> P (called c w)) -> invariant P (record_call c).
Proof. intros Hc w H. now apply Hc. Qed.

Lemma location_with_metrics (a : NewsArticle) : location (with_metrics a) = location a.
Proof. unfold with_metrics. now destruct (raw_text a). Qed.

Lemma location_mark_failed (m : option str) (a : NewsArticle) :
  location (mark_failed_fields m a) = location a.
Proof.
  unfold mark_failed_fields. destruct (_ && _); [destruct m|]; reflexivity.
Qed.

Ltac keep_with special side :=
  repeat first
    [ special
    | apply invariant_ret
    | apply invariant_lift
    | apply invariant_get_article
    | apply invariant_update; side
    | apply invariant_db_operation; side
    | apply invariant_record_call; side
    | apply invariant_bind; [|intros ?]
    | apply invariant_try; [|intros ?]
    | match goal with
      | |- invariant _ (if ?b then _ else _) => destruct b
      | |- invariant _ (match ?x with _ => _ end) => destruct x
      end ].

Ltac keep side := keep_with fail side.

Ltac located_side :=
  let w := fresh "w" in
  let A := fresh "A" in
  let B := fresh "B" in
  let C := fresh "C" in
  intros w [A [B C]]; unfold located_at;
  cbn [updated counted called article db_row logs location
       set_processing_status set_processed_json set_entity_count set_language];
  rewrite ?location_with_metrics, ?location_mark_failed;
  repeat split; try assumption;
  try (apply Forall_app; split; [assumption|repeat constructor]).

(** With a location at hand, step 4 sets nothing and logs nothing. *)
Lemma located_geocoding_stage (p : Point) sv ner_result :
  invariant (located_at p) (geocoding_stage sv ner_result).
Proof.
  unfold geocoding_stage.
  apply invariant_bind; [apply invariant_lift|intros entities].
  apply invariant_bind; [apply invariant_lift|intros found].
  intros w H. unfold bind, get_article.
  destruct H as [A [B C]]. rewrite A.
  destruct found; cbn [snd ret]; now repeat split.
Qed.

Lemma located_after_detection (p : Point) sv raw lang :
  invariant (located_at p) (pipeline_after_detection sv raw lang).
Proof.
  unfold pipeline_after_detection, translation_stage, extraction_stage,
    call_translation_service, call_ner_service, save, create_log.
  keep_with ltac:(apply located_geocoding_stage) located_side.
Qed.

Lemma located_handler (p : Point) sv (e : exn) :
  invariant (located_at p)
    (mark_processing_failed (db_fault sv) (Some (str_of_exn e)) ;;;
     ret [(u "error", JStr (str_of_exn e))]).
Proof.
  unfold mark_processing_failed, save_update_fields. keep located_side.
Qed.

(** X20. An article that already has a location keeps it through every
    run, on the object and in the row, whatever the services answer and
    wherever the storage layer raises; no geocoding entry is logged. *)
Theorem X20_location_never_overwritten (sv : Services) (a : NewsArticle)
    (p : Point) :
  location a = Some p ->
  location (article (snd (run sv a))) = Some p
  /\ location (db_row (snd (run sv a))) = Some p
  /\ Forall (fun entry => is_geocoding entry = false) (logs (snd (run sv a))).
Proof.
  intros H.
  assert (I0 : located_at p
                 (with_language (detect_article_language (raw_text a))
                    (initial_world a))).
  { repeat split; try exact H. constructor. }
  change (located_at p (snd (run sv a))).
  unfold run, process_article_pipeline, try_except. rewrite pipeline_body_eq.
  pose proof (located_after_detection p sv (raw_text a)
                (detect_article_language (raw_text a)) _ I0) as I1.
  cbn [initial_world article raw_text] in *.
  destruct (pipeline_after_detection sv _ _ _) as [[results|e] w1];
    cbn [snd] in *; [exact I1|].
  now apply located_handler.
Qed.

Lemma measured_with_metrics (raw : str) (a : NewsArticle) :
  raw <> [] -> raw_text a = raw ->
  raw_text (with_metrics a) = raw
  /\ content_length (with_metrics a) = Some (Z.of_nat (length raw))
  /\ word_count (with_metrics a) = Some (Z.of_nat (length (split raw))).
Proof.
  intros Hn Ha. unfold with_metrics. rewrite Ha.
  destruct raw as [|c raw]; [contradiction|].
  cbn [raw_text content_length word_count]. repeat split.
Qed.

Lemma raw_text_mark_failed (m : option str) (a : NewsArticle) :
  raw_text (mark_failed_fields m a) = raw_text a
  /\ content_length (mark_failed_fields m a) = content_length a
  /\ word_count (mark_failed_fields m a) = word_count a.
Proof.
  unfold mark_failed_fields. destruct (_ && _); [destruct m|]; repeat split.
Qed.

Lemma measured_metrics (raw : str) :
  raw <> [] ->
  forall w, measured raw w -> measured raw (updated with_metrics w).
Proof. intros Hn w [A _]. now apply measured_with_metrics. Qed.

Lemma measured_failed (raw : str) (m : option str) :
  forall w, measured raw w -> measured raw (updated (mark_failed_fields m) w).
Proof.
  intros w [A [B C]]. unfold measured. cbn [updated article].
  destruct (raw_text_mark_failed m (article w)) as [E1 [E2 E3]].
  repeat split; congruence.
Qed.

Ltac measured_side Hn :=
  first
    [ apply (measured_metrics _ Hn)
    | apply measured_failed
    | let w := fresh "w" in
      let A := fresh "A" in
      let B := fresh "B" in
      let C := fresh "C" in
      intros w [A [B C]]; repeat split; assumption ].

Lemma measured_geocoding_stage (raw : str) sv ner_result :
  raw <> [] -> invariant (measured raw) (geocoding_stage sv ner_result).
Proof.
  intros Hn. unfold geocoding_stage, create_log. keep ltac:(measured_side Hn).
Qed.

Lemma measured_rest (raw : str) sv lang :
  raw <> [] ->
  invariant (measured raw)
    (db_operation (db_fault sv)
       (fun w => mkWorld (article w) (article w) (logs w) (calls w) (db_ops w)) ;;;
     create_log (db_fault sv)
       (mkLog translation log_started (DetectedLanguage lang) None) ;;;
     staged <- translation_stage sv raw lang ;;
     results <- extraction_stage sv (fst staged) (snd staged) ;;
     update_article (set_processed_json results) ;;;
     update_article (set_processing_status processed) ;;;
     save (db_fault sv) ;;;
     ret results).
Proof.
  intros Hn.
  unfold translation_stage, extraction_stage,
    call_translation_service, call_ner_service, save, create_log.
  keep_with ltac:(apply (measured_geocoding_stage raw sv _ Hn))
            ltac:(measured_side Hn).
Qed.

Lemma measured_handler (raw : str) sv (e : exn) :
  raw <> [] ->
  invariant (measured raw)
    (mark_processing_failed (db_fault sv) (Some (str_of_exn e)) ;;;
     ret [(u "error", JStr (str_of_exn e))]).
Proof.
  intros Hn. unfold mark_processing_failed, save_update_fields.
  keep ltac:(measured_side Hn).
Qed.

(** X21. After every run of an article with a non-empty raw text, the
    object still holds that raw text, [content_length] is its number of
    characters and [word_count] its number of white-space separated words,
    whatever the services answer and wherever the storage layer raises. *)
Theorem X21_content_metrics (sv : Services) (a : NewsArticle) :
  raw_text a <> [] ->
  raw_text (article (snd (run sv a))) = raw_text a
  /\ content_length (article (snd (run sv a)))
     = Some (Z.of_nat (length (raw_text a)))
  /\ word_count (article (snd (run sv a)))
     = Some (Z.of_nat (length (split (raw_text a)))).
Proof.
  intros Hn. change (measured (raw_text a) (snd (run sv a))).
  unfold run, process_article_pipeline, try_except. rewrite pipeline_body_eq.
  unfold pipeline_after_detection, save at 1.
  rewrite bind_update, bind_bind, bind_update.
  cbn [initial_world article raw_text].
  match goal with
  | |- measured _ (snd (match ?c ?w1 with _ => _ end)) =>
      assert (I1 : measured (raw_text a) (snd (c w1)));
      [ apply (measured_rest (raw_text a) sv _ Hn);
        apply (measured_with_metrics _ _ Hn); reflexivity
      | destruct (c w1) as [[results|e] w2]; cbn [snd] in * ]
  end.
  - exact I1.
  - now apply measured_handler.
Qed.

End EveryRun.

(* ===================================================================== *)
(** ** Runs on a storage layer that does not raise (views.py) *)
(* ===================================================================== *)

Section QuietStorage.
Import Models Views Spec Notions.

Ltac advance Hf :=
  repeat (cbv beta;
          first [ rewrite bind_bind
                | rewrite bind_update
                | rewrite bind_save by apply Hf
                | rewrite bind_create_log by apply Hf
                | rewrite bind_record_call
                | rewrite bind_ret
                | rewrite bind_lift_ok ]).

(** The translation stage returns when the language is 'en' or the
    service keeps its contract; it does not touch the article. *)
Lemma translation_stage_returns sv raw lang (w : World) :
  no_fault sv ->
  lang = u "en"
  \/ translation_contract (service_result (translation_service sv raw lang)) = true ->
  exists staged w2,
    translation_stage sv raw lang w = (Ok staged, w2)
    /\ article w2 = article w
    /\ (forall entry, In entry (logs w) -> In entry (logs w2))
    /\ filter is_geocoding (logs w2) = filter is_geocoding (logs w).
Proof.
  intros Hf H. unfold translation_stage.
  destruct (str_eqb lang (u "en")) eqn:L; cbn [negb].
  - eexists. eexists. split; [reflexivity|]. repeat split; auto.
  - destruct H as [->|H]; [now rewrite str_eqb_refl in L|].
    unfold call_translation_service. advance Hf.
    unfold translation_contract in H.
    destruct (truthy (service_result (translation_service sv raw lang))) eqn:T.
    + destruct (service_result (translation_service sv raw lang)) as [| | | | | |d];
        try discriminate H.
      cbn [py_get]. advance Hf. eexists. eexists. split; [reflexivity|].
      cbn [logged called article logs]. repeat split.
      * intros entry He. apply in_or_app. now left.
      * rewrite filter_app. cbn. apply app_nil_r.
    + advance Hf. eexists. eexists. split; [reflexivity|].
      cbn [logged called article logs]. repeat split.
      * intros entry He. apply in_or_app. now left.
      * rewrite filter_app. cbn. apply app_nil_r.
Qed.

Lemma entity_count_with_metrics (a : NewsArticle) :
  entity_count (with_metrics a) = entity_count a.
Proof. unfold with_metrics. now destruct (raw_text a). Qed.

(** The extraction stage when the service gives nothing. *)
Lemma extraction_stage_unavailable sv (res : dict) (txt : json) (w : World) :
  no_fault sv ->
  truthy (service_result (ner_service sv txt)) = false ->
  extraction_stage sv res txt w
  = (Ok res,
     logged (mkLog ner_extraction log_failed NerUnavailable None)
       (called (NerCall txt)
          (logged (mkLog ner_extraction log_started StartingExtraction None)
             (saved (updated (set_processing_status extracting_entities) w))))).
Proof.
  intros Hf Ht. unfold extraction_stage, call_ner_service. advance Hf.
  rewrite Ht. now advance Hf.
Qed.

(** The extraction stage when the first LOCATION entity of the answer
    carries the name [name] and the article has no location yet. *)
Lemma extraction_stage_locates sv (res d : dict) (txt : json) (w : World)
    (items : list json) (first : json) (others : list json) (name : str) :
  no_fault sv ->
  service_result (ner_service sv txt) = JObj d ->
  dict_get (u "entities") d = Some (JArr items) ->
  select_locations items = Ok (first :: others) ->
  word_of first = Ok (JStr name) ->
  location (article w) = None ->
  exists w3,
    extraction_stage sv res txt w = (Ok (dict_set (u "entities") (JObj d) res), w3)
    /\ location (article w3)
       = match Views.geocode_location name with
         | Some c => Some (mkPoint (Utils.longitude c) (Utils.latitude c))
         | None => None
         end
    /\ filter is_geocoding (logs w3)
       = filter is_geocoding (logs w)
         ++ match Views.geocode_location name with
            | Some _ => [mkLog geocoding log_completed
                           (GeocodedLocation (JStr name)) None]
            | None => []
            end.
Proof.
  intros Hf Hr He Hs Hw Hl. unfold extraction_stage, call_ner_service.
  advance Hf. rewrite Hr.
  assert (Hd : truthy (JObj d) = true).
  { destruct d; [discriminate He|reflexivity]. }
  rewrite Hd. cbn [py_get]. advance Hf.
  unfold geocoding_stage. cbn [py_get]. rewrite He. advance Hf.
  cbn [location_entities_of]. rewrite Hs. advance Hf.
  unfold bind at 1, get_article.
  cbn [logged updated called saved article].
  cbn [set_entity_count location]. rewrite location_with_metrics.
  cbn [set_processing_status location]. rewrite Hl.
  rewrite Hw. advance Hf. cbn [geocode_value]. advance Hf.
  destruct (Views.geocode_location name) as [c|].
  - advance Hf. eexists. split; [reflexivity|].
    cbn [logged updated called saved article logs set_coordinates location].
    split; [reflexivity|].
    rewrite !filter_app. cbn. now rewrite !app_nil_r.
  - eexists. split; [reflexivity|].
    cbn [logged updated called saved article logs set_entity_count location].
    rewrite location_with_metrics. cbn [set_processing_status location].
    split; [exact Hl|].
    rewrite !filter_app. cbn. now rewrite !app_nil_r.
Qed.


Lemma first_world_location (a : NewsArticle) (l : str) (entry : ProcessingLog) :
  location (article (logged entry
     (saved (updated (set_processing_status translating)
        (with_language l (initial_world a)))))) = location a.
Proof.
  cbn [logged saved updated with_language initial_world article].
  now rewrite location_with_metrics.
Qed.

Lemma first_world_entity_count (a : NewsArticle) (l : str) (entry : ProcessingLog) :
  entity_count (article (logged entry
     (saved (updated (set_processing_status translating)
        (with_language l (initial_world a)))))) = entity_count a.
Proof.
  cbn [logged saved updated with_language initial_world article].
  now rewrite entity_count_with_metrics.
Qed.

Lemma coordinates_of_point (found : option Utils.Coordinates) (a : NewsArticle) :
  location a
  = match found with
    | Some c => Some (mkPoint (Utils.longitude c) (Utils.latitude c))
    | None => None
    end ->
  Article.get_coordinates a = found.
Proof.
  intros H. unfold Article.get_coordinates. rewrite H.
  destruct found as [[lat lon]|]; reflexivity.
Qed.

Lemma translation_stage_results sv raw lang (w w2 : World) (staged : dict * json) :
  translation_stage sv raw lang w = (Ok staged, w2) ->
  dict_get (u "entities") (fst staged) = None.
Proof.
  destruct staged as [res txt]. intros E.
  apply translation_stage_inv in E.
  destruct E as [_ [_ [[->|[t ->]] _]]]; reflexivity.
Qed.

(** The translation stage of a run, from the world in which it starts. *)
Lemma first_stage_returns sv (a : NewsArticle) :
  no_fault sv ->
  detect_article_language (raw_text a) = u "en"
  \/ translation_contract
       (service_result
          (translation_service sv (raw_text a)
             (detect_article_language (raw_text a)))) = true ->
  exists staged w2,
    translation_stage sv (raw_text a) (detect_article_language (raw_text a))
      (logged (mkLog translation log_started
                 (DetectedLanguage (detect_article_language (raw_text a))) None)
         (saved (updated (set_processing_status translating)
            (with_language (detect_article_language (raw_text a))
               (initial_world a)))))
    = (Ok staged, w2)
    /\ location (article w2) = location a
    /\ entity_count (article w2) = entity_count a
    /\ filter is_geocoding (logs w2) = []
    /\ dict_get (u "entities") (fst staged) = None.
Proof.
  intros Hf Ht.
  destruct (translation_stage_returns sv (raw_text a)
              (detect_article_language (raw_text a))
              (logged (mkLog translation log_started
                 (DetectedLanguage (detect_article_language (raw_text a))) None)
                 (saved (updated (set_processing_status translating)
                    (with_language (detect_article_language (raw_text a))
                       (initial_world a)))))
              Hf Ht)
    as [staged [w2 [E2 [A2 [_ G2]]]]].
  exists staged, w2. split; [exact E2|].
  rewrite A2, G2, first_world_location, first_world_entity_count.
  repeat split. exact (translation_stage_results _ _ _ _ _ _ E2).
Qed.

(** X22. On a storage layer that does not raise and with a translation
    stage that does not raise, an article without a location whose
    extraction response lists LOCATION entities is geocoded from the first
    of them alone: [get_coordinates] of the article then answers what
    [geocode_location] answers for that word (nothing when the word is
    unknown, whatever the other entities are), the row has the same
    location, the run ends 'processed', and a geocoding entry is logged
    exactly when the word was resolved. *)
Theorem X22_first_location_geocoded (sv : Services) (a : NewsArticle)
    (d : dict) (items : list json) (first : json) (others : list json)
    (name : str) :
  no_fault sv ->
  location a = None ->
  detect_article_language (raw_text a) = u "en"
  \/ translation_contract
       (service_result
          (translation_service sv (raw_text a)
             (detect_article_language (raw_text a)))) = true ->
  (forall text, service_result (ner_service sv text) = JObj d) ->
  dict_get (u "entities") d = Some (JArr items) ->
  select_locations items = Ok (first :: others) ->
  word_of first = Ok (JStr name) ->
  let w := snd (run sv a) in
  processing_status (article w) = processed
  /\ Article.get_coordinates (article w) = Views.geocode_location name
  /\ location (db_row w) = location (article w)
  /\ filter is_geocoding (logs w)
     = match Views.geocode_location name with
       | Some _ => [mkLog geocoding log_completed (GeocodedLocation (JStr name)) None]
       | None => []
       end.
Proof.
  intros Hf Hl Ht Hr He Hs Hw.
  destruct (first_stage_returns sv a Hf Ht)
    as [staged [w2 [E2 [L2 [_ [G2 _]]]]]].
  rewrite Hl in L2.
  destruct (extraction_stage_locates sv (fst staged) d (snd staged) w2 items
              first others name Hf (Hr _) He Hs Hw L2)
    as [w3 [E3 [P3 G3]]].
  cbv zeta. rewrite (run_returns sv a staged _ w2 w3 Hf E2 E3).
  cbn [snd saved updated article db_row logs].
  rewrite status_with_metrics. cbn [set_processing_status processing_status].
  split; [reflexivity|]. split.
  - apply coordinates_of_point. rewrite location_with_metrics.
    cbn [set_processing_status set_processed_json location]. exact P3.
  - split; [reflexivity|]. rewrite G3, G2. reflexivity.
Qed.

(** X23. When the extraction service gives nothing (no response, a status
    other than 200, or an empty body), a run that does not raise still
    ends 'processed': the entity count and the location stay as they
    were, the results have no 'entities' key, so the property [entities]
    is the empty list, and the failure is logged. *)
Theorem X23_extraction_unavailable (sv : Services) (a : NewsArticle) :
  no_fault sv ->
  detect_article_language (raw_text a) = u "en"
  \/ translation_contract
       (service_result
          (translation_service sv (raw_text a)
             (detect_article_language (raw_text a)))) = true ->
  (forall text, truthy (service_result (ner_service sv text)) = false) ->
  let w := snd (run sv a) in
  processing_status (article w) = processed
  /\ entity_count (article w) = entity_count a
  /\ location (article w) = location a
  /\ dict_get (u "entities") (processed_json (article w)) = None
  /\ Article.entities (article w) = Ok (JArr [])
  /\ In (mkLog ner_extraction log_failed NerUnavailable None) (logs w).
Proof.
  intros Hf Ht Hn.
  destruct (first_stage_returns sv a Hf Ht)
    as [staged [w2 [E2 [L2 [C2 [_ R]]]]]].
  pose proof (extraction_stage_unavailable sv (fst staged) (snd staged) w2 Hf
                (Hn _)) as E3.
  cbv zeta. rewrite (run_returns sv a staged _ w2 _ Hf E2 E3).
  cbn [snd saved updated logged called article db_row logs].
  rewrite status_with_metrics, entity_count_with_metrics, location_with_metrics.
  unfold Article.entities. rewrite json_with_metrics.
  cbn [set_processing_status set_processed_json processing_status entity_count
       location processed_json].
  rewrite entity_count_with_metrics, location_with_metrics.
  cbn [set_processing_status entity_count location].
  rewrite L2, C2, R.
  repeat split; try reflexivity.
  apply in_or_app. right. now left.
Qed.

(** X24. An article detected as English is never sent to the translation
    service: on a storage layer that does not raise and with an
    extraction service that keeps its contract, the only request is the
    extraction of the raw text, and the property [translated_text] of the
    processed article is the raw text itself. *)
Theorem X24_english_article (sv : Services) (a : NewsArticle) :
  no_fault sv ->
  detect_article_language (raw_text a) = u "en" ->
  ner_contract (service_result (ner_service sv (JStr (raw_text a)))) = true ->
  let w := snd (run sv a) in
  calls w = [NerCall (JStr (raw_text a))]
  /\ processing_status (article w) = processed
  /\ Article.translated_text (article w) = Ok (JStr (raw_text a))
  /\ language (article w) = u "en".
Proof.
  intros Hf Hl Hc.
  pose (w1 := logged (mkLog translation log_started
                 (DetectedLanguage (detect_article_language (raw_text a))) None)
                (saved (updated (set_processing_status translating)
                   (with_language (detect_article_language (raw_text a))
                      (initial_world a))))).
  pose (res := dict_set (u "translation")
                 (JObj [ (u "translated_text", JStr (raw_text a));
                         (u "detected_language", JStr (u "en"));
                         (u "processing_time", JFloat 0) ]) []).
  assert (E2 : translation_stage sv (raw_text a)
                 (detect_article_language (raw_text a)) w1
               = (Ok (res, JStr (raw_text a)), w1)).
  { unfold translation_stage. rewrite Hl. reflexivity. }
  destruct (extraction_stage_returns sv res (JStr (raw_text a)) w1 Hf Hc)
    as [w3 [E3 C3]].
  pose proof (advances_extraction_stage sv res (JStr (raw_text a)) w1) as [A3 _].
  rewrite E3 in A3. cbn [snd] in A3.
  cbv zeta. rewrite (run_returns sv a (res, JStr (raw_text a)) _ w1 w3 Hf E2 E3).
  cbn [snd saved updated article calls].
  rewrite C3. split; [reflexivity|].
  rewrite status_with_metrics. split; [reflexivity|].
  unfold Article.translated_text. rewrite json_with_metrics.
  cbn [set_processing_status set_processed_json processed_json].
  split.
  - destruct (truthy (service_result (ner_service sv (JStr (raw_text a))))).
    + rewrite dict_get_set_other by (vm_compute; discriminate). reflexivity.
    + reflexivity.
  - rewrite language_with_metrics.
    cbn [set_processing_status set_processed_json language].
    rewrite A3. unfold w1.
    cbn [logged saved updated with_language initial_world article].
    rewrite language_with_metrics. cbn [set_processing_status set_language language].
    exact Hl.
Qed.

End QuietStorage.

(* ===================================================================== *)
(** ** Examples of the properties above *)
(* ===================================================================== *)

(** Witness of X2: a white-space word after "Paul Biya". *)
Lemma X2_blank_entity_dropped_witness :
  NerService.processed_entities (fun q => q)
    [Notions.president; Notions.blank_entity]
  = NerService.processed_entities (fun q => q) [Notions.president].
Proof.
  apply (X2_blank_entity_dropped (fun q => q) [Notions.president] []
           Notions.blank_entity).
  repeat constructor.
Defined.

(** Witness of X16: a translation added to a new article. *)
Lemma X16_add_processing_result_witness :
  dict_get (u "translation")
    (Models.processed_json
       (Models.article
          (snd (Models.add_processing_result (fun _ => None) (u "translation")
                  (JStr (u "the cat"))
                  (Views.initial_world (Spec.new_article Spec.short_text))))))
  = Some (JStr (u "the cat"))
  /\ fst (Models.add_processing_result (fun _ => None) (u "translation")
            (JStr (u "the cat"))
            (Views.initial_world (Spec.new_article Spec.short_text)))
     = Ok tt.
Proof.
  pose proof (X16_add_processing_result (fun _ => None) (u "translation")
                (JStr (u "the cat"))
                (Views.initial_world (Spec.new_article Spec.short_text))) as H.
  cbv zeta in H. destruct H as [A [_ [B _]]].
  split; [exact A | exact (proj1 (B eq_refl))].
Defined.

(** Witness of X17: a failure "boom" after a translation was added. *)
Lemma X17_failure_after_result_witness :
  dict_get (u "error")
    (Models.processed_json
       (Models.article
          (snd (Models.mark_processing_failed (fun _ => None) (Some (u "boom"))
                  (snd (Models.add_processing_result (fun _ => None)
                          (u "translation") (JStr (u "the cat"))
                          (Views.initial_world
                             (Spec.new_article Spec.short_text))))))))
  = Some (JStr (u "boom"))
  /\ dict_get (u "translation")
       (Models.processed_json
          (Models.article
             (snd (Models.mark_processing_failed (fun _ => None) (Some (u "boom"))
                     (snd (Models.add_processing_result (fun _ => None)
                             (u "translation") (JStr (u "the cat"))
                             (Views.initial_world
                                (Spec.new_article Spec.short_text))))))))
     = Some (JStr (u "the cat")).
Proof.
  assert (Hm : u "boom" <> []) by (vm_compute; discriminate).
  assert (Hr : u "translation" <> u "error") by (vm_compute; discriminate).
  pose proof (X17_failure_after_result (fun _ => None) (u "translation")
                (JStr (u "the cat")) (u "boom")
                (Views.initial_world (Spec.new_article Spec.short_text)) Hm Hr) as H.
  cbv zeta in H. destruct H as [A [B _]].
  split; [exact A | exact B].
Defined.

(** Witness of X19: services down, the text "le chat". *)
Lemma X19_no_request_repeated_witness :
  Models.calls (snd (Views.run Spec.services_down (Spec.new_article Spec.short_text)))
  = []
  \/ Models.calls (snd (Views.run Spec.services_down (Spec.new_article Spec.short_text)))
     = [Models.TranslateCall Spec.short_text
          (Views.detect_article_language Spec.short_text)]
  \/ exists text,
       Models.calls
         (snd (Views.run Spec.services_down (Spec.new_article Spec.short_text)))
       = [Models.TranslateCall Spec.short_text
            (Views.detect_article_language Spec.short_text);
          Models.NerCall text]
       /\ (text = JStr Spec.short_text
           \/ exists d,
                Views.service_result
                  (Views.translation_service Spec.services_down Spec.short_text
                     (Views.detect_article_language Spec.short_text)) = JObj d
                /\ dict_get (u "translated_text") d = Some text).
Proof.
  assert (Hl : Views.detect_article_language
                 (Models.raw_text (Spec.new_article Spec.short_text)) <> u "en")
    by (vm_compute; discriminate).
  exact (proj2 (X19_no_request_repeated Spec.services_down
                  (Spec.new_article Spec.short_text)) Hl).
Defined.

(** Witness of X20: an article located at (1, 2) whose text names
    Douala. *)
Lemma X20_location_never_overwritten_witness :
  Models.location
    (Models.article
       (snd (Views.run
               (Notions.services_finding [Notions.found (u "Douala") (u "LOCATION")])
               (Notions.located_article Spec.short_text (Models.mkPoint 1 2)))))
  = Some (Models.mkPoint 1 2).
Proof.
  exact (proj1 (X20_location_never_overwritten
                  (Notions.services_finding
                     [Notions.found (u "Douala") (u "LOCATION")])
                  (Notions.located_article Spec.short_text (Models.mkPoint 1 2))
                  (Models.mkPoint 1 2) eq_refl)).
Defined.

(** Witness of X21: "le chat" has 7 characters and 2 words. *)
Lemma X21_content_metrics_witness :
  Models.content_length
    (Models.article
       (snd (Views.run Spec.services_down (Spec.new_article Spec.short_text))))
  = Some 7%Z
  /\ Models.word_count
       (Models.article
          (snd (Views.run Spec.services_down (Spec.new_article Spec.short_text))))
     = Some 2%Z.
Proof.
  assert (Hn : Models.raw_text (Spec.new_article Spec.short_text) <> [])
    by (vm_compute; discriminate).
  destruct (X21_content_metrics Spec.services_down
              (Spec.new_article Spec.short_text) Hn) as [_ [A B]].
  split; [exact A | exact B].
Defined.

(** Witness of X22: a person, then " DOUALA ", then an unknown place. *)
Lemma X22_first_location_geocoded_witness :
  Article.get_coordinates
    (Models.article
       (snd (Views.run
               (Notions.services_finding
                  [ Notions.found (u "Paul Biya") (u "PERSON");
                    Notions.found (u " DOUALA ") (u "LOCATION");
                    Notions.found (u "Atlantis") (u "LOCATION") ])
               (Spec.new_article Spec.short_text))))
  = Some (Utils.at_ 4.0511 9.7679).
Proof.
  pose proof (X22_first_location_geocoded
                (Notions.services_finding
                   [ Notions.found (u "Paul Biya") (u "PERSON");
                     Notions.found (u " DOUALA ") (u "LOCATION");
                     Notions.found (u "Atlantis") (u "LOCATION") ])
                (Spec.new_article Spec.short_text)
                [(u "entities",
                  JArr [ Notions.found (u "Paul Biya") (u "PERSON");
                         Notions.found (u " DOUALA ") (u "LOCATION");
                         Notions.found (u "Atlantis") (u "LOCATION") ])]
                [ Notions.found (u "Paul Biya") (u "PERSON");
                  Notions.found (u " DOUALA ") (u "LOCATION");
                  Notions.found (u "Atlantis") (u "LOCATION") ]
                (Notions.found (u " DOUALA ") (u "LOCATION"))
                [Notions.found (u "Atlantis") (u "LOCATION")]
                (u " DOUALA ")
                (fun n => eq_refl) eq_refl (or_intror eq_refl)
                (fun _ => eq_refl) eq_refl eq_refl eq_refl) as H.
  cbv zeta in H. destruct H as [_ [H _]].
  rewrite H. reflexivity.
Defined.

(** Witness of X23: services down, the text "le chat". *)
Lemma X23_extraction_unavailable_witness :
  Models.processing_status
    (Models.article
       (snd (Views.run Spec.services_down (Spec.new_article Spec.short_text))))
  = Models.processed
  /\ Article.entities
       (Models.article
          (snd (Views.run Spec.services_down (Spec.new_article Spec.short_text))))
     = Ok (JArr []).
Proof.
  pose proof (X23_extraction_unavailable Spec.services_down
                (Spec.new_article Spec.short_text)
                (fun n => eq_refl) (or_intror eq_refl) (fun _ => eq_refl)) as H.
  cbv zeta in H. destruct H as [A [_ [_ [_ [B _]]]]].
  split; [exact A | exact B].
Defined.

(** Witness of X24: services down, an English text. *)
Lemma X24_english_article_witness :
  Models.calls
    (snd (Views.run Spec.services_down (Spec.new_article Spec.english_text)))
  = [Models.NerCall (JStr Spec.english_text)]
  /\ Article.translated_text
       (Models.article
          (snd (Views.run Spec.services_down (Spec.new_article Spec.english_text))))
     = Ok (JStr Spec.english_text).
Proof.
  pose proof (X24_english_article Spec.services_down
                (Spec.new_article Spec.english_text)
                (fun n => eq_refl) eq_refl eq_refl) as H.
  cbv zeta in H. destruct H as [A [_ [B _]]].
  split; [exact A | exact B].
Defined.
